(** * crm-analytics: RFM segmentation and CLV preparation pipelines

    A shallow embedding of the data transformations of
    [rfm_analytics.py], [flo_rfm.py], [clv_prediction.py], [flo_clv.py]
    and [clv.py].

    Conventions of the embedding:
    - a pandas column is a [list]; a table is a list of records, in row order;
    - a float column is a list of rationals [Q]: arithmetic is exact, and
      numeric equality is [Qeq] ([==]);
    - a timestamp is a number of seconds ([Z]); [Timedelta.days] is the
      floor of a difference divided by one day;
    - a raised exception is the left injection of a sum type;
    - the two statistical estimators are not modelled: the pipelines are
      embedded up to the table that is handed to them. *)

From Stdlib Require Import List Bool Arith ZArith QArith Qround Lia.
From Stdlib Require Import Ascii String DecimalString.
From Stdlib Require Import Sorting.Sorted.
Import ListNotations.

(** ** Regular expressions, as far as the segment maps use them *)

Module Re.

(** One pattern position: a literal character or a bracketed class of
    inclusive ranges ([[1-2]]; a single character [c] is the range [c-c]). *)
Inductive atom : Type :=
| Lit (c : ascii)
| Class (ranges : list (ascii * ascii)).

Definition regex := list atom.

Definition is_char (a b : ascii) : bool := Ascii.eqb a b.

(** [re.compile]: left-to-right scan; [cls] holds the ranges of the class
    being read, if any.  An unterminated class is an error ([None]). *)
Fixpoint compile_from (cls : option (list (ascii * ascii))) (p : list ascii)
  : option regex :=
  match p with
  | [] => match cls with None => Some [] | Some _ => None end
  | c :: rest =>
      match cls with
      | None =>
          if is_char c "["%char then compile_from (Some []) rest
          else option_map (cons (Lit c)) (compile_from None rest)
      | Some rs =>
          if is_char c "]"%char
          then option_map (cons (Class (rev rs))) (compile_from None rest)
          else
            match rest with
            | dash :: hi :: rest' =>
                if is_char dash "-"%char && negb (is_char hi "]"%char)
                then compile_from (Some ((c, hi) :: rs)) rest'
                else compile_from (Some ((c, c) :: rs)) rest
            | _ => compile_from (Some ((c, c) :: rs)) rest
            end
      end
  end.

Definition compile (p : string) : option regex :=
  compile_from None (list_ascii_of_string p).

Definition in_range (c : ascii) (r : ascii * ascii) : bool :=
  (nat_of_ascii (fst r) <=? nat_of_ascii c)%nat
  && (nat_of_ascii c <=? nat_of_ascii (snd r))%nat.

Definition atom_matches (a : atom) (c : ascii) : bool :=
  match a with
  | Lit l => is_char l c
  | Class rs => existsb (in_range c) rs
  end.

(** The pattern matches a prefix of [s] (every atom consumes one character). *)
Fixpoint match_here (r : regex) (s : list ascii) : bool :=
  match r, s with
  | [], _ => true
  | a :: r', c :: s' => atom_matches a c && match_here r' s'
  | _ :: _, [] => false
  end.

(** [re.search]: the pattern matches at some offset of [s]. *)
Fixpoint search_from (r : regex) (s : list ascii) : bool :=
  match_here r s ||
  match s with
  | [] => false
  | _ :: s' => search_from r s'
  end.

(** [re.sub]: every leftmost non-overlapping match is replaced by [repl].
    [skip] counts the characters of the current match still to be dropped. *)
Fixpoint sub_from (r : regex) (repl : list ascii) (skip : nat) (s : list ascii)
  : list ascii :=
  match s with
  | [] => []
  | c :: s' =>
      match skip with
      | S k => sub_from r repl k s'
      | O =>
          if match_here r s
          then repl ++ sub_from r repl (Nat.pred (List.length r)) s'
          else c :: sub_from r repl 0 s'
      end
  end.

Definition search (r : regex) (s : string) : bool :=
  search_from r (list_ascii_of_string s).

Definition sub (r : regex) (repl s : string) : string :=
  string_of_list_ascii
    (sub_from r (list_ascii_of_string repl) 0 (list_ascii_of_string s)).

End Re.

(** ** The pandas operations the scripts call *)

Module Pandas.

Open Scope Q_scope.

(** *** Exceptions *)

Inductive error : Type :=
| ValueError_bin_edges_must_be_unique
| ValueError_bin_labels_must_be_one_fewer.

Definition result (A : Type) : Type := (error + A)%type.

Definition ret {A : Type} (a : A) : result A := inr a.

Definition bind {A B : Type} (m : result A) (k : A -> result B) : result B :=
  match m with
  | inl e => inl e
  | inr a => k a
  end.

Notation "x <- m ;; k" := (bind m (fun x => k))
  (at level 61, m at next level, right associativity).

(** *** Strings *)

(** [Series.replace(d, regex=True)] on one string cell.  The keys of [d]
    are taken in insertion order; the mask of each key is its [re.search]
    on the ORIGINAL cell, and the cells under the mask go through [re.sub]
    one key after the other. *)
Definition replace_regex (d : list (string * string)) (cell : string) : string :=
  fold_left
    (fun cur kv =>
       match Re.compile (fst kv) with
       | Some r => if Re.search r cell then Re.sub r (snd kv) cur else cur
       | None => cur
       end)
    d cell.

(** The rules of [d] whose pattern is found in the cell. *)
Definition matching_rules (d : list (string * string)) (cell : string)
  : list (string * string) :=
  filter
    (fun kv =>
       match Re.compile (fst kv) with
       | Some r => Re.search r cell
       | None => false
       end)
    d.

(** [Series.str.contains(pat, na=False)] on a string cell. *)
Definition str_contains (pat cell : string) : bool :=
  match Re.compile pat with
  | Some r => Re.search r cell
  | None => false
  end.

(** [astype(str)] of an integer label. *)
Definition str_of_int (n : Z) : string :=
  NilZero.string_of_int (Z.to_int n).

(** [astype(str)] of a categorical cell: a missing code prints as [nan]. *)
Definition str_of_label (c : option Z) : string :=
  match c with
  | Some n => str_of_int n
  | None => "nan"%string
  end.

(** *** Comparisons of floats *)

Definition Qlt_bool (x y : Q) : bool := negb (Qle_bool y x).

(** *** Selecting and assigning rows *)

(** [df.loc[mask, col] = v]: the rows under the mask are updated. *)
Fixpoint loc_set {A : Type} (mask : list bool) (upd : A -> A) (df : list A)
  : list A :=
  match mask, df with
  | m :: mask', r :: df' =>
      (if m then upd r else r) :: loc_set mask' upd df'
  | _, _ => df
  end.

(** *** Sorting and quantiles *)

Fixpoint insert_sorted (x : Q) (l : list Q) : list Q :=
  match l with
  | [] => [x]
  | y :: l' => if Qle_bool x y then x :: l else y :: insert_sorted x l'
  end.

Definition sort_values (l : list Q) : list Q := fold_right insert_sorted [] l.

(** [Series.quantile(q)], linear interpolation: with the column sorted as
    [v] of length [n], the value at the fractional index [q * (n - 1)].
    (An empty column gives NaN in pandas, [0] here.) *)
Definition quantile (col : list Q) (q : Q) : Q :=
  let v := sort_values col in
  let pos := q * inject_Z (Z.of_nat (List.length v) - 1) in
  let lo := Qfloor pos in
  let hi := Qceiling pos in
  let a := nth (Z.to_nat lo) v 0 in
  let b := nth (Z.to_nat hi) v 0 in
  a + (b - a) * (pos - inject_Z lo).

(** [np.linspace(0, 1, q + 1)]. *)
Definition linspace (q : nat) : list Q :=
  map (fun j => inject_Z (Z.of_nat j) / inject_Z (Z.of_nat q)) (seq 0 (S q)).

(** [algos.unique]: first occurrences, in order. *)
Fixpoint unique (l : list Q) : list Q :=
  match l with
  | [] => []
  | x :: l' => x :: filter (fun y => negb (Qeq_bool x y)) (unique l')
  end.

(** [bins.searchsorted(x, side="left")]: the first index whose edge is not
    below [x] (the length when there is none). *)
Fixpoint searchsorted_left (bins : list Q) (x : Q) : nat :=
  match bins with
  | [] => O
  | b :: bins' => if Qle_bool x b then O else S (searchsorted_left bins' x)
  end.

(** The bin number of one value ([include_lowest=True]). *)
Definition bin_id (bins : list Q) (x : Q) : nat :=
  if Qeq_bool x (nth 0 bins 0) then 1%nat else searchsorted_left bins x.

(** [_bins_to_cuts(x, bins, labels, include_lowest=True,
    duplicates="raise")]: right-closed bins; a value outside every bin gets
    no label. *)
Definition bins_to_cuts {L : Type} (x bins : list Q) (labels : list L)
  : result (list (option L)) :=
  if (List.length (unique bins) <? List.length bins)%nat
     && negb (List.length bins =? 2)%nat
  then inl ValueError_bin_edges_must_be_unique
  else if negb (List.length labels =? List.length bins - 1)%nat
  then inl ValueError_bin_labels_must_be_one_fewer
  else
    ret (map
           (fun v =>
              let id := bin_id bins v in
              if (id =? List.length bins)%nat || (id =? 0)%nat then None
              else nth_error labels (id - 1))
           x).

(** The bin edges of [pd.qcut(x, q)]. *)
Definition qcut_bins (x : list Q) (q : nat) : list Q :=
  map (quantile x) (linspace q).

(** [pd.qcut(x, q, labels=labels)]. *)
Definition qcut {L : Type} (x : list Q) (q : nat) (labels : list L)
  : result (list (option L)) :=
  bins_to_cuts x (qcut_bins x q) labels.

(** [Series.rank(method="first")]: the 1-based position in a stable
    ascending sort; ties are ranked in the order they appear. *)
Definition rank_first (col : list Q) : list Q :=
  map
    (fun i =>
       let v := nth i col 0 in
       inject_Z
         (Z.of_nat
            (S (List.length (filter (fun w => Qlt_bool w v) col)
                + List.length (filter (Qeq_bool v) (firstn i col))))))
    (seq 0 (List.length col)).

(** [round(x, 0)] of a float: to the nearest integer, halves to even. *)
Definition round0 (x : Q) : Q :=
  let f := Qfloor x in
  inject_Z
    match Qcompare (x - inject_Z f) (1 # 2) with
    | Lt => f
    | Gt => (f + 1)%Z
    | Eq => if Z.even f then f else (f + 1)%Z
    end.

(** *** Time *)

Definition seconds_per_day : Z := 86400.

(** [Timedelta.days] of the difference [later - earlier]. *)
Definition days (later earlier : Z) : Z :=
  ((later - earlier) / seconds_per_day)%Z.

(** [dt.datetime(y, m, d)] at midnight, from the day number of the date. *)
Definition datetime_of_day (day_number : Z) : Z :=
  (day_number * seconds_per_day)%Z.

(** [Series.max] and [Series.min] of a non-empty date column. *)
Definition series_max (l : list Z) : Z :=
  match l with
  | [] => 0%Z
  | x :: l' => fold_left Z.max l' x
  end.

Definition series_min (l : list Z) : Z :=
  match l with
  | [] => 0%Z
  | x :: l' => fold_left Z.min l' x
  end.

(** [Series.sum]. *)
Definition series_sum (l : list Q) : Q := fold_left Qplus l 0.

(** [Series.nunique] of a string column. *)
Definition nunique (l : list string) : Z :=
  Z.of_nat (List.length (nodup string_dec l)).

(** *** Grouping *)

(** The groups are kept in ascending key order; a row joins the end of
    its group. *)
Fixpoint add_to_group {A : Type} (k : Z) (a : A) (gs : list (Z * list A))
  : list (Z * list A) :=
  match gs with
  | [] => [(k, [a])]
  | (k', g) :: gs' =>
      if (k <? k')%Z then (k, [a]) :: gs
      else if (k =? k')%Z then (k', g ++ [a]) :: gs'
      else (k', g) :: add_to_group k a gs'
  end.

(** [df.groupby(key)]: rows without a key are dropped. *)
Definition groupby {A : Type} (key : A -> option Z) (df : list A)
  : list (Z * list A) :=
  fold_left
    (fun gs a =>
       match key a with
       | Some k => add_to_group k a gs
       | None => gs
       end)
    df [].

End Pandas.

(** ** The Online Retail II transaction table *)

Module OnlineRetail.

Open Scope Q_scope.

(** One line of an invoice.  [Description] and [CustomerID] are the two
    columns with missing values; [Quantity] is a numeric column (whole
    numbers in the source file, floats once a threshold is written into it). *)
Record row : Type := mkRow {
  Invoice : string;
  Description : option string;
  Quantity : Q;
  InvoiceDate : Z;
  Price : Q;
  CustomerID : option Z
}.

(** [dataframe["TotalPrice"] = dataframe["Quantity"] * dataframe["Price"]]. *)
Definition TotalPrice (r : row) : Q := Quantity r * Price r.

(** [dataframe.dropna()]. *)
Definition dropna (dataframe : list row) : list row :=
  filter
    (fun r =>
       match Description r, CustomerID r with
       | Some _, Some _ => true
       | _, _ => false
       end)
    dataframe.

(** [dataframe[~dataframe["Invoice"].str.contains("C", na=False)]]. *)
Definition drop_cancellations (dataframe : list row) : list row :=
  filter (fun r => negb (Pandas.str_contains "C" (Invoice r))) dataframe.

Definition set_Quantity (v : Q) (r : row) : row :=
  mkRow (Invoice r) (Description r) v (InvoiceDate r) (Price r) (CustomerID r).

Definition set_Price (v : Q) (r : row) : row :=
  mkRow (Invoice r) (Description r) (Quantity r) (InvoiceDate r) v (CustomerID r).

End OnlineRetail.

(** ** rfm_analytics.py *)

Module RfmAnalytics.

Import Pandas OnlineRetail.
Open Scope Q_scope.

(** [seg_map] of the script body. *)
Definition seg_map : list (string * string) :=
  [ ("[1-2][1-2]", "hibernating");
    ("[1-2][3-4]", "at_Risk");
    ("[1-2]5", "cant_loose");
    ("3[1-2]", "about_to_sleep");
    ("33", "need_attention");
    ("[3-4][4-5]", "loyal_customers");
    ("41", "promising");
    ("51", "new_customers");
    ("[4-5][2-3]", "potential_loyalists");
    ("5[4-5]", "champions") ]%string.

(** [seg_map] local to [create_rfm]. *)
Definition create_rfm_seg_map : list (string * string) :=
  [ ("[1-2][1-2]", "hibernating");
    ("[1-2][3-4]", "at_risk");
    ("[1-2]5", "cant_loose");
    ("3[1-2]", "about_to_sleep");
    ("33", "need_attention");
    ("[3-4][4-5]", "loyal_customers");
    ("41", "promising");
    ("51", "new_customers");
    ("[4-5][2-3]", "potential_loyalists");
    ("5[4-5]", "champions") ]%string.

(** The metric table, one record per customer. *)
Record rfm_row : Type := mkRfm {
  customer_id : Z;
  recency : Z;
  frequency : Z;
  monetary : Q
}.

(** The table with its score columns. *)
Record scored_row : Type := mkScored {
  metrics : rfm_row;
  recency_score : option Z;
  frequency_score : option Z;
  monetary_score : option Z
}.

(** The returned table: [recency], [frequency], [monetary], [segment]. *)
Record segment_row : Type := mkSegment {
  seg_metrics : rfm_row;
  segment : string
}.

(** [dt.datetime(2011, 12, 11)], the analysis date of [create_rfm], and
    [dt.datetime(2010, 12, 11)], the one of the script body. *)
Definition today_date : Z := datetime_of_day 15319.
Definition script_today_date : Z := datetime_of_day 14954.

(** DATA PREPERATION of [create_rfm]. *)
Definition data_preparation (dataframe : list row) : list row :=
  drop_cancellations (dropna dataframe).

(** The three aggregation lambdas over one customer's rows. *)
Definition agg_recency (today : Z) (g : list row) : Z :=
  days today (series_max (map InvoiceDate g)).

Definition agg_frequency (g : list row) : Z := nunique (map Invoice g).

Definition agg_monetary (g : list row) : Q := series_sum (map TotalPrice g).

(** CALCULATING RFM METRICS: [groupby('Customer ID').agg(...)]. *)
Definition rfm_metrics (today : Z) (dataframe : list row) : list rfm_row :=
  map
    (fun kg =>
       mkRfm (fst kg) (agg_recency today (snd kg)) (agg_frequency (snd kg))
         (agg_monetary (snd kg)))
    (groupby CustomerID dataframe).

(** [rfm[rfm["monetary"] > 0]]. *)
Definition positive_monetary (rfm : list rfm_row) : list rfm_row :=
  filter (fun r => Qlt_bool 0 (monetary r)) rfm.

Definition recency_labels : list Z := [5; 4; 3; 2; 1]%Z.
Definition value_labels : list Z := [1; 2; 3; 4; 5]%Z.

Fixpoint zip_scores (rfm : list rfm_row) (rs fs ms : list (option Z))
  : list scored_row :=
  match rfm, rs, fs, ms with
  | x :: rfm', r :: rs', f :: fs', m :: ms' =>
      mkScored x r f m :: zip_scores rfm' rs' fs' ms'
  | _, _, _, _ => []
  end.

(** CALCULATING RFM SCORES: the three [pd.qcut] calls, in source order. *)
Definition rfm_scores (rfm : list rfm_row) : result (list scored_row) :=
  rs <- qcut (map (fun r => inject_Z (recency r)) rfm) 5 recency_labels ;;
  fs <- qcut (rank_first (map (fun r => inject_Z (frequency r)) rfm)) 5
          value_labels ;;
  ms <- qcut (map monetary rfm) 5 value_labels ;;
  ret (zip_scores rfm rs fs ms).

(** [RFM_SCORE]: recency score then frequency score, as text. *)
Definition RFM_SCORE (r : scored_row) : string :=
  (str_of_label (recency_score r) ++ str_of_label (frequency_score r))%string.

(** CUSTOMER SEGMENTATION. *)
Definition segmentation (d : list (string * string)) (scored : list scored_row)
  : list segment_row :=
  map (fun r => mkSegment (metrics r) (replace_regex d (RFM_SCORE r))) scored.

(** [create_rfm(dataframe)] with the analysis date as a parameter. *)
Definition create_rfm_at (today : Z) (dataframe : list row)
  : result (list segment_row) :=
  let dataframe := data_preparation dataframe in
  let rfm := positive_monetary (rfm_metrics today dataframe) in
  scored <- rfm_scores rfm ;;
  ret (segmentation create_rfm_seg_map scored).

Definition create_rfm (dataframe : list row) : result (list segment_row) :=
  create_rfm_at today_date dataframe.

(** The script body: [dropna], drop the invoices with a C, aggregate at
    [script_today_date], keep positive [monetary], score, and segment with
    the script's [seg_map]. *)
Definition script_rfm (df : list row) : result (list segment_row) :=
  let df := drop_cancellations (dropna df) in
  let rfm := positive_monetary (rfm_metrics script_today_date df) in
  scored <- rfm_scores rfm ;;
  ret (segmentation seg_map scored).

End RfmAnalytics.

(** ** The FLO customer table *)

Module Flo.

Open Scope Q_scope.

(** One customer of [flo_data_20K.csv], with the columns the scripts read. *)
Record row : Type := mkRow {
  master_id : string;
  first_order_date : Z;
  last_order_date : Z;
  order_num_total_ever_online : Q;
  order_num_total_ever_offline : Q;
  customer_value_total_ever_offline : Q;
  customer_value_total_ever_online : Q
}.

Definition order_num_total (r : row) : Q :=
  order_num_total_ever_online r + order_num_total_ever_offline r.

Definition customer_value_total (r : row) : Q :=
  customer_value_total_ever_offline r + customer_value_total_ever_online r.

(** [dt.datetime(2021, 6, 1)]. *)
Definition analysis_date : Z := Pandas.datetime_of_day 18779.

End Flo.

(** ** flo_rfm.py *)

Module FloRfm.

Import Pandas Flo.
Open Scope Q_scope.

(** [seg_map]; the script body and [create_rfm] hold the same table. *)
Definition seg_map : list (string * string) :=
  [ ("[1-2][1-2]", "hibernating");
    ("[1-2][3-4]", "at_Risk");
    ("[1-2]5", "cant_loose");
    ("3[1-2]", "about_to_sleep");
    ("33", "need_attention");
    ("[3-4][4-5]", "loyal_customers");
    ("41", "promising");
    ("51", "new_customers");
    ("[4-5][2-3]", "potential_loyalists");
    ("5[4-5]", "champions") ]%string.

Record rfm_row : Type := mkRfm {
  customer_id : string;
  recency : Z;
  frequency : Q;
  monetary : Q
}.

Record scored_row : Type := mkScored {
  metrics : rfm_row;
  recency_score : option Z;
  frequency_score : option Z;
  monetary_score : option Z
}.

(** The returned table. *)
Record segment_row : Type := mkSegment {
  seg_metrics : rfm_row;
  RF_SCORE : string;
  RFM_SCORE : string;
  segment : string
}.

(** Calculating RFM metrics: one record per row of the customer table. *)
Definition rfm_metrics (analysis : Z) (dataframe : list row) : list rfm_row :=
  map
    (fun r =>
       mkRfm (master_id r) (days analysis (last_order_date r))
         (order_num_total r) (customer_value_total r))
    dataframe.

Definition recency_labels : list Z := [5; 4; 3; 2; 1]%Z.
Definition value_labels : list Z := [1; 2; 3; 4; 5]%Z.

Fixpoint zip_scores (rfm : list rfm_row) (rs fs ms : list (option Z))
  : list scored_row :=
  match rfm, rs, fs, ms with
  | x :: rfm', r :: rs', f :: fs', m :: ms' =>
      mkScored x r f m :: zip_scores rfm' rs' fs' ms'
  | _, _, _, _ => []
  end.

(** Calculating RF and RFM scores. *)
Definition rfm_scores (rfm : list rfm_row) : result (list scored_row) :=
  rs <- qcut (map (fun r => inject_Z (recency r)) rfm) 5 recency_labels ;;
  fs <- qcut (rank_first (map frequency rfm)) 5 value_labels ;;
  ms <- qcut (map monetary rfm) 5 value_labels ;;
  ret (zip_scores rfm rs fs ms).

Definition rf_score (r : scored_row) : string :=
  (str_of_label (recency_score r) ++ str_of_label (frequency_score r))%string.

Definition rfm_score (r : scored_row) : string :=
  (str_of_label (recency_score r) ++ str_of_label (frequency_score r)
   ++ str_of_label (monetary_score r))%string.

(** [create_rfm(dataframe)] with the analysis date as a parameter. *)
Definition create_rfm_at (analysis : Z) (dataframe : list row)
  : result (list segment_row) :=
  scored <- rfm_scores (rfm_metrics analysis dataframe) ;;
  ret (map
         (fun r =>
            mkSegment (metrics r) (rf_score r) (rfm_score r)
              (replace_regex seg_map (rf_score r)))
         scored).

Definition create_rfm (dataframe : list row) : result (list segment_row) :=
  create_rfm_at analysis_date dataframe.

End FloRfm.

(** ** clv_prediction.py *)

Module ClvPrediction.

Import Pandas OnlineRetail.
Open Scope Q_scope.

(** [outlier_thresholds(dataframe, variable)] on the column [variable]. *)
Definition outlier_thresholds (col : list Q) : Q * Q :=
  let quartile1 := quantile col (1 # 100) in
  let quartile3 := quantile col (99 # 100) in
  let interquantile_range := quartile3 - quartile1 in
  let up_limit := quartile3 + (3 # 2) * interquantile_range in
  let low_limit := quartile1 - (3 # 2) * interquantile_range in
  (low_limit, up_limit).

(** [replace_with_thresholds(dataframe, variable)]: the column is read
    with [get] and written with [set]; only the upper limit is applied
    (the assignment of the lower one is commented out in the source). *)
Definition replace_with_thresholds {A : Type} (get : A -> Q)
    (set : Q -> A -> A) (dataframe : list A) : list A :=
  let (low_limit, up_limit) := outlier_thresholds (map get dataframe) in
  loc_set (map (fun r => Qlt_bool up_limit (get r)) dataframe) (set up_limit)
    dataframe.

(** [dt.datetime(2011, 12, 11)]. *)
Definition today_date : Z := datetime_of_day 15319.

(** 1. Data preparation of [create_clv_period]. *)
Definition data_preparation (dataframe : list row) : list row :=
  let dataframe := dropna dataframe in
  let dataframe := drop_cancellations dataframe in
  let dataframe := filter (fun r => Qlt_bool 0 (Quantity r)) dataframe in
  let dataframe := filter (fun r => Qlt_bool 0 (Price r)) dataframe in
  let dataframe := replace_with_thresholds Quantity set_Quantity dataframe in
  replace_with_thresholds Price set_Price dataframe.

(** The same up to the two row filters, before the thresholds. *)
Definition valid_rows (dataframe : list row) : list row :=
  filter (fun r => Qlt_bool 0 (Price r))
    (filter (fun r => Qlt_bool 0 (Quantity r))
       (drop_cancellations (dropna dataframe))).

(** The table of the aggregation: day counts, invoice count, total. *)
Record agg_row : Type := mkAgg {
  agg_customer : Z;
  agg_recency : Z;
  agg_T : Z;
  agg_frequency : Z;
  agg_monetary : Q
}.

(** The table handed to the estimators. *)
Record clv_row : Type := mkClv {
  customer_id : Z;
  recency : Q;
  T : Q;
  frequency : Z;
  monetary : Q
}.

(** [groupby('Customer ID').agg(...)] with its four lambdas. *)
Definition aggregate (today : Z) (dataframe : list row) : list agg_row :=
  map
    (fun kg =>
       let dates := map InvoiceDate (snd kg) in
       mkAgg (fst kg)
         (days (series_max dates) (series_min dates))
         (days today (series_min dates))
         (nunique (map Invoice (snd kg)))
         (series_sum (map TotalPrice (snd kg))))
    (groupby CustomerID dataframe).

(** [clv_df["monetary"] = clv_df["monetary"] / clv_df["frequency"]]. *)
Definition monetary_per_transaction (a : agg_row) : agg_row :=
  mkAgg (agg_customer a) (agg_recency a) (agg_T a) (agg_frequency a)
    (agg_monetary a / inject_Z (agg_frequency a)).

(** [clv_df[clv_df['frequency'] > 1]]. *)
Definition repeat_customers (clv_df : list agg_row) : list agg_row :=
  filter (fun a => (1 <? agg_frequency a)%Z) clv_df.

(** [recency] and [T] expressed in weeks. *)
Definition weekly (a : agg_row) : clv_row :=
  mkClv (agg_customer a) (inject_Z (agg_recency a) / 7)
    (inject_Z (agg_T a) / 7) (agg_frequency a) (agg_monetary a).

(** The table [clv_df] as [bgf.fit] and [bgf.predict] receive it. *)
Definition clv_df_of_rows (today : Z) (dataframe : list row) : list clv_row :=
  map weekly
    (repeat_customers (map monetary_per_transaction (aggregate today dataframe))).

Definition clv_df_at (today : Z) (dataframe : list row) : list clv_row :=
  clv_df_of_rows today (data_preparation dataframe).

Definition clv_df (dataframe : list row) : list clv_row :=
  clv_df_at today_date dataframe.

(** The arguments of [bgf.fit(frequency, recency, T)]. *)
Definition bgf_fit_args (clv : list clv_row) : list (Z * Q * Q) :=
  map (fun r => (frequency r, recency r, T r)) clv.

End ClvPrediction.

(** ** flo_clv.py *)

Module FloClv.

Import Pandas Flo.
Open Scope Q_scope.

Definition outlier_thresholds (col : list Q) : Q * Q :=
  let quartile1 := quantile col (1 # 100) in
  let quartile3 := quantile col (99 # 100) in
  let interquantile_range := quartile3 - quartile1 in
  let up_limit := quartile3 + (3 # 2) * interquantile_range in
  let low_limit := quartile1 - (3 # 2) * interquantile_range in
  (low_limit, up_limit).

(** [replace_with_thresholds(dataframe, variable)]: both limits are
    applied, rounded, the lower one first; the second mask is read from
    the column as the first assignment left it. *)
Definition replace_with_thresholds {A : Type} (get : A -> Q)
    (set : Q -> A -> A) (dataframe : list A) : list A :=
  let (low_limit, up_limit) := outlier_thresholds (map get dataframe) in
  let dataframe :=
    loc_set (map (fun r => Qlt_bool (get r) low_limit) dataframe)
      (set (round0 low_limit)) dataframe in
  loc_set (map (fun r => Qlt_bool up_limit (get r)) dataframe)
    (set (round0 up_limit)) dataframe.

Definition set_online_num (v : Q) (r : row) : row :=
  mkRow (master_id r) (first_order_date r) (last_order_date r) v
    (order_num_total_ever_offline r) (customer_value_total_ever_offline r)
    (customer_value_total_ever_online r).

Definition set_offline_num (v : Q) (r : row) : row :=
  mkRow (master_id r) (first_order_date r) (last_order_date r)
    (order_num_total_ever_online r) v (customer_value_total_ever_offline r)
    (customer_value_total_ever_online r).

Definition set_offline_value (v : Q) (r : row) : row :=
  mkRow (master_id r) (first_order_date r) (last_order_date r)
    (order_num_total_ever_online r) (order_num_total_ever_offline r) v
    (customer_value_total_ever_online r).

Definition set_online_value (v : Q) (r : row) : row :=
  mkRow (master_id r) (first_order_date r) (last_order_date r)
    (order_num_total_ever_online r) (order_num_total_ever_offline r)
    (customer_value_total_ever_offline r) v.

(** The loop over [columns]. *)
Definition clip_columns (dataframe : list row) : list row :=
  let dataframe :=
    replace_with_thresholds order_num_total_ever_online set_online_num
      dataframe in
  let dataframe :=
    replace_with_thresholds order_num_total_ever_offline set_offline_num
      dataframe in
  let dataframe :=
    replace_with_thresholds customer_value_total_ever_offline
      set_offline_value dataframe in
  replace_with_thresholds customer_value_total_ever_online set_online_value
    dataframe.

(** The table handed to the estimators.  (A zero order count makes the
    quotient of [monetary_clv_avg] infinite or NaN in pandas; it is [0]
    here.  No statement below reads that column.) *)
Record clv_row : Type := mkClv {
  customer_id : string;
  recency_clv_weekly : Q;
  T_weekly : Q;
  frequency : Q;
  monetary_clv_avg : Q
}.

(** 2. Creating the parameters for CLV calculation. *)
Definition clv_parameters (analysis : Z) (dataframe : list row)
  : list clv_row :=
  map
    (fun r =>
       mkClv (master_id r)
         (inject_Z (days (last_order_date r) (first_order_date r)) / 7)
         (inject_Z (days analysis (first_order_date r)) / 7)
         (order_num_total r)
         (customer_value_total r / order_num_total r))
    dataframe.

(** The script body: [clv_df] as [bgf.fit] receives it. *)
Definition script_clv_df_at (analysis : Z) (df : list row) : list clv_row :=
  clv_parameters analysis (clip_columns df).

Definition script_clv_df (df : list row) : list clv_row :=
  script_clv_df_at analysis_date df.

(** [dataframe[~(customer_value_total == 0) | (order_num_total == 0)]]. *)
Definition exclusion_filter (dataframe : list row) : list row :=
  filter
    (fun r =>
       negb (Qeq_bool (customer_value_total r) 0)
       || Qeq_bool (order_num_total r) 0)
    dataframe.

(** [create_clv_df(dataframe)] up to the table that [bgf.fit] receives. *)
Definition create_clv_df_at (analysis : Z) (dataframe : list row)
  : list clv_row :=
  let dataframe := exclusion_filter (clip_columns dataframe) in
  filter (fun r => Qlt_bool 1 (frequency r)) (clv_parameters analysis dataframe).

Definition create_clv_df (dataframe : list row) : list clv_row :=
  create_clv_df_at analysis_date dataframe.

(** The arguments of [bgf.fit(frequency, recency_clv_weekly, T_weekly)]. *)
Definition bgf_fit_args (clv : list clv_row) : list (Q * Q * Q) :=
  map (fun r => (frequency r, recency_clv_weekly r, T_weekly r)) clv.

(** Customer Segmentation: [pd.qcut(clv_df["clv"], 4, labels=...)] on the
    column of predicted values. *)
Definition clv_segment (clv : list Q) : result (list (option string)) :=
  qcut clv 4 ["D"; "C"; "B"; "A"]%string.

End FloClv.

(** ** clv.py *)

Module Clv.

Import Pandas OnlineRetail.
Open Scope Q_scope.

(** Data preparation of [create_clv_segment]. *)
Definition data_preparation (dataframe : list row) : list row :=
  let dataframe := drop_cancellations dataframe in
  let dataframe := filter (fun r => Qlt_bool 0 (Quantity r)) dataframe in
  dropna dataframe.

End Clv.

(** A bare numeric column seen as a one-column table. *)
Definition column_get (v : Q) : Q := v.
Definition column_set (v _ : Q) : Q := v.

(** ** Vocabulary of the statements *)

(** The label set of the specification's rule table. *)
Definition spec_segment_labels : list string :=
  [ "hibernating"; "at_risk"; "cant_loose"; "about_to_sleep";
    "need_attention"; "loyal_customers"; "promising"; "new_customers";
    "potential_loyalists"; "champions" ]%string.

(** The text of a two-digit score. *)
Definition score_string (r f : Z) : string :=
  (Pandas.str_of_int r ++ Pandas.str_of_int f)%string.

Definition is_score (n : Z) : Prop := (1 <= n <= 5)%Z.

(** The rows of the table whose key is [k], in table order. *)
Definition rows_of {A : Type} (key : A -> option Z) (k : Z) (df : list A)
  : list A :=
  filter
    (fun a => match key a with Some k' => (k' =? k)%Z | None => false end)
    df.

(** The group stored under a key. *)
Fixpoint assoc {A : Type} (k : Z) (gs : list (Z * list A)) : option (list A) :=
  match gs with
  | [] => None
  | (k', g) :: gs' => if (k' =? k)%Z then Some g else assoc k gs'
  end.

(** The keys grow strictly along the list. *)
Fixpoint ascending {A : Type} (gs : list (Z * list A)) : Prop :=
  match gs with
  | [] => True
  | (k, _) :: gs' => Forall (fun kg => (k < fst kg)%Z) gs' /\ ascending gs'
  end.

(** The valid rows of one customer. *)
Definition customer_rows (c : Z) (df : list OnlineRetail.row)
  : list OnlineRetail.row :=
  rows_of OnlineRetail.CustomerID c df.

(** [t] is the latest timestamp of the rows. *)
Definition is_latest (t : Z) (rows : list OnlineRetail.row) : Prop :=
  (exists r, In r rows /\ OnlineRetail.InvoiceDate r = t)
  /\ forall r, In r rows -> (OnlineRetail.InvoiceDate r <= t)%Z.

(** [t] is the earliest timestamp of the rows. *)
Definition is_earliest (t : Z) (rows : list OnlineRetail.row) : Prop :=
  (exists r, In r rows /\ OnlineRetail.InvoiceDate r = t)
  /\ forall r, In r rows -> (t <= OnlineRetail.InvoiceDate r)%Z.

(** [d] is the number of whole days from [earlier] to [later]. *)
Definition whole_days (d earlier later : Z) : Prop :=
  (d * 86400 <= later - earlier < (d + 1) * 86400)%Z.

(** [n] is the number of distinct invoice ids of the rows. *)
Definition distinct_invoices (n : Z) (rows : list OnlineRetail.row) : Prop :=
  exists ids : list string,
    NoDup ids
    /\ (forall i, In i ids <-> exists r, In r rows /\ OnlineRetail.Invoice r = i)
    /\ n = Z.of_nat (List.length ids).

(** The sum over the rows of quantity times unit price. *)
Fixpoint total_spend (rows : list OnlineRetail.row) : Q :=
  match rows with
  | [] => 0
  | r :: rows' =>
      OnlineRetail.Quantity r * OnlineRetail.Price r + total_spend rows'
  end.

(** A cancellation: the invoice id starts with the marker [C]. *)
Definition is_cancellation (r : OnlineRetail.row) : Prop :=
  String.prefix "C" (OnlineRetail.Invoice r) = true.

(** The label that [_bins_to_cuts] gives to one value. *)
Definition cut_label {L : Type} (bins : list Q) (labels : list L) (v : Q)
  : option L :=
  if (Pandas.bin_id bins v =? List.length bins)%nat
     || (Pandas.bin_id bins v =? 0)%nat
  then None
  else nth_error labels (Pandas.bin_id bins v - 1).

(** The rank that [rank(method="first")] gives to the value [v] at
    position [i] of the column. *)
Definition first_rank (col : list Q) (i : nat) (v : Q) : Q :=
  inject_Z
    (Z.of_nat
       (S (List.length (filter (fun w => Pandas.Qlt_bool w v) col)
           + List.length (filter (Qeq_bool v) (firstn i col))))).

(** Two scores, the first at most the second. *)
Definition scores_ascend (sx sy : option Z) : Prop :=
  exists a b, sx = Some a /\ sy = Some b /\ (1 <= a <= b)%Z /\ (b <= 5)%Z.

(** What the clipper of [clv_prediction.py] does to one value [v] of the
    column, [w] being the value after the call. *)
Definition clipped_high_only (high v w : Q) : Prop :=
  (high < v -> w = high) /\ (v <= high -> w = v).

(** What the clipper of [flo_clv.py] does to one value: the lower limit
    is applied first, and the upper one to the value so obtained. *)
Definition clipped_rounded (low high v w : Q) : Prop :=
  (v < low -> Pandas.round0 low <= high -> w = Pandas.round0 low)
  /\ (v < low -> high < Pandas.round0 low -> w = Pandas.round0 high)
  /\ (low <= v -> high < v -> w = Pandas.round0 high)
  /\ (low <= v -> v <= high -> w = v).

(** The identity of a line: everything but the two clipped columns. *)
Definition line_identity (r : OnlineRetail.row)
  : string * option string * Z * option Z :=
  (OnlineRetail.Invoice r, OnlineRetail.Description r,
   OnlineRetail.InvoiceDate r, OnlineRetail.CustomerID r).

(** No field of the row is missing. *)
Definition is_complete (r : OnlineRetail.row) : Prop :=
  OnlineRetail.Description r <> None /\ OnlineRetail.CustomerID r <> None.

(** ** Example tables *)

Module Examples.

Import Pandas.

(** Day 15000 is 2011-01-26. *)
Definition d0 : Z := 15000.

(** The specification's scenario: customer 42 buys three times. *)
Definition customer_42 : list OnlineRetail.row :=
  [ OnlineRetail.mkRow "536365" (Some "MUG"%string) 2 (datetime_of_day d0) 5
      (Some 42%Z);
    OnlineRetail.mkRow "536366" (Some "CUP"%string) 1
      (datetime_of_day (d0 + 10)) 3 (Some 42%Z);
    OnlineRetail.mkRow "536367" (Some "POT"%string) 4
      (datetime_of_day (d0 + 40)) (5 # 2) (Some 42%Z) ].

(** A return booked under an ordinary invoice number. *)
Definition negative_line : OnlineRetail.row :=
  OnlineRetail.mkRow "536370" (Some "JAR"%string) (-4)
    (datetime_of_day (d0 + 30)) (5 # 2) (Some 9%Z).

(** A cancellation line and a line without a customer. *)
Definition cancelled_line : OnlineRetail.row :=
  OnlineRetail.mkRow "C536371" (Some "JAR"%string) (-4)
    (datetime_of_day (d0 + 31)) (5 # 2) (Some 7%Z).

Definition anonymous_line : OnlineRetail.row :=
  OnlineRetail.mkRow "536372" (Some "JAR"%string) 1
    (datetime_of_day (d0 + 31)) (5 # 2) None.

(** Three customers: 42 as above, 7 with one purchase, 9 with nothing but
    a negative line. *)
Definition retail : list OnlineRetail.row :=
  customer_42
  ++ [ OnlineRetail.mkRow "536368" (Some "JAR"%string) 4
         (datetime_of_day (d0 + 30)) (5 # 2) (Some 7%Z);
       cancelled_line; negative_line; anonymous_line ].

(** The analysis date of the scenario. *)
Definition retail_today : Z := datetime_of_day (d0 + 42).

(** Five FLO customers; the first one ordered once. *)
Definition flo_customer (id : string) (first last : Z) (online offline : Q)
    (value_offline value_online : Q) : Flo.row :=
  Flo.mkRow id (datetime_of_day first) (datetime_of_day last) online offline
    value_offline value_online.

Definition flo : list Flo.row :=
  [ flo_customer "a1" 18000 18729 1 0 0 (120 # 1);
    flo_customer "b2" 18100 18739 1 1 (80 # 1) (45 # 1);
    flo_customer "c3" 18200 18749 2 1 (60 # 1) (150 # 1);
    flo_customer "d4" 18300 18759 3 2 (200 # 1) (310 # 1);
    flo_customer "e5" 18400 18769 4 3 (400 # 1) (520 # 1) ].

(** Five customers with the same order count. *)
Definition equal_frequency : list RfmAnalytics.rfm_row :=
  [ RfmAnalytics.mkRfm 1 10 1 5;
    RfmAnalytics.mkRfm 2 20 1 10;
    RfmAnalytics.mkRfm 3 30 1 15;
    RfmAnalytics.mkRfm 4 40 1 20;
    RfmAnalytics.mkRfm 5 50 1 25 ].

(** Six customers who bought on the same day. *)
Definition same_day : list OnlineRetail.row :=
  map
    (fun c =>
       OnlineRetail.mkRow "536365" (Some "MUG"%string) 1 (datetime_of_day d0)
         (inject_Z c) (Some c))
    [1; 2; 3; 4; 5; 6]%Z.

(** A column of 200 equal values and one far above them. *)
Definition one_outlier : list Q := repeat (1 # 4) 200 ++ [100].

(** A column of 200 equal values and one far below them. *)
Definition one_low_outlier : list Q := (- (100)) :: repeat 1 200.

End Examples.

From Stdlib Require Import Lqa.

(** ** clv.py: [create_clv_segment] *)

Module ClvSegment.

Import Pandas OnlineRetail.
Open Scope Q_scope.

(** What the function can end with besides its table.  The second case is
    no exception of the source: with a churn rate of zero the division of
    line 177 fills the [cltv] column with [inf] or [NaN], and what
    [pd.qcut] does with such a column is outside the embedding. *)
Inductive error : Type :=
| ZeroDivisionError
| Infinite_cltv
| ValueError (e : Pandas.error).

Definition result (A : Type) : Type := (error + A)%type.

(** [groupby('Customer ID').agg(...)] with the columns renamed
    [total_transaction], [total_unit], [total_price]. *)
Record agg_row : Type := mkAgg {
  agg_customer : Z;
  agg_transaction : Z;
  agg_unit : Q;
  agg_price : Q
}.

Definition aggregate (dataframe : list row) : list agg_row :=
  map
    (fun kg =>
       mkAgg (fst kg) (nunique (map Invoice (snd kg)))
         (series_sum (map Quantity (snd kg)))
         (series_sum (map TotalPrice (snd kg))))
    (groupby CustomerID dataframe).

(** [cltv_c.shape[0]], as a number. *)
Definition shape0 {A : Type} (table : list A) : Q :=
  inject_Z (Z.of_nat (List.length table)).

(** [cltv_c[cltv_c.total_transaction > 1].shape[0] / cltv_c.shape[0]]. *)
Definition repeat_rate (cltv_c : list agg_row) : Q :=
  shape0 (filter (fun a => (1 <? agg_transaction a)%Z) cltv_c) / shape0 cltv_c.

Definition churn_rate (cltv_c : list agg_row) : Q := 1 - repeat_rate cltv_c.

(** The returned table, indexed by customer. *)
Record cltv_row : Type := mkCltv {
  customer_id : Z;
  total_transaction : Z;
  total_unit : Q;
  total_price : Q;
  avg_order_value : Q;
  purchase_frequency : Q;
  profit_margin : Q;
  customer_value : Q;
  cltv : Q;
  segment : option string
}.

(** The columns added one after the other to [cltv_c], for one customer;
    [segment] is assigned last. *)
Definition parameters (profit : Q) (cltv_c : list agg_row) (a : agg_row)
  : cltv_row :=
  let avg_order_value := agg_price a / inject_Z (agg_transaction a) in
  let purchase_frequency := inject_Z (agg_transaction a) / shape0 cltv_c in
  let profit_margin := agg_price a * profit in
  let customer_value := avg_order_value * purchase_frequency in
  let cltv := (customer_value / churn_rate cltv_c) * profit_margin in
  mkCltv (agg_customer a) (agg_transaction a) (agg_unit a) (agg_price a)
    avg_order_value purchase_frequency profit_margin customer_value cltv None.

Definition set_segment (r : cltv_row) (s : option string) : cltv_row :=
  mkCltv (customer_id r) (total_transaction r) (total_unit r) (total_price r)
    (avg_order_value r) (purchase_frequency r) (profit_margin r)
    (customer_value r) (cltv r) s.

Fixpoint assign_segment (table : list cltv_row) (segs : list (option string))
  : list cltv_row :=
  match table, segs with
  | r :: table', s :: segs' => set_segment r s :: assign_segment table' segs'
  | _, _ => []
  end.

Definition segment_labels : list string := ["D"; "C"; "B"; "A"]%string.

(** [create_clv_segment(dataframe, profit)]. *)
Definition create_clv_segment (profit : Q) (dataframe : list row)
  : result (list cltv_row) :=
  let cltv_c := aggregate (Clv.data_preparation dataframe) in
  if (List.length cltv_c =? 0)%nat then inl ZeroDivisionError
  else if Qeq_bool (churn_rate cltv_c) 0 then inl Infinite_cltv
  else
    let table := map (parameters profit cltv_c) cltv_c in
    match qcut (map cltv table) 4 segment_labels with
    | inl e => inl (ValueError e)
    | inr segs => inr (assign_segment table segs)
    end.


End ClvSegment.

(** ** rfm_analytics.py: the export of the new customers *)

Module RfmExport.

Import RfmAnalytics.

(** [rfm[rfm["segment"] == "new_customers"].index]. *)
Definition new_customer_id (rfm : list segment_row) : list Z :=
  map (fun r => customer_id (seg_metrics r))
    (filter (fun r => String.eqb (segment r) "new_customers") rfm).

End RfmExport.

(** ** flo_rfm.py: the two target lists of section 5 *)

Module FloTargets.

Import Pandas Flo.

(** A row of [df] with the category column that the selections read. *)
Record customer : Type := mkCustomer {
  profile : Flo.row;
  interested_in_categories_12 : string
}.

(** [Series.isin(values)] on one cell. *)
Definition isin (values : list string) (cell : string) : bool :=
  existsb (String.eqb cell) values.

(** [rfm[rfm["segment"].isin(segments)]["customer_id"]]. *)
Definition target_segment_customer_ids (segments : list string)
    (rfm : list FloRfm.segment_row) : list string :=
  map (fun r => FloRfm.customer_id (FloRfm.seg_metrics r))
    (filter (fun r => isin segments (FloRfm.segment r)) rfm).

(** Case a: loyal customers and champions who shopped in KADIN. *)
Definition customer_ids (rfm : list FloRfm.segment_row) (df : list customer)
  : list string :=
  map (fun c => master_id (profile c))
    (filter
       (fun c =>
          isin
            (target_segment_customer_ids ["champions"; "loyal_customers"]%string
               rfm)
            (master_id (profile c))
          && str_contains "KADIN" (interested_in_categories_12 c))
       df).

(** Case b: cant_loose, hibernating and new customers who shopped in
    ERKEK or COCUK. *)
Definition cust_ids (rfm : list FloRfm.segment_row) (df : list customer)
  : list string :=
  map (fun c => master_id (profile c))
    (filter
       (fun c =>
          isin
            (target_segment_customer_ids
               ["cant_loose"; "hibernating"; "new_customers"]%string rfm)
            (master_id (profile c))
          && (str_contains "ERKEK" (interested_in_categories_12 c)
              || str_contains "COCUK" (interested_in_categories_12 c)))
       df).

End FloTargets.

(** ** flo_clv.py: the sub-segments of segment A *)

Module FloSegments.

Import Pandas.
Open Scope Q_scope.

(** A row of [clv_df]: the customer, the predicted value and the segment. *)
Record row : Type := mkRow {
  customer_id : string;
  clv : Q;
  clv_segment : option string
}.

Fixpoint with_segments (clv_df : list (string * Q))
    (segs : list (option string)) : list row :=
  match clv_df, segs with
  | (c, v) :: clv_df', s :: segs' => mkRow c v s :: with_segments clv_df' segs'
  | _, _ => []
  end.

(** [clv_df["clv_segment"] = pd.qcut(clv_df["clv"], 4, labels=...)]. *)
Definition segmentation (clv_df : list (string * Q)) : result (list row) :=
  segs <- FloClv.clv_segment (map snd clv_df) ;;
  ret (with_segments clv_df segs).

Definition is_A (r : row) : bool :=
  match clv_segment r with
  | Some s => String.eqb s "A"
  | None => false
  end.

(** [clv_df[clv_df["clv_segment"] == "A"]]. *)
Definition segment_A (clv_df : list row) : list row := filter is_A clv_df.

(** [segment_A[["clv", "clv_sub_segment"]]] after the [pd.qcut] into two. *)
Definition sub_segments (segment_A : list row)
  : result (list (Q * option string)) :=
  subs <- qcut (map clv segment_A) 2 ["A2"; "A1"]%string ;;
  ret (combine (map clv segment_A) subs).

(** [clv_df.merge(right, on="clv", how="left")]: every row of [clv_df], in
    order, once per row of [right] with the same [clv]; once with a
    missing sub-segment when there is none. *)
Definition merge_left (clv_df : list row) (right : list (Q * option string))
  : list (row * option string) :=
  flat_map
    (fun l =>
       match filter (fun m => Qeq_bool (fst m) (clv l)) right with
       | [] => [(l, None)]
       | matches => map (fun m => (l, snd m)) matches
       end)
    clv_df.

(** The lambda of [clv_df.apply(..., axis=1)], then the drop of the
    temporary column. *)
Definition update_segment (lr : row * option string) : row :=
  if is_A (fst lr) then mkRow (customer_id (fst lr)) (clv (fst lr)) (snd lr)
  else fst lr.

Definition sub_segmentation (clv_df : list row) : result (list row) :=
  right <- sub_segments (segment_A clv_df) ;;
  ret (map update_segment (merge_left clv_df right)).

End FloSegments.

(** ** More vocabulary *)

(** The value at the fractional index [pos] of a sorted column, by linear
    interpolation between its two neighbours. *)
Definition interpolate (v : list Q) (pos : Q) : Q :=
  nth (Z.to_nat (Qfloor pos)) v 0
  + (nth (Z.to_nat (Qceiling pos)) v 0 - nth (Z.to_nat (Qfloor pos)) v 0)
    * (pos - inject_Z (Qfloor pos)).

(** No two positions of the column hold the same number. *)
Definition pairwise_distinct (l : list Q) : Prop :=
  ForallOrdPairs (fun a b => ~ a == b) l.

(** [w] is a whole number. *)
Definition is_whole (w : Q) : Prop := exists z : Z, w = inject_Z z.

(** The place of a label in a list of labels (the length when absent). *)
Fixpoint label_index (labels : list string) (s : string) : nat :=
  match labels with
  | [] => O
  | l :: labels' => if String.eqb l s then O else S (label_index labels' s)
  end.

(** The characters of an invoice id. *)
Definition has_char (c : ascii) (s : string) : Prop :=
  In c (list_ascii_of_string s).

(** ** More example tables *)

Module Scenarios.

Import Pandas.

(** [Examples.retail] and three more customers with one invoice each. *)
Definition five_customers : list OnlineRetail.row :=
  Examples.retail
  ++ [ OnlineRetail.mkRow "536380" (Some "PAN"%string) 3
         (datetime_of_day (Examples.d0 + 35)) 4 (Some 11%Z);
       OnlineRetail.mkRow "536381" (Some "PAN"%string) 1
         (datetime_of_day (Examples.d0 + 36)) 4 (Some 12%Z);
       OnlineRetail.mkRow "536382" (Some "LID"%string) 6
         (datetime_of_day (Examples.d0 + 37)) 2 (Some 13%Z) ].

(** The FLO customers with their categories. *)
Definition flo_profiles : list FloTargets.customer :=
  map
    (fun rc => FloTargets.mkCustomer (fst rc) (snd rc))
    (combine Examples.flo
       [ "[KADIN]"; "[ERKEK, COCUK]"; "[AKTIFSPOR, KADIN]"; "[ERKEK]";
         "[KADIN, COCUK]" ]%string).

(** The table that [flo_rfm.py] computes for the five FLO customers. *)
Definition flo_rfm : list FloRfm.segment_row :=
  Eval vm_compute in
    match FloRfm.create_rfm_at Flo.analysis_date Examples.flo with
    | inr rfm => rfm
    | inl _ => []
    end.

(** Eight predicted values, all different. *)
Definition predicted : list (string * Q) :=
  [ ("a", 80 # 1); ("b", 95 # 1); ("c", 138 # 1); ("d", 150 # 1);
    ("e", 199 # 1); ("f", 210 # 1); ("g", 362 # 1);
    ("h", 452 # 1) ]%string.

(** The same customers with their segments: g and h are in segment A. *)
Definition segmented : list FloSegments.row :=
  Eval vm_compute in
    match FloSegments.segmentation predicted with
    | inr t => t
    | inl _ => []
    end.

(** Four customers of segment A, two of them with the same predicted
    value. *)
Definition tied : list FloSegments.row :=
  [ FloSegments.mkRow "f" (210 # 1) (Some "B");
    FloSegments.mkRow "g" (300 # 1) (Some "A");
    FloSegments.mkRow "h" (300 # 1) (Some "A");
    FloSegments.mkRow "i" (400 # 1) (Some "A");
    FloSegments.mkRow "j" (500 # 1) (Some "A") ]%string.

End Scenarios.

(** ** The segment classifier *)

Section Classifier.

Import Pandas.

Lemma is_score_cases (n : Z) :
  is_score n -> n = 1%Z \/ n = 2%Z \/ n = 3%Z \/ n = 4%Z \/ n = 5%Z.
Proof. unfold is_score. lia. Qed.

(** The three tables hold the same ten patterns, in the same order. *)
Lemma seg_map_patterns_agree :
  map fst RfmAnalytics.seg_map = map fst FloRfm.seg_map
  /\ map fst RfmAnalytics.create_rfm_seg_map = map fst FloRfm.seg_map.
Proof. split; reflexivity. Qed.

(** Every pattern of the table is a well-formed expression. *)
Lemma seg_map_compiles :
  Forall (fun kv => Re.compile (fst kv) <> None) FloRfm.seg_map.
Proof. repeat constructor; discriminate. Qed.

Ltac each_score H :=
  destruct (is_score_cases _ H) as [-> | [-> | [-> | [-> | ->]]]].

(** C1: every two-digit score over 1..5 is matched by exactly one of the
    ten rules, in the script's table, in the table of [create_rfm] and in
    the FLO table; so the patterns cover the 25 scores and no score is
    claimed by two rules. *)
Theorem seg_map_exactly_one_rule (r f : Z) :
  is_score r -> is_score f ->
  List.length (matching_rules RfmAnalytics.seg_map (score_string r f)) = 1%nat
  /\ List.length
       (matching_rules RfmAnalytics.create_rfm_seg_map (score_string r f)) = 1%nat
  /\ List.length (matching_rules FloRfm.seg_map (score_string r f)) = 1%nat.
Proof.
  intros Hr Hf. each_score Hr; each_score Hf; vm_compute; auto.
Qed.

Lemma seg_map_exactly_one_rule_witness :
  List.length (matching_rules RfmAnalytics.seg_map (score_string 4 3)) = 1%nat
  /\ List.length
       (matching_rules RfmAnalytics.create_rfm_seg_map (score_string 4 3)) = 1%nat
  /\ List.length (matching_rules FloRfm.seg_map (score_string 4 3)) = 1%nat.
Proof.
  apply (seg_map_exactly_one_rule 4 3); unfold is_score; lia.
Defined.

(** The classifier returns the label of the one matching rule. *)
Lemma replace_regex_is_matching_label (r f : Z) :
  is_score r -> is_score f ->
  forall d, In d [RfmAnalytics.seg_map; RfmAnalytics.create_rfm_seg_map;
                  FloRfm.seg_map] ->
  map snd (matching_rules d (score_string r f))
  = [replace_regex d (score_string r f)].
Proof.
  intros Hr Hf d [<- | [<- | [<- | []]]];
    each_score Hr; each_score Hf; vm_compute; reflexivity.
Qed.

(** With the table of [create_rfm] in [rfm_analytics.py] every score gets
    a label of the specification's set. *)
Lemma create_rfm_seg_map_labels_in_spec_set (r f : Z) :
  is_score r -> is_score f ->
  In (replace_regex RfmAnalytics.create_rfm_seg_map (score_string r f))
    spec_segment_labels.
Proof.
  intros Hr Hf. each_score Hr; each_score Hf; vm_compute; tauto.
Qed.

(** The three scenario scores, in every table. *)
Lemma classifier_scenarios :
  forall d, In d [RfmAnalytics.seg_map; RfmAnalytics.create_rfm_seg_map;
                  FloRfm.seg_map] ->
  replace_regex d "55" = "champions"%string
  /\ replace_regex d "11" = "hibernating"%string
  /\ replace_regex d "33" = "need_attention"%string.
Proof.
  intros d [<- | [<- | [<- | []]]]; vm_compute; auto.
Qed.

(** C2: the tables of [flo_rfm.py] and the script's table of
    [rfm_analytics.py] label the scores 13, 14, 23 and 24 [at_Risk], which
    is not a label of the specification's set (it lists [at_risk], as the
    table of [create_rfm] in [rfm_analytics.py] does). *)
Theorem seg_map_at_Risk_outside_spec_set :
  replace_regex FloRfm.seg_map (score_string 1 3) = "at_Risk"%string
  /\ replace_regex RfmAnalytics.seg_map (score_string 1 3) = "at_Risk"%string
  /\ replace_regex RfmAnalytics.create_rfm_seg_map (score_string 1 3)
     = "at_risk"%string
  /\ ~ In "at_Risk"%string spec_segment_labels.
Proof.
  repeat split; try (vm_compute; reflexivity).
  intros H. repeat (destruct H as [H | H]; [discriminate H |]). exact H.
Qed.

End Classifier.

(** ** Grouping *)

Section Groupby.

Import Pandas.

Context {A : Type} (key : A -> option Z).

Implicit Types (gs : list (Z * list A)) (df g : list A) (k : Z) (a : A).

Lemma add_to_group_above k0 k a gs :
  (k0 < k)%Z -> Forall (fun kg => (k0 < fst kg)%Z) gs ->
  Forall (fun kg => (k0 < fst kg)%Z) (add_to_group k a gs).
Proof.
  intros Hk. induction gs as [| [k' g] gs IH]; simpl; intros Hall.
  - constructor; auto.
  - inversion Hall; subst.
    destruct (k <? k')%Z; [| destruct (k =? k')%Z]; constructor; auto.
Qed.

Lemma add_to_group_ascending k a gs :
  ascending gs -> ascending (add_to_group k a gs).
Proof.
  induction gs as [| [k' g] gs IH]; simpl.
  - intros _. split; [constructor | exact I].
  - intros [Hlow Hasc].
    destruct (k <? k')%Z eqn:Hlt; [| destruct (k =? k')%Z eqn:Heq]; simpl.
    + apply Z.ltb_lt in Hlt. split; [| split; assumption].
      constructor; [exact Hlt |].
      eapply Forall_impl; [| exact Hlow]. simpl. intros; lia.
    + split; assumption.
    + split; [| apply IH; exact Hasc].
      apply add_to_group_above; [| exact Hlow].
      apply Z.ltb_ge in Hlt. apply Z.eqb_neq in Heq. lia.
Qed.

Lemma assoc_above k gs :
  Forall (fun kg => (k < fst kg)%Z) gs -> assoc k gs = None.
Proof.
  induction gs as [| [k' g] gs IH]; simpl; intros Hall; [reflexivity |].
  inversion Hall; subst. simpl in *.
  destruct (k' =? k)%Z eqn:Heq; [apply Z.eqb_eq in Heq; lia | auto].
Qed.

Lemma assoc_add_to_group k' k a gs :
  ascending gs ->
  assoc k' (add_to_group k a gs)
  = if (k' =? k)%Z
    then Some match assoc k gs with Some g => g ++ [a] | None => [a] end
    else assoc k' gs.
Proof.
  induction gs as [| [k0 g0] gs IH]; simpl.
  - intros _. rewrite (Z.eqb_sym k k'). destruct (k' =? k)%Z; reflexivity.
  - intros [Hlow Hasc].
    destruct (k <? k0)%Z eqn:Hlt; [| destruct (k =? k0)%Z eqn:Heq]; simpl.
    + apply Z.ltb_lt in Hlt.
      rewrite (Z.eqb_sym k k').
      destruct (k' =? k)%Z eqn:Hk; [| reflexivity].
      apply Z.eqb_eq in Hk; subst k'.
      destruct (k0 =? k)%Z eqn:H0; [apply Z.eqb_eq in H0; lia |].
      rewrite assoc_above; [reflexivity |].
      eapply Forall_impl; [| exact Hlow]. simpl; intros; lia.
    + apply Z.eqb_eq in Heq; subst k0.
      rewrite (Z.eqb_sym k k'), Z.eqb_refl.
      destruct (k' =? k)%Z; reflexivity.
    + apply Z.eqb_neq in Heq.
      destruct (k0 =? k')%Z eqn:H0.
      * apply Z.eqb_eq in H0; subst k0.
        destruct (k' =? k)%Z eqn:Hk; [apply Z.eqb_eq in Hk; lia | reflexivity].
      * rewrite (IH Hasc).
        destruct (k' =? k)%Z eqn:Hk; [| reflexivity].
        apply Z.eqb_eq in Hk; subst k'.
        rewrite (Z.eqb_sym k0 k). destruct (k =? k0)%Z eqn:Hk0;
          [apply Z.eqb_eq in Hk0; lia | reflexivity].
Qed.

Lemma groupby_snoc df a :
  groupby key (df ++ [a])
  = match key a with
    | Some k => add_to_group k a (groupby key df)
    | None => groupby key df
    end.
Proof. unfold groupby. rewrite fold_left_app. reflexivity. Qed.

Lemma groupby_ascending df : ascending (groupby key df).
Proof.
  induction df as [| a df IH] using rev_ind; [exact I |].
  rewrite groupby_snoc. destruct (key a); [| exact IH].
  apply add_to_group_ascending, IH.
Qed.

Lemma rows_of_snoc k df a :
  rows_of key k (df ++ [a])
  = rows_of key k df
    ++ (if match key a with Some k' => (k' =? k)%Z | None => false end
        then [a] else []).
Proof.
  unfold rows_of. rewrite filter_app. simpl.
  destruct (match key a with Some k' => (k' =? k)%Z | None => false end);
    reflexivity.
Qed.

Lemma assoc_groupby k df :
  assoc k (groupby key df)
  = match rows_of key k df with [] => None | g => Some g end.
Proof.
  induction df as [| a df IH] using rev_ind; [reflexivity |].
  rewrite groupby_snoc, rows_of_snoc.
  destruct (key a) as [ka |].
  - rewrite assoc_add_to_group by apply groupby_ascending.
    rewrite (Z.eqb_sym ka k).
    destruct (k =? ka)%Z eqn:Hk.
    + apply Z.eqb_eq in Hk; subst ka. rewrite IH.
      destruct (rows_of key k df); reflexivity.
    + rewrite IH, app_nil_r. reflexivity.
  - rewrite IH, app_nil_r. reflexivity.
Qed.

Lemma In_assoc k g gs : ascending gs -> In (k, g) gs <-> assoc k gs = Some g.
Proof.
  induction gs as [| [k0 g0] gs IH]; simpl.
  - intros _. split; [tauto | discriminate].
  - intros [Hlow Hasc]. destruct (k0 =? k)%Z eqn:Hk.
    + apply Z.eqb_eq in Hk; subst k0. split.
      * intros [Heq | Hin]; [congruence |].
        rewrite Forall_forall in Hlow. apply Hlow in Hin. simpl in Hin. lia.
      * intros Heq. left. congruence.
    + apply Z.eqb_neq in Hk. rewrite <- (IH Hasc). split.
      * intros [Heq | Hin]; [congruence | exact Hin].
      * auto.
Qed.

(** The groups of [groupby]: one per key that occurs, holding the rows of
    that key in table order. *)
Lemma groupby_In k g df :
  In (k, g) (groupby key df) <-> g = rows_of key k df /\ g <> [].
Proof.
  rewrite (In_assoc k g _ (groupby_ascending df)), assoc_groupby.
  destruct (rows_of key k df) eqn:Hr; split.
  - discriminate.
  - intros [-> Hne]. congruence.
  - intros Heq. injection Heq as <-. split; [reflexivity | discriminate].
  - intros [-> _]. reflexivity.
Qed.

Lemma ascending_NoDup gs : ascending gs -> NoDup (map fst gs).
Proof.
  induction gs as [| [k g] gs IH]; simpl; [constructor |].
  intros [Hlow Hasc]. constructor; [| auto].
  rewrite in_map_iff. intros [[k' g'] [Heq Hin]]. simpl in Heq; subst k'.
  rewrite Forall_forall in Hlow. apply Hlow in Hin. simpl in Hin. lia.
Qed.

Lemma groupby_NoDup df : NoDup (map fst (groupby key df)).
Proof. apply ascending_NoDup, groupby_ascending. Qed.

End Groupby.

(** ** The metric aggregator *)

Section Aggregator.

Import Pandas OnlineRetail.
Open Scope Z_scope.

Lemma fold_left_max_spec (l : list Z) (x : Z) :
  (fold_left Z.max l x = x \/ In (fold_left Z.max l x) l)
  /\ x <= fold_left Z.max l x
  /\ forall y, In y l -> y <= fold_left Z.max l x.
Proof.
  revert x. induction l as [| a l IH]; simpl; intros x.
  - repeat split; [left; reflexivity | lia | tauto].
  - destruct (IH (Z.max x a)) as [Hin [Hge Hall]]. repeat split.
    + destruct Hin as [Heq | Hin]; [| right; right; exact Hin].
      rewrite Heq. destruct (Z.max_spec x a) as [[_ ->] | [_ ->]]; auto.
    + lia.
    + intros y [<- | Hy]; [lia | auto].
Qed.

Lemma fold_left_min_spec (l : list Z) (x : Z) :
  (fold_left Z.min l x = x \/ In (fold_left Z.min l x) l)
  /\ fold_left Z.min l x <= x
  /\ forall y, In y l -> fold_left Z.min l x <= y.
Proof.
  revert x. induction l as [| a l IH]; simpl; intros x.
  - repeat split; [left; reflexivity | lia | tauto].
  - destruct (IH (Z.min x a)) as [Hin [Hge Hall]]. repeat split.
    + destruct Hin as [Heq | Hin]; [| right; right; exact Hin].
      rewrite Heq. destruct (Z.min_spec x a) as [[_ ->] | [_ ->]]; auto.
    + lia.
    + intros y [<- | Hy]; [lia | auto].
Qed.

(** [Series.max] returns an element that bounds the column from above. *)
Lemma series_max_spec (l : list Z) :
  l <> [] -> In (series_max l) l /\ forall y, In y l -> y <= series_max l.
Proof.
  destruct l as [| x l]; [congruence | intros _]. simpl.
  destruct (fold_left_max_spec l x) as [Hin [Hge Hall]]. split.
  - destruct Hin as [-> | Hin]; auto.
  - intros y [<- | Hy]; auto.
Qed.

Lemma series_min_spec (l : list Z) :
  l <> [] -> In (series_min l) l /\ forall y, In y l -> series_min l <= y.
Proof.
  destruct l as [| x l]; [congruence | intros _]. simpl.
  destruct (fold_left_min_spec l x) as [Hin [Hge Hall]]. split.
  - destruct Hin as [-> | Hin]; auto.
  - intros y [<- | Hy]; auto.
Qed.

Lemma series_max_latest (rows : list row) :
  rows <> [] -> is_latest (series_max (map InvoiceDate rows)) rows.
Proof.
  intros Hne.
  destruct (series_max_spec (map InvoiceDate rows)) as [Hin Hall].
  { destruct rows; [congruence | discriminate]. }
  split.
  - apply in_map_iff in Hin. destruct Hin as [r [Hr Hin]]. eauto.
  - intros r Hr. apply Hall, in_map, Hr.
Qed.

Lemma series_min_earliest (rows : list row) :
  rows <> [] -> is_earliest (series_min (map InvoiceDate rows)) rows.
Proof.
  intros Hne.
  destruct (series_min_spec (map InvoiceDate rows)) as [Hin Hall].
  { destruct rows; [congruence | discriminate]. }
  split.
  - apply in_map_iff in Hin. destruct Hin as [r [Hr Hin]]. eauto.
  - intros r Hr. apply Hall, in_map, Hr.
Qed.

(** [Timedelta.days] counts the whole days of the difference. *)
Lemma days_whole (later earlier : Z) :
  whole_days (days later earlier) earlier later.
Proof.
  unfold whole_days, days, seconds_per_day.
  pose proof (Z.div_mod (later - earlier) 86400 ltac:(lia)) as Hdm.
  pose proof (Z.mod_pos_bound (later - earlier) 86400 ltac:(lia)) as Hb.
  lia.
Qed.

Lemma whole_days_unique (d d' a b : Z) :
  whole_days d a b -> whole_days d' a b -> d = d'.
Proof. unfold whole_days. lia. Qed.

Lemma days_monotone (a b c : Z) : a <= b -> days a c <= days b c.
Proof.
  intros H. unfold days, seconds_per_day.
  apply Z.div_le_mono; lia.
Qed.

(** [Series.nunique] counts the distinct invoice ids. *)
Lemma nunique_distinct (rows : list row) :
  distinct_invoices (nunique (map Invoice rows)) rows.
Proof.
  exists (nodup string_dec (map Invoice rows)). repeat split.
  - apply NoDup_nodup.
  - intros Hin. apply nodup_In, in_map_iff in Hin.
    destruct Hin as [r [Hr Hin]]. eauto.
  - intros [r [Hin Hr]]. apply nodup_In, in_map_iff. eauto.
Qed.

Lemma distinct_invoices_unique (n n' : Z) (rows : list row) :
  distinct_invoices n rows -> distinct_invoices n' rows -> n = n'.
Proof.
  intros [ids [Hnd [Hids ->]]] [ids' [Hnd' [Hids' ->]]].
  f_equal. apply Nat.le_antisymm; apply NoDup_incl_length; auto;
    intros i Hi; [apply Hids', Hids, Hi | apply Hids, Hids', Hi].
Qed.

Lemma nunique_positive (l : list string) : l <> [] -> 1 <= nunique l.
Proof.
  intros Hne. unfold nunique.
  destruct l as [| x l]; [congruence |].
  assert (Hin : In x (nodup string_dec (x :: l))) by (apply nodup_In; left; reflexivity).
  destruct (nodup string_dec (x :: l)); [destruct Hin | simpl; lia].
Qed.

Open Scope Q_scope.

Lemma fold_left_Qplus (l : list Q) (acc : Q) :
  fold_left Qplus l acc == acc + fold_right Qplus 0 l.
Proof.
  revert acc. induction l as [| x l IH]; simpl; intros acc.
  - ring.
  - rewrite IH. ring.
Qed.

(** [Series.sum] of the [TotalPrice] column is the customer's spend. *)
Lemma series_sum_total_spend (rows : list row) :
  series_sum (map TotalPrice rows) == total_spend rows.
Proof.
  unfold series_sum. rewrite fold_left_Qplus.
  induction rows as [| r rows IH]; simpl; [ring |].
  unfold TotalPrice at 1. rewrite Qplus_0_l in *. rewrite IH. reflexivity.
Qed.

End Aggregator.

Section AggregatorModes.

Import Pandas OnlineRetail.

Lemma customer_group (c : Z) (df : list row) :
  customer_rows c df <> [] ->
  In (c, customer_rows c df) (groupby CustomerID df).
Proof. intros Hne. apply groupby_In. split; [reflexivity | exact Hne]. Qed.

(** The table of the aggregation holds one record per customer. *)
Lemma rfm_metrics_one_per_customer (today : Z) (df : list row) :
  NoDup (map RfmAnalytics.customer_id (RfmAnalytics.rfm_metrics today df)).
Proof.
  unfold RfmAnalytics.rfm_metrics. rewrite map_map. simpl.
  apply groupby_NoDup.
Qed.

Lemma aggregate_one_per_customer (today : Z) (df : list row) :
  NoDup (map ClvPrediction.agg_customer (ClvPrediction.aggregate today df)).
Proof.
  unfold ClvPrediction.aggregate. rewrite map_map. simpl.
  apply groupby_NoDup.
Qed.

(** The customer scenario of the specification: three purchases, the last
    one two days before the analysis date. *)
Example customer_42_metrics :
  exists m,
    RfmAnalytics.rfm_metrics Examples.retail_today
      (RfmAnalytics.data_preparation Examples.customer_42) = [m]
    /\ RfmAnalytics.customer_id m = 42%Z
    /\ RfmAnalytics.recency m = 2%Z
    /\ RfmAnalytics.frequency m = 3%Z
    /\ RfmAnalytics.monetary m == 23.
Proof.
  eexists. split; [vm_compute; reflexivity |].
  repeat split.
Qed.

(** C3: for a customer with at least one row in the cleaned table, the
    RFM aggregation gives the whole days from the latest purchase to the
    analysis date, the number of distinct invoices and the total of
    quantity times price; the CLV aggregation gives the whole days from
    the first to the last purchase, the whole days from the first purchase
    to the analysis date, the same invoice count and the total divided by
    it; and the record handed to the estimators (kept when the count
    exceeds one) carries the two day counts divided by 7. *)
Theorem metric_aggregator_fields (today : Z) (df : list row) (c : Z) :
  customer_rows c df <> [] ->
  exists last first d_last d_span d_T n,
    is_latest last (customer_rows c df)
    /\ is_earliest first (customer_rows c df)
    /\ whole_days d_last last today
    /\ whole_days d_span first last
    /\ whole_days d_T first today
    /\ distinct_invoices n (customer_rows c df)
    /\ (exists m,
          In m (RfmAnalytics.rfm_metrics today df)
          /\ RfmAnalytics.customer_id m = c
          /\ RfmAnalytics.recency m = d_last
          /\ RfmAnalytics.frequency m = n
          /\ RfmAnalytics.monetary m == total_spend (customer_rows c df))
    /\ (exists a,
          In a (map ClvPrediction.monetary_per_transaction
                  (ClvPrediction.aggregate today df))
          /\ ClvPrediction.agg_customer a = c
          /\ ClvPrediction.agg_recency a = d_span
          /\ ClvPrediction.agg_T a = d_T
          /\ ClvPrediction.agg_frequency a = n
          /\ ClvPrediction.agg_monetary a
             == total_spend (customer_rows c df) / inject_Z n)
    /\ ((1 < n)%Z ->
        exists r,
          In r (ClvPrediction.clv_df_of_rows today df)
          /\ ClvPrediction.customer_id r = c
          /\ ClvPrediction.recency r == inject_Z d_span / 7
          /\ ClvPrediction.T r == inject_Z d_T / 7
          /\ ClvPrediction.frequency r = n
          /\ ClvPrediction.monetary r
             == total_spend (customer_rows c df) / inject_Z n).
Proof.
  intros Hne.
  set (rows := customer_rows c df) in *.
  pose proof (customer_group c df Hne) as Hgroup. fold rows in Hgroup.
  set (dates := map InvoiceDate rows).
  exists (series_max dates), (series_min dates),
    (days today (series_max dates)),
    (days (series_max dates) (series_min dates)),
    (days today (series_min dates)), (nunique (map Invoice rows)).
  split; [apply series_max_latest, Hne |].
  split; [apply series_min_earliest, Hne |].
  split; [apply days_whole |].
  split; [apply days_whole |].
  split; [apply days_whole |].
  split; [apply nunique_distinct |].
  assert (Hagg :
    In (ClvPrediction.monetary_per_transaction
          (ClvPrediction.mkAgg c
             (days (series_max dates) (series_min dates))
             (days today (series_min dates)) (nunique (map Invoice rows))
             (series_sum (map TotalPrice rows))))
       (map ClvPrediction.monetary_per_transaction
          (ClvPrediction.aggregate today df))).
  { apply in_map. unfold ClvPrediction.aggregate.
    apply in_map_iff. exists (c, rows). split; [reflexivity | exact Hgroup]. }
  split; [| split].
  - eexists. split.
    + unfold RfmAnalytics.rfm_metrics. apply in_map_iff.
      exists (c, rows). split; [reflexivity | exact Hgroup].
    + simpl. repeat split. unfold RfmAnalytics.agg_monetary.
      apply series_sum_total_spend.
  - eexists. split; [exact Hagg |].
    simpl. repeat split. rewrite series_sum_total_spend. reflexivity.
  - intros Hfreq. eexists. split.
    + unfold ClvPrediction.clv_df_of_rows. apply in_map.
      unfold ClvPrediction.repeat_customers. apply filter_In.
      split; [exact Hagg |]. simpl. apply Z.ltb_lt, Hfreq.
    + simpl. repeat split; try reflexivity.
      rewrite series_sum_total_spend. reflexivity.
Qed.

Lemma metric_aggregator_fields_witness :
  exists last first d_last d_span d_T n,
    is_latest last (customer_rows 42 Examples.retail)
    /\ is_earliest first (customer_rows 42 Examples.retail)
    /\ whole_days d_last last Examples.retail_today
    /\ whole_days d_span first last
    /\ whole_days d_T first Examples.retail_today
    /\ distinct_invoices n (customer_rows 42 Examples.retail)
    /\ (exists m,
          In m (RfmAnalytics.rfm_metrics Examples.retail_today
                  Examples.retail)
          /\ RfmAnalytics.customer_id m = 42%Z
          /\ RfmAnalytics.recency m = d_last
          /\ RfmAnalytics.frequency m = n
          /\ RfmAnalytics.monetary m
             == total_spend (customer_rows 42 Examples.retail))
    /\ (exists a,
          In a (map ClvPrediction.monetary_per_transaction
                  (ClvPrediction.aggregate Examples.retail_today
                     Examples.retail))
          /\ ClvPrediction.agg_customer a = 42%Z
          /\ ClvPrediction.agg_recency a = d_span
          /\ ClvPrediction.agg_T a = d_T
          /\ ClvPrediction.agg_frequency a = n
          /\ ClvPrediction.agg_monetary a
             == total_spend (customer_rows 42 Examples.retail) / inject_Z n)
    /\ ((1 < n)%Z ->
        exists r,
          In r (ClvPrediction.clv_df_of_rows Examples.retail_today
                  Examples.retail)
          /\ ClvPrediction.customer_id r = 42%Z
          /\ ClvPrediction.recency r == inject_Z d_span / 7
          /\ ClvPrediction.T r == inject_Z d_T / 7
          /\ ClvPrediction.frequency r = n
          /\ ClvPrediction.monetary r
             == total_spend (customer_rows 42 Examples.retail) / inject_Z n).
Proof.
  apply (metric_aggregator_fields Examples.retail_today Examples.retail 42).
  vm_compute. discriminate.
Defined.

End AggregatorModes.

(** ** Row assignments keep the other columns *)

Section LocSet.

Import Pandas.

Context {A B : Type} (proj : A -> B).

Lemma loc_set_length (mask : list bool) (upd : A -> A) (df : list A) :
  List.length (loc_set mask upd df) = List.length df.
Proof.
  revert mask. induction df as [| r df IH]; intros [| m mask]; simpl; auto.
Qed.

Lemma loc_set_keeps (mask : list bool) (upd : A -> A) (df : list A) :
  (forall r, proj (upd r) = proj r) ->
  map proj (loc_set mask upd df) = map proj df.
Proof.
  intros Hupd. revert mask.
  induction df as [| r df IH]; intros [| m mask]; simpl; auto.
  rewrite IH. destruct m; [rewrite Hupd |]; reflexivity.
Qed.

(** Under a mask computed from the rows, [loc_set] is a row-wise map. *)
Lemma loc_set_map (p : A -> bool) (upd : A -> A) (df : list A) :
  loc_set (map p df) upd df = map (fun r => if p r then upd r else r) df.
Proof. induction df as [| r df IH]; simpl; [| rewrite IH]; reflexivity. Qed.

End LocSet.

(** ** T is at least recency *)

Section TRecency.

Import Pandas.

Lemma clv_thresholds_keep {A B : Type} (proj : A -> B) (get : A -> Q)
    (set : Q -> A -> A) (df : list A) :
  (forall v r, proj (set v r) = proj r) ->
  map proj (ClvPrediction.replace_with_thresholds get set df) = map proj df.
Proof.
  intros Hset. unfold ClvPrediction.replace_with_thresholds.
  destruct (ClvPrediction.outlier_thresholds (map get df)) as [low up].
  apply loc_set_keeps. intros r. apply Hset.
Qed.

Lemma flo_thresholds_keep {A B : Type} (proj : A -> B) (get : A -> Q)
    (set : Q -> A -> A) (df : list A) :
  (forall v r, proj (set v r) = proj r) ->
  map proj (FloClv.replace_with_thresholds get set df) = map proj df.
Proof.
  intros Hset. unfold FloClv.replace_with_thresholds.
  destruct (FloClv.outlier_thresholds (map get df)) as [low up].
  rewrite loc_set_keeps by (intros r; apply Hset).
  apply loc_set_keeps. intros r. apply Hset.
Qed.

(** The thresholds of [clv_prediction.py] touch [Quantity] and [Price]
    only. *)
Lemma data_preparation_keeps {B : Type} (proj : OnlineRetail.row -> B)
    (df : list OnlineRetail.row) :
  (forall v r, proj (OnlineRetail.set_Quantity v r) = proj r) ->
  (forall v r, proj (OnlineRetail.set_Price v r) = proj r) ->
  map proj (ClvPrediction.data_preparation df)
  = map proj (ClvPrediction.valid_rows df).
Proof.
  intros Hq Hp. unfold ClvPrediction.data_preparation.
  rewrite (clv_thresholds_keep proj _ _ _ Hp).
  rewrite (clv_thresholds_keep proj _ _ _ Hq).
  reflexivity.
Qed.

Lemma valid_rows_incl (df : list OnlineRetail.row) (r : OnlineRetail.row) :
  In r (ClvPrediction.valid_rows df) -> In r df.
Proof.
  unfold ClvPrediction.valid_rows, OnlineRetail.drop_cancellations,
    OnlineRetail.dropna.
  intros H. repeat (apply filter_In in H; destruct H as [H _]). exact H.
Qed.

(** The thresholds of [flo_clv.py] leave the two dates alone. *)
Lemma clip_columns_dates (df : list Flo.row) :
  map (fun r => (Flo.first_order_date r, Flo.last_order_date r))
    (FloClv.clip_columns df)
  = map (fun r => (Flo.first_order_date r, Flo.last_order_date r)) df.
Proof.
  unfold FloClv.clip_columns.
  repeat (rewrite flo_thresholds_keep by reflexivity). reflexivity.
Qed.

Lemma weeks_monotone (a b : Z) :
  (a <= b)%Z -> inject_Z a / 7 <= inject_Z b / 7.
Proof.
  intros H. unfold Qle, Qdiv, Qmult, Qinv, inject_Z. simpl. lia.
Qed.

Lemma days_span_le (today first last : Z) :
  (last <= today)%Z -> (days last first <= days today first)%Z.
Proof. apply days_monotone. Qed.

(** Every record of the aggregation spans less than its age. *)
Lemma aggregate_span_le_age (today : Z) (df : list OnlineRetail.row)
    (a : ClvPrediction.agg_row) :
  (forall r, In r df -> (OnlineRetail.InvoiceDate r <= today)%Z) ->
  In a (ClvPrediction.aggregate today df) ->
  (ClvPrediction.agg_recency a <= ClvPrediction.agg_T a)%Z.
Proof.
  intros Hdates Hin. unfold ClvPrediction.aggregate in Hin.
  apply in_map_iff in Hin. destruct Hin as [[k g] [<- Hg]]. simpl.
  apply groupby_In in Hg. destruct Hg as [Hg Hne].
  apply days_span_le.
  destruct (series_max_spec (map OnlineRetail.InvoiceDate g)) as [Hmax _].
  { destruct g; [congruence | discriminate]. }
  apply in_map_iff in Hmax. destruct Hmax as [r [<- Hr]].
  apply Hdates. rewrite Hg in Hr. unfold rows_of in Hr.
  apply filter_In in Hr. tauto.
Qed.

(** C6: when no purchase is later than the analysis date, every record
    handed to the estimators has [T] at least [recency]: in
    [clv_prediction.py], in the script body of [flo_clv.py] and in its
    [create_clv_df]. *)
Theorem clv_T_at_least_recency (today : Z) (df : list OnlineRetail.row)
    (customers : list Flo.row) :
  (forall r, In r df -> (OnlineRetail.InvoiceDate r <= today)%Z) ->
  (forall r, In r customers -> (Flo.last_order_date r <= today)%Z) ->
  (forall rec, In rec (ClvPrediction.clv_df_at today df) ->
     ClvPrediction.recency rec <= ClvPrediction.T rec)
  /\ (forall rec, In rec (FloClv.script_clv_df_at today customers) ->
        FloClv.recency_clv_weekly rec <= FloClv.T_weekly rec)
  /\ (forall rec, In rec (FloClv.create_clv_df_at today customers) ->
        FloClv.recency_clv_weekly rec <= FloClv.T_weekly rec).
Proof.
  intros Hdf Hflo.
  assert (Hparams : forall l rec,
    (forall r, In r l -> (Flo.last_order_date r <= today)%Z) ->
    In rec (FloClv.clv_parameters today l) ->
    FloClv.recency_clv_weekly rec <= FloClv.T_weekly rec).
  { intros l rec Hl Hin. unfold FloClv.clv_parameters in Hin.
    apply in_map_iff in Hin. destruct Hin as [r [<- Hr]]. simpl.
    apply weeks_monotone, days_span_le, Hl, Hr. }
  assert (Hclip : forall r, In r (FloClv.clip_columns customers) ->
    (Flo.last_order_date r <= today)%Z).
  { intros r Hr.
    apply (in_map (fun r => (Flo.first_order_date r, Flo.last_order_date r)))
      in Hr.
    rewrite clip_columns_dates in Hr. apply in_map_iff in Hr.
    destruct Hr as [r0 [Heq Hr0]]. injection Heq as _ Hlast.
    rewrite <- Hlast. apply Hflo, Hr0. }
  repeat split.
  - intros rec Hin.
    unfold ClvPrediction.clv_df_at, ClvPrediction.clv_df_of_rows in Hin.
    apply in_map_iff in Hin. destruct Hin as [a [<- Ha]]. simpl.
    unfold ClvPrediction.repeat_customers in Ha.
    apply filter_In in Ha. destruct Ha as [Ha _].
    apply in_map_iff in Ha. destruct Ha as [a0 [<- Ha0]]. simpl.
    apply weeks_monotone.
    apply (aggregate_span_le_age today (ClvPrediction.data_preparation df));
      [| exact Ha0].
    intros r Hr. apply (in_map OnlineRetail.InvoiceDate) in Hr.
    rewrite data_preparation_keeps in Hr by reflexivity.
    apply in_map_iff in Hr. destruct Hr as [r0 [<- Hr0]].
    apply Hdf, valid_rows_incl, Hr0.
  - intros rec Hin. unfold FloClv.script_clv_df_at in Hin.
    apply (Hparams _ _ Hclip Hin).
  - intros rec Hin. unfold FloClv.create_clv_df_at in Hin.
    apply filter_In in Hin. destruct Hin as [Hin _].
    refine (Hparams _ _ _ Hin).
    intros r Hr. unfold FloClv.exclusion_filter in Hr.
    apply filter_In in Hr. apply Hclip. tauto.
Qed.

Lemma clv_T_at_least_recency_witness :
  (forall rec,
     In rec (ClvPrediction.clv_df_at Flo.analysis_date Examples.retail) ->
     ClvPrediction.recency rec <= ClvPrediction.T rec)
  /\ (forall rec,
        In rec (FloClv.script_clv_df_at Flo.analysis_date Examples.flo) ->
        FloClv.recency_clv_weekly rec <= FloClv.T_weekly rec)
  /\ (forall rec,
        In rec (FloClv.create_clv_df_at Flo.analysis_date Examples.flo) ->
        FloClv.recency_clv_weekly rec <= FloClv.T_weekly rec).
Proof.
  apply (clv_T_at_least_recency Flo.analysis_date Examples.retail
           Examples.flo).
  - intros r Hr. vm_compute in Hr.
    repeat (destruct Hr as [<- | Hr]; [vm_compute; discriminate |]).
    destruct Hr.
  - intros r Hr. vm_compute in Hr.
    repeat (destruct Hr as [<- | Hr]; [vm_compute; discriminate |]).
    destruct Hr.
Defined.

End TRecency.

(** ** Filters of the pipelines *)

Section Filters.

Import Pandas.

Lemma Qlt_bool_iff (x y : Q) : Qlt_bool x y = true <-> x < y.
Proof.
  unfold Qlt_bool. rewrite negb_true_iff. split.
  - intros H. apply Qnot_le_lt. intros Hle.
    apply Qle_bool_iff in Hle. congruence.
  - intros H. destruct (Qle_bool y x) eqn:Hle; [| reflexivity].
    apply Qle_bool_iff in Hle. exfalso. apply (Qlt_not_le _ _ H Hle).
Qed.

Lemma Qlt_bool_false_iff (x y : Q) : Qlt_bool x y = false <-> y <= x.
Proof.
  unfold Qlt_bool. rewrite negb_false_iff. apply Qle_bool_iff.
Qed.

Lemma NoDup_map_injective {A B : Type} (f : A -> B) (l : list A) (a b : A) :
  NoDup (map f l) -> In a l -> In b l -> f a = f b -> a = b.
Proof.
  induction l as [| x l IH]; simpl; [tauto |].
  intros Hnd Ha Hb Hf. inversion Hnd as [| ? ? Hx Hnd']; subst.
  destruct Ha as [-> | Ha]; destruct Hb as [-> | Hb]; auto.
  - exfalso. apply Hx. rewrite Hf. apply in_map, Hb.
  - exfalso. apply Hx. rewrite <- Hf. apply in_map, Ha.
Qed.

(** [pd.qcut] labels every row of its column. *)
Lemma qcut_length {L : Type} (x : list Q) (q : nat) (labels : list L)
    (out : list (option L)) :
  qcut x q labels = inr out -> List.length out = List.length x.
Proof.
  unfold qcut, bins_to_cuts, ret.
  destruct (_ && _); [discriminate |].
  destruct (negb _); [discriminate |].
  intros H. injection H as <-. apply length_map.
Qed.

Lemma rank_first_length (col : list Q) :
  List.length (rank_first col) = List.length col.
Proof. unfold rank_first. rewrite length_map, length_seq. reflexivity. Qed.

End Filters.

(** ** The table returned by [create_rfm] of [rfm_analytics.py] *)

Section CreateRfm.

Import Pandas OnlineRetail RfmAnalytics.

Lemma zip_scores_metrics (rfm : list rfm_row) (rs fs ms : list (option Z)) :
  List.length rs = List.length rfm ->
  List.length fs = List.length rfm ->
  List.length ms = List.length rfm ->
  map metrics (zip_scores rfm rs fs ms) = rfm.
Proof.
  revert rs fs ms.
  induction rfm as [| x rfm IH]; intros [| r rs] [| f fs] [| m ms];
    simpl; try discriminate; auto.
  intros Hr Hf Hm. f_equal. apply IH; lia.
Qed.

(** Scoring keeps the rows of the metric table, in order. *)
Lemma rfm_scores_metrics (rfm : list rfm_row) (scored : list scored_row) :
  rfm_scores rfm = inr scored -> map metrics scored = rfm.
Proof.
  unfold rfm_scores, bind, ret.
  destruct (qcut _ 5 recency_labels) as [e | rs] eqn:Hrs; [discriminate |].
  destruct (qcut (rank_first _) 5 value_labels) as [e | fs] eqn:Hfs;
    [discriminate |].
  destruct (qcut (map monetary rfm) 5 value_labels) as [e | ms] eqn:Hms;
    [discriminate |].
  intros H. injection H as <-.
  apply qcut_length in Hrs, Hfs, Hms.
  rewrite rank_first_length in Hfs. rewrite length_map in *.
  apply zip_scores_metrics; assumption.
Qed.

Lemma segmentation_metrics (d : list (string * string))
    (scored : list scored_row) :
  map seg_metrics (segmentation d scored) = map metrics scored.
Proof. unfold segmentation. rewrite map_map. reflexivity. Qed.

(** The metric part of the returned table is the aggregation restricted
    to positive totals. *)
Lemma create_rfm_at_metrics (today : Z) (df : list row)
    (out : list segment_row) :
  create_rfm_at today df = inr out ->
  map seg_metrics out
  = positive_monetary (rfm_metrics today (data_preparation df)).
Proof.
  unfold create_rfm_at, bind, ret.
  destruct (rfm_scores _) as [e | scored] eqn:Hs; [discriminate |].
  intros H. injection H as <-.
  rewrite segmentation_metrics. apply rfm_scores_metrics, Hs.
Qed.

(** C10: in the table returned by [create_rfm] every customer has a
    strictly positive [monetary]; the customers of the aggregation with a
    positive total are all there, and a customer whose total is zero or
    negative is not. *)
Theorem create_rfm_monetary_positive (today : Z) (df : list row)
    (out : list segment_row) :
  create_rfm_at today df = inr out ->
  (forall r, In r out -> 0 < monetary (seg_metrics r))
  /\ (forall m, In m (rfm_metrics today (data_preparation df)) ->
        0 < monetary m -> exists r, In r out /\ seg_metrics r = m)
  /\ (forall m, In m (rfm_metrics today (data_preparation df)) ->
        monetary m <= 0 ->
        ~ exists r, In r out
                    /\ customer_id (seg_metrics r) = customer_id m).
Proof.
  intros Hout. pose proof (create_rfm_at_metrics _ _ _ Hout) as Hmap.
  assert (Hin : forall r, In r out ->
    In (seg_metrics r) (rfm_metrics today (data_preparation df))
    /\ 0 < monetary (seg_metrics r)).
  { intros r Hr. apply (in_map seg_metrics) in Hr. rewrite Hmap in Hr.
    unfold positive_monetary in Hr. apply filter_In in Hr.
    rewrite Qlt_bool_iff in Hr. exact Hr. }
  repeat split.
  - intros r Hr. apply Hin, Hr.
  - intros m Hm Hpos.
    assert (Hm' : In m (map seg_metrics out)).
    { rewrite Hmap. unfold positive_monetary. apply filter_In.
      rewrite Qlt_bool_iff. auto. }
    apply in_map_iff in Hm'. destruct Hm' as [r [Hr Hr']]. eauto.
  - intros m Hm Hle [r [Hr Hid]].
    destruct (Hin r Hr) as [Hr' Hpos].
    assert (Heq : seg_metrics r = m).
    { apply (NoDup_map_injective customer_id _ _ _
               (rfm_metrics_one_per_customer today (data_preparation df)));
        assumption. }
    rewrite Heq in Hpos. apply (Qlt_not_le _ _ Hpos Hle).
Qed.

(** The script body applies the same filter to its own metric table. *)
Lemma script_rfm_monetary_positive (df : list row) (out : list segment_row)
    (r : segment_row) :
  script_rfm df = inr out -> In r out -> 0 < monetary (seg_metrics r).
Proof.
  unfold script_rfm, bind, ret.
  destruct (rfm_scores _) as [e | scored] eqn:Hs; [discriminate |].
  intros H Hr. injection H as <-.
  apply (in_map seg_metrics) in Hr.
  rewrite segmentation_metrics, (rfm_scores_metrics _ _ Hs) in Hr.
  unfold positive_monetary in Hr. apply filter_In in Hr.
  apply Qlt_bool_iff. tauto.
Qed.

(** On the example table the function returns: customer 9, whose only
    line is negative, is gone; customer 7, with one invoice, is there. *)
Lemma create_rfm_at_example :
  create_rfm_at Examples.retail_today Examples.retail
  = inr [ mkSegment (mkRfm 7 12 1 (20 # 2)) "hibernating";
          mkSegment (mkRfm 42 2 3 (46 # 2)) "champions" ].
Proof. vm_compute. reflexivity. Qed.

Lemma create_rfm_monetary_positive_witness :
  (forall r,
     In r [ mkSegment (mkRfm 7 12 1 (20 # 2)) "hibernating";
            mkSegment (mkRfm 42 2 3 (46 # 2)) "champions" ] ->
     0 < monetary (seg_metrics r))
  /\ (forall m,
        In m (rfm_metrics Examples.retail_today
                (data_preparation Examples.retail)) ->
        0 < monetary m ->
        exists r,
          In r [ mkSegment (mkRfm 7 12 1 (20 # 2)) "hibernating";
                 mkSegment (mkRfm 42 2 3 (46 # 2)) "champions" ]
          /\ seg_metrics r = m)
  /\ (forall m,
        In m (rfm_metrics Examples.retail_today
                (data_preparation Examples.retail)) ->
        monetary m <= 0 ->
        ~ exists r,
            In r [ mkSegment (mkRfm 7 12 1 (20 # 2)) "hibernating";
                   mkSegment (mkRfm 42 2 3 (46 # 2)) "champions" ]
            /\ customer_id (seg_metrics r) = customer_id m).
Proof.
  apply (create_rfm_monetary_positive Examples.retail_today Examples.retail).
  vm_compute. reflexivity.
Defined.

End CreateRfm.

(** ** Cleaning before the aggregation *)

Section Cleaning.

Import Pandas OnlineRetail.

(** An invoice id that starts with the marker contains it. *)
Lemma cancellation_contains_marker (r : row) :
  is_cancellation r -> str_contains "C" (Invoice r) = true.
Proof.
  unfold is_cancellation, str_contains, Re.search.
  destruct (Invoice r) as [| c s]; intros H; [discriminate H |].
  assert (Hc : c = "C"%char).
  { cbn [prefix] in H.
    destruct (ascii_dec "C" c) as [<- | Hne]; [reflexivity | discriminate H]. }
  subst c. reflexivity.
Qed.

Lemma dropna_In (df : list row) (r : row) :
  In r (dropna df) <-> In r df /\ is_complete r.
Proof.
  unfold dropna, is_complete. rewrite filter_In.
  destruct (Description r), (CustomerID r); intuition congruence.
Qed.

Lemma drop_cancellations_In (df : list row) (r : row) :
  In r (drop_cancellations df)
  <-> In r df /\ str_contains "C" (Invoice r) = false.
Proof.
  unfold drop_cancellations. rewrite filter_In, negb_true_iff. tauto.
Qed.

(** C7 (as the code has it): the CLV pipeline of [clv_prediction.py]
    aggregates the complete lines without the marker and with positive
    quantity and price (the thresholds then change no line's identity);
    [create_rfm] of [rfm_analytics.py] aggregates every complete line
    without the marker, whatever its quantity and price; [clv.py] also
    asks for a positive quantity; and a cancellation is never kept. *)
Theorem cleaning_before_aggregation (df : list row) (r : row) :
  (In r (ClvPrediction.valid_rows df)
   <-> In r df /\ is_complete r /\ str_contains "C" (Invoice r) = false
       /\ 0 < Quantity r /\ 0 < Price r)
  /\ map line_identity (ClvPrediction.data_preparation df)
     = map line_identity (ClvPrediction.valid_rows df)
  /\ (In r (RfmAnalytics.data_preparation df)
      <-> In r df /\ is_complete r /\ str_contains "C" (Invoice r) = false)
  /\ (In r (Clv.data_preparation df)
      <-> In r df /\ is_complete r /\ str_contains "C" (Invoice r) = false
          /\ 0 < Quantity r)
  /\ (is_cancellation r ->
      ~ In r (ClvPrediction.valid_rows df)
      /\ ~ In r (RfmAnalytics.data_preparation df)
      /\ ~ In r (Clv.data_preparation df)).
Proof.
  assert (Hclv : In r (ClvPrediction.valid_rows df)
    <-> In r df /\ is_complete r /\ str_contains "C" (Invoice r) = false
        /\ 0 < Quantity r /\ 0 < Price r).
  { unfold ClvPrediction.valid_rows.
    rewrite !filter_In, drop_cancellations_In, dropna_In, !Qlt_bool_iff.
    tauto. }
  assert (Hrfm : In r (RfmAnalytics.data_preparation df)
    <-> In r df /\ is_complete r /\ str_contains "C" (Invoice r) = false).
  { unfold RfmAnalytics.data_preparation.
    rewrite drop_cancellations_In, dropna_In. tauto. }
  assert (Hc : In r (Clv.data_preparation df)
    <-> In r df /\ is_complete r /\ str_contains "C" (Invoice r) = false
        /\ 0 < Quantity r).
  { unfold Clv.data_preparation.
    rewrite dropna_In, filter_In, drop_cancellations_In, Qlt_bool_iff.
    tauto. }
  split; [exact Hclv |].
  split; [apply data_preparation_keeps; reflexivity |].
  split; [exact Hrfm |].
  split; [exact Hc |].
  intros Hcancel. apply cancellation_contains_marker in Hcancel.
  rewrite Hclv, Hrfm, Hc. repeat split; intros H; intuition congruence.
Qed.

(** [create_rfm] of [rfm_analytics.py] aggregates a line with a negative
    quantity: customer 9 enters the metric table with a negative total. *)
Lemma rfm_aggregates_negative_quantity :
  In Examples.negative_line (RfmAnalytics.data_preparation Examples.retail)
  /\ Quantity Examples.negative_line <= 0
  /\ In (RfmAnalytics.mkRfm 9 12 1 (-20 # 2))
       (RfmAnalytics.rfm_metrics Examples.retail_today
          (RfmAnalytics.data_preparation Examples.retail)).
Proof.
  split; [| split].
  - vm_compute. tauto.
  - vm_compute. discriminate.
  - vm_compute. tauto.
Qed.

(** C7 as stated fails: not every pipeline drops the lines with a
    non-positive quantity before it aggregates. *)
Lemma rfm_does_not_drop_nonpositive_lines :
  ~ (forall df r,
       In r (RfmAnalytics.data_preparation df) ->
       0 < Quantity r /\ 0 < Price r).
Proof.
  intros H.
  destruct (H Examples.retail Examples.negative_line) as [Hq _].
  - vm_compute. tauto.
  - vm_compute in Hq. discriminate Hq.
Qed.

End Cleaning.

(** ** Customers with a single order *)

Section SingleOrder.

Import Pandas.

(** [clv_prediction.py] hands only repeat customers to the estimators. *)
Lemma clv_df_repeat_customers (today : Z) (df : list OnlineRetail.row)
    (rec : ClvPrediction.clv_row) :
  In rec (ClvPrediction.clv_df_at today df) ->
  (1 < ClvPrediction.frequency rec)%Z.
Proof.
  unfold ClvPrediction.clv_df_at, ClvPrediction.clv_df_of_rows,
    ClvPrediction.repeat_customers.
  intros Hin. apply in_map_iff in Hin. destruct Hin as [a [<- Ha]].
  apply filter_In in Ha. destruct Ha as [_ Ha]. simpl.
  apply Z.ltb_lt, Ha.
Qed.

(** So does [create_clv_df] of [flo_clv.py]. *)
Lemma create_clv_df_repeat_customers (analysis : Z) (df : list Flo.row)
    (rec : FloClv.clv_row) :
  In rec (FloClv.create_clv_df_at analysis df) -> 1 < FloClv.frequency rec.
Proof.
  unfold FloClv.create_clv_df_at. intros Hin.
  apply filter_In in Hin. apply Qlt_bool_iff. tauto.
Qed.

(** [create_rfm] of [rfm_analytics.py] keeps a customer with one invoice
    and gives it a segment. *)
Lemma create_rfm_keeps_single_order :
  exists out r,
    RfmAnalytics.create_rfm_at Examples.retail_today Examples.retail = inr out
    /\ In r out
    /\ RfmAnalytics.frequency (RfmAnalytics.seg_metrics r) = 1%Z
    /\ In (RfmAnalytics.segment r) spec_segment_labels.
Proof.
  eexists. eexists. split; [apply create_rfm_at_example |].
  split; [left; reflexivity |]. split; [reflexivity |].
  vm_compute. tauto.
Qed.

(** C5: the script body of [flo_clv.py] applies no frequency filter: the
    customer with a single order is among the rows that [bgf.fit] and
    [bgf.predict] receive, while [create_clv_df] of the same file leaves
    that customer out. *)
Theorem flo_script_fits_single_order :
  In (FloClv.mkClv "a1" (729 # 7) (779 # 7) 1 (120 # 1))
    (FloClv.script_clv_df Examples.flo)
  /\ In (1, 729 # 7, 779 # 7)
       (FloClv.bgf_fit_args (FloClv.script_clv_df Examples.flo))
  /\ ~ In "a1"%string
       (map FloClv.customer_id (FloClv.create_clv_df Examples.flo)).
Proof.
  split; [| split].
  - vm_compute. tauto.
  - vm_compute. tauto.
  - vm_compute. intros H.
    repeat (destruct H as [H | H]; [discriminate H |]). exact H.
Qed.

End SingleOrder.

(** ** The outlier clipper *)

Section Clipper.

Import Pandas.

Lemma Forall2_map_same {A B C : Type} (P : B -> C -> Prop) (f : A -> B)
    (g : A -> C) (l : list A) :
  (forall a, P (f a) (g a)) -> Forall2 P (map f l) (map g l).
Proof. intros H. induction l; simpl; constructor; auto. Qed.

Lemma Forall2_nth_error {A B : Type} (P : A -> B -> Prop) (l : list A)
    (l' : list B) (i : nat) (a : A) (b : B) :
  Forall2 P l l' -> nth_error l i = Some a -> nth_error l' i = Some b ->
  P a b.
Proof.
  intros H. revert i. induction H as [| x y l l' Hxy _ IH]; intros [| i];
    simpl; try discriminate.
  - intros [= <-] [= <-]. exact Hxy.
  - apply IH.
Qed.

Ltac Qcontradiction :=
  exfalso;
  match goal with
  | Hlt : ?a < ?b, Hle : ?b <= ?a |- _ => exact (Qlt_not_le _ _ Hlt Hle)
  end.

(** C4 (as the code has it): with Q1 and Q99 the 1st and 99th
    percentiles of the column, [low = Q1 - 1.5 (Q99 - Q1)] and
    [high = Q99 + 1.5 (Q99 - Q1)], the clipper of [clv_prediction.py]
    writes [high] over every value above [high] and leaves every other
    value, however low, as it is; the clipper of [flo_clv.py] first
    writes [round(low)] over every value below [low], then [round(high)]
    over every value above [high]. *)
Theorem outlier_clipper_per_call_site {A : Type} (get : A -> Q)
    (set : Q -> A -> A) (df : list A) :
  (forall v r, get (set v r) = v) ->
  Forall2
    (clipped_high_only
       (quantile (map get df) (99 # 100)
        + (3 # 2)
          * (quantile (map get df) (99 # 100)
             - quantile (map get df) (1 # 100))))
    (map get df)
    (map get (ClvPrediction.replace_with_thresholds get set df))
  /\ Forall2
       (clipped_rounded
          (quantile (map get df) (1 # 100)
           - (3 # 2)
             * (quantile (map get df) (99 # 100)
                - quantile (map get df) (1 # 100)))
          (quantile (map get df) (99 # 100)
           + (3 # 2)
             * (quantile (map get df) (99 # 100)
                - quantile (map get df) (1 # 100))))
       (map get df)
       (map get (FloClv.replace_with_thresholds get set df)).
Proof.
  intros Hget. split.
  - unfold ClvPrediction.replace_with_thresholds,
      ClvPrediction.outlier_thresholds.
    cbv zeta. rewrite loc_set_map, map_map.
    apply Forall2_map_same. intros r. unfold clipped_high_only.
    destruct (Qlt_bool _ (get r)) eqn:Hup.
    + apply Qlt_bool_iff in Hup. rewrite Hget. split; [reflexivity |].
      intros Hle. exfalso. apply (Qlt_not_le _ _ Hup Hle).
    + apply Qlt_bool_false_iff in Hup. split; [| reflexivity].
      intros Hlt. exfalso. apply (Qlt_not_le _ _ Hlt Hup).
  - unfold FloClv.replace_with_thresholds, FloClv.outlier_thresholds.
    cbv zeta. rewrite !loc_set_map, !map_map.
    apply Forall2_map_same. intros r. unfold clipped_rounded.
    destruct (Qlt_bool (get r) _) eqn:Hlow.
    + apply Qlt_bool_iff in Hlow. rewrite Hget.
      destruct (Qlt_bool _ (round0 _)) eqn:Hup.
      * apply Qlt_bool_iff in Hup. rewrite Hget.
        repeat split; intros H1 H2; first [reflexivity | Qcontradiction].
      * apply Qlt_bool_false_iff in Hup. rewrite Hget.
        repeat split; intros H1 H2; first [reflexivity | Qcontradiction].
    + apply Qlt_bool_false_iff in Hlow.
      destruct (Qlt_bool _ (get r)) eqn:Hup.
      * apply Qlt_bool_iff in Hup. rewrite Hget.
        repeat split; intros H1 H2; first [reflexivity | Qcontradiction].
      * apply Qlt_bool_false_iff in Hup.
        repeat split; intros H1 H2; first [reflexivity | Qcontradiction].
Qed.

Lemma outlier_clipper_per_call_site_witness :
  Forall2
    (clipped_high_only
       (quantile (map column_get Examples.one_outlier) (99 # 100)
        + (3 # 2)
          * (quantile (map column_get Examples.one_outlier) (99 # 100)
             - quantile (map column_get Examples.one_outlier) (1 # 100))))
    (map column_get Examples.one_outlier)
    (map column_get
       (ClvPrediction.replace_with_thresholds column_get column_set
          Examples.one_outlier))
  /\ Forall2
       (clipped_rounded
          (quantile (map column_get Examples.one_outlier) (1 # 100)
           - (3 # 2)
             * (quantile (map column_get Examples.one_outlier) (99 # 100)
                - quantile (map column_get Examples.one_outlier) (1 # 100)))
          (quantile (map column_get Examples.one_outlier) (99 # 100)
           + (3 # 2)
             * (quantile (map column_get Examples.one_outlier) (99 # 100)
                - quantile (map column_get Examples.one_outlier) (1 # 100))))
       (map column_get Examples.one_outlier)
       (map column_get
          (FloClv.replace_with_thresholds column_get column_set
             Examples.one_outlier)).
Proof.
  apply (outlier_clipper_per_call_site column_get column_set
           Examples.one_outlier).
  intros v r. reflexivity.
Defined.

(** On a column of 200 values [1/4] and one value [100] both limits are
    [1/4]: [clv_prediction.py] writes [1/4] over the outlier,
    [flo_clv.py] writes [round(1/4) = 0]. *)
Lemma clipping_one_outlier :
  snd (FloClv.outlier_thresholds Examples.one_outlier) == 1 # 4
  /\ nth_error Examples.one_outlier 200 = Some 100
  /\ (exists w,
        nth_error
          (ClvPrediction.replace_with_thresholds column_get column_set
             Examples.one_outlier) 200 = Some w
        /\ w == 1 # 4)
  /\ nth_error
       (FloClv.replace_with_thresholds column_get column_set
          Examples.one_outlier) 200 = Some 0.
Proof.
  split; [vm_compute; reflexivity |].
  split; [vm_compute; reflexivity |].
  split; [| vm_compute; reflexivity].
  eexists. split; [vm_compute; reflexivity | vm_compute; reflexivity].
Qed.

(** On a column of one value [-100] and 200 values [1] both limits are
    [1]: [flo_clv.py] writes [1] over the low value, which
    [clv_prediction.py] leaves alone. *)
Lemma clipping_one_low_outlier :
  fst (FloClv.outlier_thresholds Examples.one_low_outlier) == 1
  /\ nth_error
       (FloClv.replace_with_thresholds column_get column_set
          Examples.one_low_outlier) 0 = Some 1
  /\ nth_error
       (ClvPrediction.replace_with_thresholds column_get column_set
          Examples.one_low_outlier) 0 = Some (- (100)).
Proof. repeat split; vm_compute; reflexivity. Qed.

(** C4 as stated fails for the clipper of [flo_clv.py]: it does not write
    exactly [high] over the values above [high], and it does not leave
    every value at or under [high] unchanged. *)
Lemma flo_clipper_is_not_high_only :
  ~ (forall col : list Q,
       Forall2
         (fun v w =>
            (snd (FloClv.outlier_thresholds col) < v ->
             w == snd (FloClv.outlier_thresholds col))
            /\ (v <= snd (FloClv.outlier_thresholds col) -> w == v))
         col (FloClv.replace_with_thresholds column_get column_set col)).
Proof.
  intros H.
  pose proof (Forall2_nth_error _ _ _ 200%nat 100 0
                (H Examples.one_outlier)) as Hout.
  destruct Hout as [Hhigh _]; try (vm_compute; reflexivity).
  assert (Hlt : snd (FloClv.outlier_thresholds Examples.one_outlier) < 100)
    by (vm_compute; reflexivity).
  specialize (Hhigh Hlt). vm_compute in Hhigh. discriminate Hhigh.
Qed.

End Clipper.

(** ** Sorting and the extreme quantiles *)

Section Sorting.

Import Pandas.

Lemma insert_sorted_In (x y : Q) (l : list Q) :
  In y (insert_sorted x l) <-> y = x \/ In y l.
Proof.
  induction l as [| z l IH]; simpl.
  - intuition.
  - destruct (Qle_bool x z); simpl; [| rewrite IH]; intuition.
Qed.

Lemma insert_sorted_length (x : Q) (l : list Q) :
  List.length (insert_sorted x l) = S (List.length l).
Proof.
  induction l as [| z l IH]; simpl; [reflexivity |].
  destruct (Qle_bool x z); simpl; [| rewrite IH]; reflexivity.
Qed.

Lemma insert_sorted_sorted (x : Q) (l : list Q) :
  StronglySorted Qle l -> StronglySorted Qle (insert_sorted x l).
Proof.
  induction l as [| z l IH]; simpl; intros Hs.
  - constructor; constructor.
  - inversion Hs as [| ? ? Hs' Hall]; subst.
    destruct (Qle_bool x z) eqn:Hxz.
    + apply Qle_bool_iff in Hxz. constructor; [exact Hs |].
      constructor; [exact Hxz |].
      eapply Forall_impl; [| exact Hall].
      intros w Hw. apply (Qle_trans _ _ _ Hxz Hw).
    + assert (Hzx : z <= x).
      { apply Qlt_le_weak, Qnot_le_lt. intros Hle.
        apply Qle_bool_iff in Hle. congruence. }
      constructor; [apply IH, Hs' |].
      apply Forall_forall. intros w Hw.
      apply insert_sorted_In in Hw. destruct Hw as [-> | Hw]; [exact Hzx |].
      rewrite Forall_forall in Hall. apply Hall, Hw.
Qed.

Lemma sort_values_In (y : Q) (l : list Q) :
  In y (sort_values l) <-> In y l.
Proof.
  induction l as [| x l IH]; simpl; [tauto |].
  rewrite insert_sorted_In, IH. intuition.
Qed.

Lemma sort_values_length (l : list Q) :
  List.length (sort_values l) = List.length l.
Proof.
  induction l as [| x l IH]; simpl; [reflexivity |].
  rewrite insert_sorted_length, IH. reflexivity.
Qed.

Lemma sort_values_sorted (l : list Q) : StronglySorted Qle (sort_values l).
Proof.
  induction l as [| x l IH]; simpl; [constructor |].
  apply insert_sorted_sorted, IH.
Qed.

(** In a sorted list the first element is the least, the last one the
    greatest. *)
Lemma sorted_first_least (l : list Q) (y : Q) :
  StronglySorted Qle l -> In y l -> nth 0 l 0 <= y.
Proof.
  intros Hs Hy. destruct l as [| x l]; [destruct Hy |].
  inversion Hs as [| ? ? _ Hall]; subst. simpl.
  destruct Hy as [-> | Hy]; [apply Qle_refl |].
  rewrite Forall_forall in Hall. apply Hall, Hy.
Qed.

Lemma sorted_last_greatest (l : list Q) (y : Q) :
  StronglySorted Qle l -> In y l -> y <= nth (List.length l - 1) l 0.
Proof.
  revert y. induction l as [| x l IH]; intros y Hs Hy; [destruct Hy |].
  inversion Hs as [| ? ? Hs' Hall]; subst.
  destruct l as [| z l].
  - destruct Hy as [-> | []]. simpl. apply Qle_refl.
  - replace (List.length (x :: z :: l) - 1)%nat
      with (S (List.length (z :: l) - 1)) by (simpl; lia).
    change (nth (S (List.length (z :: l) - 1)) (x :: z :: l) 0)
      with (nth (List.length (z :: l) - 1) (z :: l) 0).
    destruct Hy as [-> | Hy]; [| apply IH; assumption].
    rewrite Forall_forall in Hall.
    apply (Qle_trans _ z).
    + apply Hall. left. reflexivity.
    + apply IH; [exact Hs' | left; reflexivity].
Qed.

(** The quantile at a level equal to 0 is the least value of the column,
    the one at a level equal to 1 the greatest. *)
Lemma quantile_0 (col : list Q) (q : Q) :
  q == 0 -> quantile col q == nth 0 (sort_values col) 0.
Proof.
  intros Hq. unfold quantile.
  set (v := sort_values col).
  set (pos := q * inject_Z (Z.of_nat (List.length v) - 1)).
  assert (Hpos : pos == 0) by (unfold pos; rewrite Hq; ring).
  assert (Hfloor : Qfloor pos = 0%Z) by (rewrite Hpos; reflexivity).
  assert (Hceil : Qceiling pos = 0%Z) by (rewrite Hpos; reflexivity).
  rewrite Hfloor, Hceil. simpl Z.to_nat. ring.
Qed.

Lemma quantile_1 (col : list Q) (q : Q) :
  col <> [] -> q == 1 ->
  quantile col q
  == nth (List.length (sort_values col) - 1) (sort_values col) 0.
Proof.
  intros Hne Hq. unfold quantile.
  set (v := sort_values col).
  set (n := List.length v).
  assert (Hn : (1 <= n)%nat).
  { unfold n, v. rewrite sort_values_length.
    destruct col; [congruence | simpl; lia]. }
  set (pos := q * inject_Z (Z.of_nat n - 1)).
  assert (Hpos : pos == inject_Z (Z.of_nat n - 1))
    by (unfold pos; rewrite Hq; ring).
  assert (Hfloor : Qfloor pos = (Z.of_nat n - 1)%Z)
    by (rewrite Hpos; apply Qfloor_Z).
  assert (Hceil : Qceiling pos = (Z.of_nat n - 1)%Z)
    by (rewrite Hpos; apply Qceiling_Z).
  rewrite Hfloor, Hceil.
  replace (Z.to_nat (Z.of_nat n - 1)) with (n - 1)%nat by lia.
  ring.
Qed.

Lemma quantile_0_least (col : list Q) (q y : Q) :
  q == 0 -> In y col -> quantile col q <= y.
Proof.
  intros Hq Hy. rewrite (quantile_0 col q Hq).
  apply sorted_first_least; [apply sort_values_sorted |].
  apply sort_values_In, Hy.
Qed.

Lemma quantile_1_greatest (col : list Q) (q y : Q) :
  q == 1 -> In y col -> y <= quantile col q.
Proof.
  intros Hq Hy. rewrite (quantile_1 col q); [| | exact Hq].
  - apply sorted_last_greatest; [apply sort_values_sorted |].
    apply sort_values_In, Hy.
  - intros ->. destruct Hy.
Qed.

End Sorting.

(** ** Quantile bins *)

Section Bins.

Import Pandas.

Lemma searchsorted_left_monotone (bins : list Q) (x y : Q) :
  x <= y -> (searchsorted_left bins x <= searchsorted_left bins y)%nat.
Proof.
  intros Hxy. induction bins as [| b bins IH]; simpl; [lia |].
  destruct (Qle_bool x b) eqn:Hx; [lia |].
  destruct (Qle_bool y b) eqn:Hy; [| lia].
  apply Qle_bool_iff in Hy.
  assert (Hxb : Qle_bool x b = true)
    by (apply Qle_bool_iff, (Qle_trans _ _ _ Hxy Hy)).
  congruence.
Qed.

(** An edge that is not below [x] bounds the insertion index of [x]. *)
Lemma searchsorted_left_le_index (bins : list Q) (x : Q) (j : nat) :
  (j < List.length bins)%nat -> x <= nth j bins 0 ->
  (searchsorted_left bins x <= j)%nat.
Proof.
  revert j. induction bins as [| b bins IH]; simpl; intros j Hj Hx; [lia |].
  destruct (Qle_bool x b) eqn:Hb; [lia |].
  destruct j as [| j].
  - apply Qle_bool_iff in Hx. congruence.
  - apply le_n_S, IH; [lia | exact Hx].
Qed.

(** Bin numbers grow with the value. *)
Lemma bin_id_monotone (bins : list Q) (x y : Q) :
  bins <> [] -> x <= y -> (bin_id bins x <= bin_id bins y)%nat.
Proof.
  intros Hne Hxy. destruct bins as [| b bins]; [congruence |].
  unfold bin_id. simpl nth.
  destruct (Qeq_bool x b) eqn:Hx; destruct (Qeq_bool y b) eqn:Hy.
  - lia.
  - apply Qeq_bool_iff in Hx. apply Qeq_bool_neq in Hy. simpl.
    destruct (Qle_bool y b) eqn:Hyb; [| lia].
    apply Qle_bool_iff in Hyb. exfalso. apply Hy.
    apply Qle_antisym; [exact Hyb | rewrite <- Hx; exact Hxy].
  - apply Qeq_bool_iff in Hy. simpl.
    assert (Hxb : Qle_bool x b = true)
      by (apply Qle_bool_iff; rewrite <- Hy; exact Hxy).
    rewrite Hxb. lia.
  - apply searchsorted_left_monotone, Hxy.
Qed.

(** A value between the first and the last edge falls into a bin. *)
Lemma bin_id_in_range (bins : list Q) (q : nat) (v : Q) :
  List.length bins = S q -> (1 <= q)%nat ->
  nth 0 bins 0 <= v -> v <= nth q bins 0 ->
  (1 <= bin_id bins v <= q)%nat.
Proof.
  intros Hlen Hq Hlow Hhigh. unfold bin_id.
  destruct (Qeq_bool v (nth 0 bins 0)) eqn:Hv; [lia |].
  apply Qeq_bool_neq in Hv. split.
  - destruct bins as [| b bins]; [discriminate |]. simpl in *.
    destruct (Qle_bool v b) eqn:Hvb; [| lia].
    apply Qle_bool_iff in Hvb. exfalso. apply Hv.
    apply Qle_antisym; assumption.
  - apply searchsorted_left_le_index; [lia | exact Hhigh].
Qed.

Lemma linspace_length (q : nat) : List.length (linspace q) = S q.
Proof. unfold linspace. rewrite length_map, length_seq. reflexivity. Qed.

Lemma qcut_bins_length (x : list Q) (q : nat) :
  List.length (qcut_bins x q) = S q.
Proof. unfold qcut_bins. rewrite length_map. apply linspace_length. Qed.

Lemma qcut_bins_nth (x : list Q) (q j : nat) :
  (j <= q)%nat ->
  nth j (qcut_bins x q) 0
  = quantile x (inject_Z (Z.of_nat j) / inject_Z (Z.of_nat q)).
Proof.
  intros Hj. unfold qcut_bins, linspace.
  rewrite map_map.
  rewrite (nth_indep _ 0
             (quantile x (inject_Z (Z.of_nat 0) / inject_Z (Z.of_nat q))))
    by (rewrite length_map, length_seq; lia).
  rewrite (map_nth
             (fun j => quantile x (inject_Z (Z.of_nat j) / inject_Z (Z.of_nat q)))
             (seq 0 (S q)) 0%nat j).
  rewrite seq_nth by lia. reflexivity.
Qed.

(** The first edge is the least value of the column, the last edge the
    greatest. *)
Lemma qcut_bins_first (x : list Q) (q : nat) (v : Q) :
  In v x -> nth 0 (qcut_bins x q) 0 <= v.
Proof.
  intros Hv. rewrite qcut_bins_nth by lia.
  apply quantile_0_least; [| exact Hv].
  unfold Qdiv. simpl inject_Z. ring.
Qed.

Lemma qcut_bins_last (x : list Q) (q : nat) (v : Q) :
  (1 <= q)%nat -> In v x -> v <= nth q (qcut_bins x q) 0.
Proof.
  intros Hq Hv. rewrite qcut_bins_nth by lia.
  apply quantile_1_greatest; [| exact Hv].
  apply Qmult_inv_r. unfold Qeq. simpl. lia.
Qed.

Lemma unique_length_le (l : list Q) :
  (List.length (unique l) <= List.length l)%nat.
Proof.
  induction l as [| x l IH]; simpl; [lia |].
  pose proof (filter_length_le (fun y => negb (Qeq_bool x y)) (unique l)).
  lia.
Qed.

(** [pd.qcut] either raises or labels the column value by value. *)
Lemma qcut_inr {L : Type} (x : list Q) (q : nat) (labels : list L)
    (out : list (option L)) :
  qcut x q labels = inr out ->
  (q <> 1%nat -> List.length (unique (qcut_bins x q)) = S q)
  /\ List.length labels = q
  /\ out = map (cut_label (qcut_bins x q) labels) x.
Proof.
  unfold qcut, bins_to_cuts, ret.
  pose proof (qcut_bins_length x q) as Hlen.
  pose proof (unique_length_le (qcut_bins x q)) as Hle.
  set (bins := qcut_bins x q) in *. clearbody bins.
  destruct (List.length (unique bins) <? List.length bins)%nat eqn:Hdup;
    destruct (List.length bins =? 2)%nat eqn:Hq; cbn [andb negb];
    try discriminate;
    destruct (List.length labels =? List.length bins - 1)%nat eqn:Hlab;
    cbn [negb]; try discriminate;
    intros H; injection H as <-;
    apply Nat.eqb_eq in Hlab;
    (split; [| split; [lia | reflexivity]]); intros Hq1.
  - apply Nat.eqb_eq in Hq. lia.
  - apply Nat.ltb_ge in Hdup. lia.
  - apply Nat.ltb_ge in Hdup. lia.
Qed.

(** When it returns, every value of the column has a bin between 1 and
    [q], hence a label. *)
Lemma qcut_bin_in_range (x : list Q) (q : nat) (v : Q) :
  (1 <= q)%nat -> In v x -> (1 <= bin_id (qcut_bins x q) v <= q)%nat.
Proof.
  intros Hq Hv. apply bin_id_in_range.
  - apply qcut_bins_length.
  - exact Hq.
  - apply qcut_bins_first, Hv.
  - apply qcut_bins_last; assumption.
Qed.

Lemma cut_label_in_range {L : Type} (x : list Q) (q : nat) (labels : list L)
    (v : Q) :
  (1 <= q)%nat -> In v x ->
  cut_label (qcut_bins x q) labels v
  = nth_error labels (bin_id (qcut_bins x q) v - 1).
Proof.
  intros Hq Hv. unfold cut_label. rewrite qcut_bins_length.
  pose proof (qcut_bin_in_range x q v Hq Hv) as [Hlo Hhi].
  destruct (_ =? S q)%nat eqn:H1; [apply Nat.eqb_eq in H1; lia |].
  destruct (_ =? 0)%nat eqn:H0; [apply Nat.eqb_eq in H0; lia |].
  reflexivity.
Qed.

(** C9: when the quantile edges of a column take fewer than [q] distinct
    values, [pd.qcut] raises (its [ValueError], "Bin edges must be
    unique") and labels nothing; the branch is reached by [create_rfm]
    on six customers who bought on the same day, and by the CLV
    segmentation on five equal values. *)
Theorem qcut_degenerate_raises {L : Type} (x : list Q) (q : nat)
    (labels : list L) :
  (List.length (unique (qcut_bins x q)) < q)%nat ->
  qcut x q labels = inl ValueError_bin_edges_must_be_unique
  /\ RfmAnalytics.create_rfm Examples.same_day
     = inl ValueError_bin_edges_must_be_unique
  /\ FloClv.clv_segment [1; 1; 1; 1; 1]
     = inl ValueError_bin_edges_must_be_unique.
Proof.
  intros Hfew. split; [| split; vm_compute; reflexivity].
  unfold qcut, bins_to_cuts. rewrite qcut_bins_length.
  assert (Hlt : (List.length (unique (qcut_bins x q)) <? S q)%nat = true)
    by (apply Nat.ltb_lt; lia).
  rewrite Hlt.
  assert (Hq : (S q =? 2)%nat = false).
  { apply Nat.eqb_neq. intros Heq.
    assert (Hbins : qcut_bins x q <> []).
    { intros Hnil. pose proof (qcut_bins_length x q) as Hl.
      rewrite Hnil in Hl. discriminate Hl. }
    destruct (qcut_bins x q) as [| b bins]; [congruence |].
    simpl in Hfew. lia. }
  rewrite Hq. reflexivity.
Qed.

Lemma qcut_degenerate_raises_witness :
  qcut (map (fun r => inject_Z (RfmAnalytics.recency r))
          (RfmAnalytics.rfm_metrics RfmAnalytics.today_date
             (RfmAnalytics.data_preparation Examples.same_day)))
    5 RfmAnalytics.recency_labels
  = inl ValueError_bin_edges_must_be_unique
  /\ RfmAnalytics.create_rfm Examples.same_day
     = inl ValueError_bin_edges_must_be_unique
  /\ FloClv.clv_segment [1; 1; 1; 1; 1]
     = inl ValueError_bin_edges_must_be_unique.
Proof.
  apply (qcut_degenerate_raises
           (map (fun r => inject_Z (RfmAnalytics.recency r))
              (RfmAnalytics.rfm_metrics RfmAnalytics.today_date
                 (RfmAnalytics.data_preparation Examples.same_day)))
           5 RfmAnalytics.recency_labels).
  vm_compute. lia.
Defined.

(** The converse: a call that returns has formed its [q] bins from
    [q + 1] distinct edges. *)
Lemma qcut_returns_distinct_edges {L : Type} (x : list Q) (q : nat)
    (labels : list L) (out : list (option L)) :
  q <> 1%nat -> qcut x q labels = inr out ->
  List.length (unique (qcut_bins x q)) = S q
  /\ List.length out = List.length x.
Proof.
  intros Hq Hout. split.
  - apply (qcut_inr _ _ _ _ Hout), Hq.
  - apply (qcut_length _ _ _ _ Hout).
Qed.

End Bins.

(** ** Ranks *)

Section Ranks.

Import Pandas.

Lemma filter_firstn_length {A : Type} (p : A -> bool) (i : nat) (l : list A) :
  (List.length (filter p (firstn i l)) <= List.length (filter p l))%nat.
Proof.
  rewrite <- (firstn_skipn i l) at 2.
  rewrite filter_app, length_app. lia.
Qed.

Lemma filter_disjoint_length {A : Type} (p e r : A -> bool) (l : list A) :
  (forall w, p w = true -> r w = true) ->
  (forall w, e w = true -> r w = true) ->
  (forall w, p w = true -> e w = true -> False) ->
  (List.length (filter p l) + List.length (filter e l)
   <= List.length (filter r l))%nat.
Proof.
  intros Hp He Hd. induction l as [| w l IH]; simpl; [lia |].
  specialize (Hp w). specialize (He w). specialize (Hd w).
  destruct (p w), (e w), (r w); simpl; try lia;
    solve [ exfalso; auto | discriminate Hp; reflexivity
          | discriminate He; reflexivity ].
Qed.

(** A smaller value has a smaller rank; of two equal values, the one
    that comes first in the column has the smaller rank. *)
Lemma first_rank_le (col : list Q) (i j : nat) (a b : Q) :
  a < b \/ (a == b /\ (i <= j)%nat) ->
  first_rank col i a <= first_rank col j b.
Proof.
  intros Hab. unfold first_rank. rewrite <- Zle_Qle.
  apply inj_le, le_n_S.
  destruct Hab as [Hlt | [Heq Hij]].
  - pose proof (filter_firstn_length (Qeq_bool a) i col) as Hfirst.
    pose proof
      (filter_disjoint_length (fun w => Qlt_bool w a) (Qeq_bool a)
         (fun w => Qlt_bool w b) col) as Hsum.
    assert (Hgoal :
      (List.length (filter (fun w => Qlt_bool w a) col)
       + List.length (filter (Qeq_bool a) col)
       <= List.length (filter (fun w => Qlt_bool w b) col))%nat).
    { apply Hsum.
      - intros w Hw. apply Qlt_bool_iff in Hw. apply Qlt_bool_iff.
        apply (Qlt_trans _ _ _ Hw Hlt).
      - intros w Hw. apply Qeq_bool_iff in Hw. apply Qlt_bool_iff.
        rewrite <- Hw. exact Hlt.
      - intros w Hw He. apply Qlt_bool_iff in Hw. apply Qeq_bool_iff in He.
        rewrite He in Hw. apply (Qlt_irrefl _ Hw). }
    lia.
  - assert (Hlt :
      filter (fun w => Qlt_bool w a) col = filter (fun w => Qlt_bool w b) col).
    { apply filter_ext. intros w. unfold Qlt_bool. rewrite Heq. reflexivity. }
    assert (Hsame :
      filter (Qeq_bool a) (firstn i col)
      = filter (Qeq_bool b) (firstn i (firstn j col))).
    { rewrite firstn_firstn, Nat.min_l by exact Hij.
      apply filter_ext. intros w. rewrite Heq. reflexivity. }
    rewrite Hlt, Hsame.
    pose proof (filter_firstn_length (Qeq_bool b) i (firstn j col)). lia.
Qed.

Lemma rank_first_nth (col : list Q) (i : nat) (v : Q) :
  nth_error col i = Some v ->
  nth_error (rank_first col) i = Some (first_rank col i v).
Proof.
  intros Hv. unfold rank_first.
  assert (Hi : (i < List.length col)%nat)
    by (apply nth_error_Some; congruence).
  rewrite nth_error_map.
  rewrite (nth_error_nth' _ 0%nat) by (rewrite length_seq; exact Hi).
  rewrite seq_nth by exact Hi. simpl.
  rewrite (nth_error_nth _ _ 0 Hv). reflexivity.
Qed.

End Ranks.

(** ** Order of the quantile scores *)

Section Scores.

Import Pandas.

Lemma value_label_nth (id : nat) :
  (1 <= id <= 5)%nat ->
  nth_error [1; 2; 3; 4; 5]%Z (id - 1) = Some (Z.of_nat id).
Proof.
  intros Hid.
  destruct id as [| [| [| [| [| [| id]]]]]]; try lia; reflexivity.
Qed.

Lemma recency_label_nth (id : nat) :
  (1 <= id <= 5)%nat ->
  nth_error [5; 4; 3; 2; 1]%Z (id - 1) = Some (6 - Z.of_nat id)%Z.
Proof.
  intros Hid.
  destruct id as [| [| [| [| [| [| id]]]]]]; try lia; reflexivity.
Qed.

(** The label of the [i]th value of a column that [pd.qcut] has cut. *)
Lemma qcut_nth {L : Type} (x : list Q) (labels : list L)
    (out : list (option L)) (i : nat) (a : Q) :
  qcut x 5 labels = inr out -> nth_error x i = Some a ->
  (1 <= bin_id (qcut_bins x 5) a <= 5)%nat
  /\ nth_error out i
     = Some (nth_error labels (bin_id (qcut_bins x 5) a - 1)).
Proof.
  intros Hout Ha.
  assert (Hin : In a x) by (eapply nth_error_In; exact Ha).
  split; [apply qcut_bin_in_range; [lia | exact Hin] |].
  destruct (qcut_inr _ _ _ _ Hout) as [_ [_ ->]].
  rewrite nth_error_map, Ha. simpl.
  rewrite cut_label_in_range by (lia || exact Hin). reflexivity.
Qed.

(** With labels 1 to 5 the scores grow with the value, with labels 5 down
    to 1 they shrink. *)
Lemma qcut_ascending (x : list Q) (out : list (option Z)) (i j : nat)
    (a b : Q) :
  qcut x 5 [1; 2; 3; 4; 5]%Z = inr out ->
  nth_error x i = Some a -> nth_error x j = Some b -> a <= b ->
  exists sa sb,
    nth_error out i = Some (Some sa) /\ nth_error out j = Some (Some sb)
    /\ (1 <= sa <= sb)%Z /\ (sb <= 5)%Z.
Proof.
  intros Hout Ha Hb Hab.
  destruct (qcut_nth _ _ _ _ _ Hout Ha) as [Hra ->].
  destruct (qcut_nth _ _ _ _ _ Hout Hb) as [Hrb ->].
  assert (Hmono : (bin_id (qcut_bins x 5) a <= bin_id (qcut_bins x 5) b)%nat).
  { apply bin_id_monotone; [| exact Hab].
    intros Hnil. pose proof (qcut_bins_length x 5) as Hl.
    rewrite Hnil in Hl. discriminate Hl. }
  rewrite !value_label_nth by assumption.
  do 2 eexists. repeat split; lia.
Qed.

Lemma qcut_descending (x : list Q) (out : list (option Z)) (i j : nat)
    (a b : Q) :
  qcut x 5 [5; 4; 3; 2; 1]%Z = inr out ->
  nth_error x i = Some a -> nth_error x j = Some b -> a <= b ->
  exists sa sb,
    nth_error out i = Some (Some sa) /\ nth_error out j = Some (Some sb)
    /\ (1 <= sb <= sa)%Z /\ (sa <= 5)%Z.
Proof.
  intros Hout Ha Hb Hab.
  destruct (qcut_nth _ _ _ _ _ Hout Ha) as [Hra ->].
  destruct (qcut_nth _ _ _ _ _ Hout Hb) as [Hrb ->].
  assert (Hmono : (bin_id (qcut_bins x 5) a <= bin_id (qcut_bins x 5) b)%nat).
  { apply bin_id_monotone; [| exact Hab].
    intros Hnil. pose proof (qcut_bins_length x 5) as Hl.
    rewrite Hnil in Hl. discriminate Hl. }
  rewrite !recency_label_nth by assumption.
  do 2 eexists. repeat split; lia.
Qed.

(** The scores of two rows whose ranks are in order. *)
Lemma qcut_rank_ascending (col : list Q) (out : list (option Z)) (i j : nat)
    (a b : Q) :
  qcut (rank_first col) 5 [1; 2; 3; 4; 5]%Z = inr out ->
  nth_error col i = Some a -> nth_error col j = Some b ->
  a < b \/ (a == b /\ (i <= j)%nat) ->
  exists sa sb,
    nth_error out i = Some (Some sa) /\ nth_error out j = Some (Some sb)
    /\ (1 <= sa <= sb)%Z /\ (sb <= 5)%Z.
Proof.
  intros Hout Ha Hb Hab.
  apply (qcut_ascending (rank_first col) out i j
           (first_rank col i a) (first_rank col j b) Hout).
  - apply rank_first_nth, Ha.
  - apply rank_first_nth, Hb.
  - apply first_rank_le, Hab.
Qed.

Lemma rfm_zip_scores_nth (rfm : list RfmAnalytics.rfm_row)
    (rs fs ms : list (option Z)) (i : nat) (s : RfmAnalytics.scored_row) :
  nth_error (RfmAnalytics.zip_scores rfm rs fs ms) i = Some s ->
  nth_error rfm i = Some (RfmAnalytics.metrics s)
  /\ nth_error rs i = Some (RfmAnalytics.recency_score s)
  /\ nth_error fs i = Some (RfmAnalytics.frequency_score s)
  /\ nth_error ms i = Some (RfmAnalytics.monetary_score s).
Proof.
  revert rs fs ms i.
  induction rfm as [| x rfm IH]; intros [| r rs] [| f fs] [| m ms] [| i];
    simpl; try discriminate.
  - intros [= <-]. simpl. auto.
  - apply IH.
Qed.

Lemma flo_zip_scores_nth (rfm : list FloRfm.rfm_row)
    (rs fs ms : list (option Z)) (i : nat) (s : FloRfm.scored_row) :
  nth_error (FloRfm.zip_scores rfm rs fs ms) i = Some s ->
  nth_error rfm i = Some (FloRfm.metrics s)
  /\ nth_error rs i = Some (FloRfm.recency_score s)
  /\ nth_error fs i = Some (FloRfm.frequency_score s)
  /\ nth_error ms i = Some (FloRfm.monetary_score s).
Proof.
  revert rs fs ms i.
  induction rfm as [| x rfm IH]; intros [| r rs] [| f fs] [| m ms] [| i];
    simpl; try discriminate.
  - intros [= <-]. simpl. auto.
  - apply IH.
Qed.

Lemma scores_ascend_intro (out : list (option Z)) (i j : nat)
    (sx sy : option Z) :
  nth_error out i = Some sx -> nth_error out j = Some sy ->
  (exists sa sb,
     nth_error out i = Some (Some sa) /\ nth_error out j = Some (Some sb)
     /\ (1 <= sa <= sb)%Z /\ (sb <= 5)%Z) ->
  scores_ascend sx sy.
Proof.
  intros Hx Hy [sa [sb [Ha [Hb [H1 H2]]]]].
  exists sa, sb. rewrite Hx in Ha. rewrite Hy in Hb.
  injection Ha as ->. injection Hb as ->. auto.
Qed.

Lemma scores_descend_intro (out : list (option Z)) (i j : nat)
    (sx sy : option Z) :
  nth_error out i = Some sx -> nth_error out j = Some sy ->
  (exists sa sb,
     nth_error out i = Some (Some sa) /\ nth_error out j = Some (Some sb)
     /\ (1 <= sb <= sa)%Z /\ (sa <= 5)%Z) ->
  scores_ascend sy sx.
Proof.
  intros Hx Hy [sa [sb [Ha [Hb [H1 H2]]]]].
  exists sb, sa. rewrite Hx in Ha. rewrite Hy in Hb.
  injection Ha as ->. injection Hb as ->. auto.
Qed.

(** C8 (as the code has it): for the rows [x] and [y] at positions [i]
    and [j] of a scored table, in [rfm_analytics.py] and in [flo_rfm.py]:
    if [x] is at most as recent a value as [y], the recency score of [x]
    is at least that of [y]; if the monetary value of [x] is at most that
    of [y], so is its monetary score; and the frequency score of [x] is
    at most that of [y] when the frequency of [x] is strictly smaller, or
    equal with [x] not after [y] in the table (frequencies are scored on
    their first-occurrence ranks).  All scores lie between 1 and 5. *)
Theorem quantile_scores_order (i j : nat) :
  (forall rfm scored x y,
     RfmAnalytics.rfm_scores rfm = inr scored ->
     nth_error scored i = Some x -> nth_error scored j = Some y ->
     ((RfmAnalytics.recency (RfmAnalytics.metrics x)
       <= RfmAnalytics.recency (RfmAnalytics.metrics y))%Z ->
      scores_ascend (RfmAnalytics.recency_score y)
        (RfmAnalytics.recency_score x))
     /\ (RfmAnalytics.monetary (RfmAnalytics.metrics x)
         <= RfmAnalytics.monetary (RfmAnalytics.metrics y) ->
         scores_ascend (RfmAnalytics.monetary_score x)
           (RfmAnalytics.monetary_score y))
     /\ ((RfmAnalytics.frequency (RfmAnalytics.metrics x)
          < RfmAnalytics.frequency (RfmAnalytics.metrics y))%Z
         \/ (RfmAnalytics.frequency (RfmAnalytics.metrics x)
             = RfmAnalytics.frequency (RfmAnalytics.metrics y)
             /\ (i <= j)%nat) ->
         scores_ascend (RfmAnalytics.frequency_score x)
           (RfmAnalytics.frequency_score y)))
  /\ (forall rfm scored x y,
        FloRfm.rfm_scores rfm = inr scored ->
        nth_error scored i = Some x -> nth_error scored j = Some y ->
        ((FloRfm.recency (FloRfm.metrics x)
          <= FloRfm.recency (FloRfm.metrics y))%Z ->
         scores_ascend (FloRfm.recency_score y) (FloRfm.recency_score x))
        /\ (FloRfm.monetary (FloRfm.metrics x)
            <= FloRfm.monetary (FloRfm.metrics y) ->
            scores_ascend (FloRfm.monetary_score x) (FloRfm.monetary_score y))
        /\ (FloRfm.frequency (FloRfm.metrics x)
            < FloRfm.frequency (FloRfm.metrics y)
            \/ (FloRfm.frequency (FloRfm.metrics x)
                == FloRfm.frequency (FloRfm.metrics y)
                /\ (i <= j)%nat) ->
            scores_ascend (FloRfm.frequency_score x)
              (FloRfm.frequency_score y))).
Proof.
  split.
  - intros rfm scored x y Hscored Hx Hy.
    unfold RfmAnalytics.rfm_scores, bind, ret in Hscored.
    destruct (qcut (map (fun r => inject_Z (RfmAnalytics.recency r)) rfm) 5
                RfmAnalytics.recency_labels) as [e | rs] eqn:Hrs;
      [discriminate |].
    destruct (qcut
                (rank_first
                   (map (fun r => inject_Z (RfmAnalytics.frequency r)) rfm))
                5 RfmAnalytics.value_labels) as [e | fs] eqn:Hfs;
      [discriminate |].
    destruct (qcut (map RfmAnalytics.monetary rfm) 5
                RfmAnalytics.value_labels) as [e | ms] eqn:Hms;
      [discriminate |].
    injection Hscored as <-.
    destruct (rfm_zip_scores_nth _ _ _ _ _ _ Hx) as [Hmx [Hrx [Hfx Hsx]]].
    destruct (rfm_zip_scores_nth _ _ _ _ _ _ Hy) as [Hmy [Hry [Hfy Hsy]]].
    split; [| split].
    + intros Hle.
      apply (scores_descend_intro rs i j _ _ Hrx Hry).
      apply (qcut_descending _ _ _ _
               (inject_Z (RfmAnalytics.recency (RfmAnalytics.metrics x)))
               (inject_Z (RfmAnalytics.recency (RfmAnalytics.metrics y)))
               Hrs).
      * rewrite nth_error_map, Hmx. reflexivity.
      * rewrite nth_error_map, Hmy. reflexivity.
      * rewrite <- Zle_Qle. exact Hle.
    + intros Hle.
      apply (scores_ascend_intro ms i j _ _ Hsx Hsy).
      apply (qcut_ascending _ _ _ _
               (RfmAnalytics.monetary (RfmAnalytics.metrics x))
               (RfmAnalytics.monetary (RfmAnalytics.metrics y)) Hms).
      * rewrite nth_error_map, Hmx. reflexivity.
      * rewrite nth_error_map, Hmy. reflexivity.
      * exact Hle.
    + intros Hord.
      apply (scores_ascend_intro fs i j _ _ Hfx Hfy).
      apply (qcut_rank_ascending _ _ _ _
               (inject_Z (RfmAnalytics.frequency (RfmAnalytics.metrics x)))
               (inject_Z (RfmAnalytics.frequency (RfmAnalytics.metrics y)))
               Hfs).
      * rewrite nth_error_map, Hmx. reflexivity.
      * rewrite nth_error_map, Hmy. reflexivity.
      * destruct Hord as [Hlt | [Heq Hij]].
        -- left. rewrite <- Zlt_Qlt. exact Hlt.
        -- right. rewrite Heq. split; [reflexivity | exact Hij].
  - intros rfm scored x y Hscored Hx Hy.
    unfold FloRfm.rfm_scores, bind, ret in Hscored.
    destruct (qcut (map (fun r => inject_Z (FloRfm.recency r)) rfm) 5
                FloRfm.recency_labels) as [e | rs] eqn:Hrs;
      [discriminate |].
    destruct (qcut (rank_first (map FloRfm.frequency rfm)) 5
                FloRfm.value_labels) as [e | fs] eqn:Hfs;
      [discriminate |].
    destruct (qcut (map FloRfm.monetary rfm) 5 FloRfm.value_labels)
      as [e | ms] eqn:Hms; [discriminate |].
    injection Hscored as <-.
    destruct (flo_zip_scores_nth _ _ _ _ _ _ Hx) as [Hmx [Hrx [Hfx Hsx]]].
    destruct (flo_zip_scores_nth _ _ _ _ _ _ Hy) as [Hmy [Hry [Hfy Hsy]]].
    split; [| split].
    + intros Hle.
      apply (scores_descend_intro rs i j _ _ Hrx Hry).
      apply (qcut_descending _ _ _ _
               (inject_Z (FloRfm.recency (FloRfm.metrics x)))
               (inject_Z (FloRfm.recency (FloRfm.metrics y))) Hrs).
      * rewrite nth_error_map, Hmx. reflexivity.
      * rewrite nth_error_map, Hmy. reflexivity.
      * rewrite <- Zle_Qle. exact Hle.
    + intros Hle.
      apply (scores_ascend_intro ms i j _ _ Hsx Hsy).
      apply (qcut_ascending _ _ _ _
               (FloRfm.monetary (FloRfm.metrics x))
               (FloRfm.monetary (FloRfm.metrics y)) Hms).
      * rewrite nth_error_map, Hmx. reflexivity.
      * rewrite nth_error_map, Hmy. reflexivity.
      * exact Hle.
    + intros Hord.
      apply (scores_ascend_intro fs i j _ _ Hfx Hfy).
      apply (qcut_rank_ascending _ _ _ _
               (FloRfm.frequency (FloRfm.metrics x))
               (FloRfm.frequency (FloRfm.metrics y)) Hfs).
      * rewrite nth_error_map, Hmx. reflexivity.
      * rewrite nth_error_map, Hmy. reflexivity.
      * exact Hord.
Qed.

End Scores.

Section Ties.

Import Pandas.

(** Five customers with one order each get the frequency scores 1 to 5,
    in table order. *)
Lemma equal_frequency_scores :
  RfmAnalytics.rfm_scores Examples.equal_frequency
  = inr [ RfmAnalytics.mkScored (RfmAnalytics.mkRfm 1 10 1 5)
            (Some 5%Z) (Some 1%Z) (Some 1%Z);
          RfmAnalytics.mkScored (RfmAnalytics.mkRfm 2 20 1 10)
            (Some 4%Z) (Some 2%Z) (Some 2%Z);
          RfmAnalytics.mkScored (RfmAnalytics.mkRfm 3 30 1 15)
            (Some 3%Z) (Some 3%Z) (Some 3%Z);
          RfmAnalytics.mkScored (RfmAnalytics.mkRfm 4 40 1 20)
            (Some 2%Z) (Some 4%Z) (Some 4%Z);
          RfmAnalytics.mkScored (RfmAnalytics.mkRfm 5 50 1 25)
            (Some 1%Z) (Some 5%Z) (Some 5%Z) ].
Proof. vm_compute. reflexivity. Qed.

(** C8 as stated fails for the frequency score: of two customers with
    the same frequency, the later one in the table can get the higher
    score. *)
Lemma frequency_ties_break_order :
  ~ (forall rfm scored x y sx sy,
       RfmAnalytics.rfm_scores rfm = inr scored ->
       In x scored -> In y scored ->
       (RfmAnalytics.frequency (RfmAnalytics.metrics x)
        <= RfmAnalytics.frequency (RfmAnalytics.metrics y))%Z ->
       RfmAnalytics.frequency_score x = Some sx ->
       RfmAnalytics.frequency_score y = Some sy ->
       (sx <= sy)%Z).
Proof.
  intros H.
  specialize
    (H Examples.equal_frequency _
       (RfmAnalytics.mkScored (RfmAnalytics.mkRfm 5 50 1 25)
          (Some 1%Z) (Some 5%Z) (Some 5%Z))
       (RfmAnalytics.mkScored (RfmAnalytics.mkRfm 1 10 1 5)
          (Some 5%Z) (Some 1%Z) (Some 1%Z))
       5%Z 1%Z equal_frequency_scores).
  assert (Hle : (5 <= 1)%Z).
  { apply H; simpl; try reflexivity; try lia; tauto. }
  lia.
Qed.

Lemma quantile_scores_order_witness :
  scores_ascend (Some 1%Z) (Some 5%Z)
  /\ scores_ascend (Some 1%Z) (Some 5%Z)
  /\ scores_ascend (Some 1%Z) (Some 5%Z).
Proof.
  destruct (quantile_scores_order 0 4) as [Hrfm _].
  destruct
    (Hrfm Examples.equal_frequency _
       (RfmAnalytics.mkScored (RfmAnalytics.mkRfm 1 10 1 5)
          (Some 5%Z) (Some 1%Z) (Some 1%Z))
       (RfmAnalytics.mkScored (RfmAnalytics.mkRfm 5 50 1 25)
          (Some 1%Z) (Some 5%Z) (Some 5%Z))
       equal_frequency_scores eq_refl eq_refl) as [Hr [Hm Hf]].
  split; [| split].
  - apply Hr. simpl. lia.
  - apply Hm. simpl. unfold Qle. simpl. lia.
  - apply Hf. right. simpl. split; [reflexivity | lia].
Defined.

Lemma cleaning_before_aggregation_witness :
  ~ In Examples.cancelled_line (ClvPrediction.valid_rows Examples.retail)
  /\ ~ In Examples.cancelled_line
         (RfmAnalytics.data_preparation Examples.retail)
  /\ ~ In Examples.cancelled_line (Clv.data_preparation Examples.retail).
Proof.
  apply (cleaning_before_aggregation Examples.retail Examples.cancelled_line).
  vm_compute. reflexivity.
Defined.

End Ties.

(** ** Quantiles by linear interpolation *)

Section Interpolation.

Import Pandas.

Lemma quantile_interpolate (col : list Q) (q : Q) :
  quantile col q
  = interpolate (sort_values col)
      (q * inject_Z (Z.of_nat (List.length (sort_values col)) - 1)).
Proof. reflexivity. Qed.

(** The ceiling is the floor or the next integer. *)
Lemma floor_ceiling_cases (pos : Q) :
  (Qceiling pos = Qfloor pos /\ pos == inject_Z (Qfloor pos))
  \/ (Qceiling pos = (Qfloor pos + 1)%Z
      /\ inject_Z (Qfloor pos) < pos
      /\ pos < inject_Z (Qfloor pos) + 1).
Proof.
  pose proof (Qfloor_le pos) as Hfl.
  pose proof (Qlt_floor pos) as Hlf.
  pose proof (Qle_ceiling pos) as Hlc.
  pose proof (Qceiling_lt pos) as Hcl.
  assert (H1 : (Qfloor pos <= Qceiling pos)%Z).
  { rewrite Zle_Qle. apply (Qle_trans _ pos); assumption. }
  assert (H2 : (Qceiling pos - 1 < Qfloor pos + 1)%Z).
  { rewrite Zlt_Qlt. apply (Qlt_trans _ pos); assumption. }
  rewrite inject_Z_plus in Hlf. change (inject_Z 1) with 1 in Hlf.
  destruct (Z.eq_dec (Qceiling pos) (Qfloor pos)) as [Heq | Hne].
  - left. split; [exact Heq |].
    apply Qle_antisym; [rewrite <- Heq; exact Hlc | exact Hfl].
  - right. assert (Hc : Qceiling pos = (Qfloor pos + 1)%Z) by lia.
    split; [exact Hc |]. split; [| exact Hlf].
    rewrite Hc in Hcl.
    replace (Qfloor pos + 1 - 1)%Z with (Qfloor pos) in Hcl by lia.
    exact Hcl.
Qed.

Lemma sorted_nth_le (v : list Q) (i j : nat) :
  StronglySorted Qle v -> (i <= j)%nat -> (j < List.length v)%nat ->
  nth i v 0 <= nth j v 0.
Proof.
  intros Hs. revert i j.
  induction Hs as [| x v Hs IH Hall]; intros i j Hij Hj; [simpl in Hj; lia |].
  destruct i as [| i]; destruct j as [| j]; simpl in *; try lia.
  - apply Qle_refl.
  - rewrite Forall_forall in Hall. apply Hall, nth_In. lia.
  - apply IH; lia.
Qed.

Lemma sorted_nth_lt (v : list Q) (i j : nat) :
  StronglySorted Qlt v -> (i < j)%nat -> (j < List.length v)%nat ->
  nth i v 0 < nth j v 0.
Proof.
  intros Hs. revert i j.
  induction Hs as [| x v Hs IH Hall]; intros i j Hij Hj; [simpl in Hj; lia |].
  destruct i as [| i]; destruct j as [| j]; simpl in *; try lia.
  - rewrite Forall_forall in Hall. apply Hall, nth_In. lia.
  - apply IH; lia.
Qed.

Lemma sorted_lt_le (v : list Q) : StronglySorted Qlt v -> StronglySorted Qle v.
Proof.
  induction 1 as [| x v Hs IH Hall]; constructor; [exact IH |].
  eapply Forall_impl; [| exact Hall]. intros w. apply Qlt_le_weak.
Qed.

(** The indices of the two neighbours of a position inside the column. *)
Lemma neighbours_in_range (n : nat) (pos : Q) :
  0 <= pos -> pos <= inject_Z (Z.of_nat n - 1) ->
  (0 <= Qfloor pos)%Z /\ (Qfloor pos <= Qceiling pos)%Z
  /\ (Qceiling pos <= Z.of_nat n - 1)%Z.
Proof.
  intros H0 Hn.
  assert (Hf : (Qfloor (inject_Z 0) <= Qfloor pos)%Z)
    by (apply Qfloor_resp_le; exact H0).
  rewrite Qfloor_Z in Hf.
  pose proof (Qceiling_resp_le _ _ Hn) as Hc. rewrite Qceiling_Z in Hc.
  destruct (floor_ceiling_cases pos) as [[He _] | [He _]]; lia.
Qed.

(** The interpolated value lies between its two neighbours. *)
Lemma interpolate_between (v : list Q) (pos : Q) :
  StronglySorted Qle v ->
  0 <= pos -> pos <= inject_Z (Z.of_nat (List.length v) - 1) ->
  nth (Z.to_nat (Qfloor pos)) v 0 <= interpolate v pos
  /\ interpolate v pos <= nth (Z.to_nat (Qceiling pos)) v 0.
Proof.
  intros Hs H0 Hn.
  destruct (neighbours_in_range _ _ H0 Hn) as [Hf [Hfc Hc]].
  unfold interpolate.
  assert (Hab : nth (Z.to_nat (Qfloor pos)) v 0
                <= nth (Z.to_nat (Qceiling pos)) v 0)
    by (apply sorted_nth_le; [exact Hs | lia | lia]).
  set (a := nth (Z.to_nat (Qfloor pos)) v 0) in *.
  set (b := nth (Z.to_nat (Qceiling pos)) v 0) in *.
  destruct (floor_ceiling_cases pos) as [[_ He] | [_ [Hlo Hhi]]].
  - assert (Ht : pos - inject_Z (Qfloor pos) == 0) by (rewrite He at 1; ring).
    rewrite Ht. split; [| apply (Qle_trans _ a)]; try exact Hab;
      (setoid_replace (a + (b - a) * 0) with a by ring); apply Qle_refl.
  - set (t := pos - inject_Z (Qfloor pos)).
    assert (Ht0 : 0 <= t) by (unfold t; lra).
    assert (Ht1 : t <= 1) by (unfold t; lra).
    split; nra.
Qed.

(** Along a sorted column the interpolated value grows with the position. *)
Lemma interpolate_monotone (v : list Q) (pos pos' : Q) :
  StronglySorted Qle v ->
  0 <= pos -> pos <= pos' ->
  pos' <= inject_Z (Z.of_nat (List.length v) - 1) ->
  interpolate v pos <= interpolate v pos'.
Proof.
  intros Hs H0 Hle Hn.
  assert (H0' : 0 <= pos') by (apply (Qle_trans _ pos); assumption).
  assert (Hn' : pos <= inject_Z (Z.of_nat (List.length v) - 1))
    by (apply (Qle_trans _ pos'); assumption).
  destruct (neighbours_in_range _ _ H0 Hn') as [Hf [Hfc Hc]].
  destruct (neighbours_in_range _ _ H0' Hn) as [Hf' [Hfc' Hc']].
  pose proof (Qfloor_resp_le _ _ Hle) as Hff.
  destruct (interpolate_between v pos Hs H0 Hn') as [Hlo Hhi].
  destruct (interpolate_between v pos' Hs H0' Hn) as [Hlo' Hhi'].
  destruct (Z.eq_dec (Qfloor pos) (Qfloor pos')) as [Heq | Hne].
  - destruct (floor_ceiling_cases pos) as [[Hce He] | [Hce [Hgt Hlt]]].
    + apply (Qle_trans _ (nth (Z.to_nat (Qfloor pos')) v 0)); [| exact Hlo'].
      rewrite <- Heq. rewrite Hce in Hhi. exact Hhi.
    + destruct (floor_ceiling_cases pos') as [[Hce' He'] | [Hce' [Hgt' Hlt']]].
      * exfalso. rewrite <- Heq in He'. lra.
      * unfold interpolate. rewrite Hce, Hce', <- Heq.
        assert (Hab : nth (Z.to_nat (Qfloor pos)) v 0
                      <= nth (Z.to_nat (Qfloor pos + 1)) v 0)
          by (apply sorted_nth_le; [exact Hs | lia | lia]).
        set (a := nth (Z.to_nat (Qfloor pos)) v 0) in *.
        set (b := nth (Z.to_nat (Qfloor pos + 1)) v 0) in *.
        nra.
  - assert (Hcf : (Qceiling pos <= Qfloor pos')%Z)
      by (destruct (floor_ceiling_cases pos) as [[He _] | [He _]]; lia).
    apply (Qle_trans _ (nth (Z.to_nat (Qceiling pos)) v 0)); [exact Hhi |].
    apply (Qle_trans _ (nth (Z.to_nat (Qfloor pos')) v 0)); [| exact Hlo'].
    apply sorted_nth_le; [exact Hs | lia | lia].
Qed.

(** Along a column without repeated values it grows strictly. *)
Lemma interpolate_strict (v : list Q) (pos pos' : Q) :
  StronglySorted Qlt v ->
  0 <= pos -> pos < pos' ->
  pos' <= inject_Z (Z.of_nat (List.length v) - 1) ->
  interpolate v pos < interpolate v pos'.
Proof.
  intros Hst H0 Hlt Hn.
  pose proof (sorted_lt_le v Hst) as Hs.
  assert (Hle : pos <= pos') by (apply Qlt_le_weak, Hlt).
  assert (H0' : 0 <= pos') by (apply (Qle_trans _ pos); assumption).
  assert (Hn' : pos <= inject_Z (Z.of_nat (List.length v) - 1))
    by (apply (Qle_trans _ pos'); assumption).
  destruct (neighbours_in_range _ _ H0 Hn') as [Hf [Hfc Hc]].
  destruct (neighbours_in_range _ _ H0' Hn) as [Hf' [Hfc' Hc']].
  pose proof (Qfloor_resp_le _ _ Hle) as Hff.
  destruct (interpolate_between v pos Hs H0 Hn') as [Hlo Hhi].
  destruct (interpolate_between v pos' Hs H0' Hn) as [Hlo' Hhi'].
  destruct (Z.eq_dec (Qfloor pos) (Qfloor pos')) as [Heq | Hne].
  - destruct (floor_ceiling_cases pos') as [[Hce' He'] | [Hce' [Hgt' Hlt']]].
    + exfalso. pose proof (Qfloor_le pos) as Hfl. rewrite Heq in Hfl. lra.
    + assert (Hab : nth (Z.to_nat (Qfloor pos)) v 0
                    < nth (Z.to_nat (Qfloor pos + 1)) v 0)
        by (apply sorted_nth_lt; [exact Hst | lia | lia]).
      pose proof (Qfloor_le pos) as Hfl.
      unfold interpolate at 2. rewrite Hce', <- Heq.
      rewrite <- Heq in Hgt', Hlt'.
      destruct (floor_ceiling_cases pos) as [[Hce He] | [Hce [Hgt Hlt2]]].
      * unfold interpolate. rewrite Hce.
        set (a := nth (Z.to_nat (Qfloor pos)) v 0) in *.
        set (b := nth (Z.to_nat (Qfloor pos + 1)) v 0) in *.
        nra.
      * unfold interpolate. rewrite Hce.
        set (a := nth (Z.to_nat (Qfloor pos)) v 0) in *.
        set (b := nth (Z.to_nat (Qfloor pos + 1)) v 0) in *.
        nra.
  - assert (Hcf : (Qceiling pos <= Qfloor pos')%Z)
      by (destruct (floor_ceiling_cases pos) as [[He _] | [He _]]; lia).
    apply (Qlt_le_trans _ (nth (Z.to_nat (Qfloor pos')) v 0)); [| exact Hlo'].
    destruct (Z.eq_dec (Qceiling pos) (Qfloor pos')) as [Hcq | Hcn].
    + destruct (floor_ceiling_cases pos) as [[Hce He] | [Hce [Hgt Hlt2]]];
        [lia |].
      assert (Hab : nth (Z.to_nat (Qfloor pos)) v 0
                    < nth (Z.to_nat (Qfloor pos + 1)) v 0)
        by (apply sorted_nth_lt; [exact Hst | lia | lia]).
      rewrite <- Hcq. unfold interpolate. rewrite Hce.
      set (a := nth (Z.to_nat (Qfloor pos)) v 0) in *.
      set (b := nth (Z.to_nat (Qfloor pos + 1)) v 0) in *.
      nra.
    + apply (Qle_lt_trans _ (nth (Z.to_nat (Qceiling pos)) v 0)); [exact Hhi |].
      apply sorted_nth_lt; [exact Hst | lia | lia].
Qed.

Lemma quantile_position (n : nat) (q : Q) :
  (1 <= n)%nat -> 0 <= q -> q <= 1 ->
  0 <= q * inject_Z (Z.of_nat n - 1)
  /\ q * inject_Z (Z.of_nat n - 1) <= inject_Z (Z.of_nat n - 1).
Proof.
  intros Hn H0 H1.
  assert (Hm : 0 <= inject_Z (Z.of_nat n - 1)).
  { change 0 with (inject_Z 0). rewrite <- Zle_Qle. lia. }
  set (m := inject_Z (Z.of_nat n - 1)) in *. split; nra.
Qed.

Lemma sort_values_nonempty (col : list Q) :
  col <> [] -> (1 <= List.length (sort_values col))%nat.
Proof.
  intros Hne. rewrite sort_values_length.
  destruct col; [congruence | simpl; lia].
Qed.

(** A quantile of a column lies between two of its values: it is at
    least the least one and at most the greatest one. *)
Lemma quantile_between (col : list Q) (q : Q) :
  col <> [] -> 0 <= q -> q <= 1 ->
  exists lo hi, In lo col /\ In hi col /\ lo <= quantile col q
                /\ quantile col q <= hi.
Proof.
  intros Hne H0 H1. rewrite quantile_interpolate.
  pose proof (sort_values_nonempty col Hne) as Hlen.
  destruct (quantile_position _ q Hlen H0 H1) as [Hp0 Hpn].
  destruct (neighbours_in_range _ _ Hp0 Hpn) as [Hf [Hfc Hc]].
  destruct (interpolate_between _ _ (sort_values_sorted col) Hp0 Hpn)
    as [Hlo Hhi].
  eexists. eexists. split; [| split; [| split; [exact Hlo | exact Hhi]]].
  - apply sort_values_In, nth_In. lia.
  - apply sort_values_In, nth_In. lia.
Qed.

(** Quantiles grow with their level. *)
Lemma quantile_monotone (col : list Q) (q q' : Q) :
  col <> [] -> 0 <= q -> q <= q' -> q' <= 1 ->
  quantile col q <= quantile col q'.
Proof.
  intros Hne H0 Hle H1. rewrite !quantile_interpolate.
  pose proof (sort_values_nonempty col Hne) as Hlen.
  assert (Hm : 0 <= inject_Z (Z.of_nat (List.length (sort_values col)) - 1)).
  { change 0 with (inject_Z 0). rewrite <- Zle_Qle. lia. }
  set (m := inject_Z (Z.of_nat (List.length (sort_values col)) - 1)) in *.
  apply interpolate_monotone; [apply sort_values_sorted | | |]; fold m; nra.
Qed.

End Interpolation.

(** ** The thresholds and the values they leave alone *)

Section Thresholds.

Import Pandas.

Lemma percentiles_in_order (col : list Q) :
  col <> [] -> quantile col (1 # 100) <= quantile col (99 # 100).
Proof.
  intros Hne. apply quantile_monotone; [exact Hne | | |];
    unfold Qle; simpl; lia.
Qed.

(** The limits lie outside the two percentiles. *)
Lemma thresholds_bracket (col : list Q) :
  col <> [] ->
  fst (ClvPrediction.outlier_thresholds col) <= quantile col (1 # 100)
  /\ quantile col (99 # 100) <= snd (ClvPrediction.outlier_thresholds col).
Proof.
  intros Hne. pose proof (percentiles_in_order col Hne) as Hle.
  unfold ClvPrediction.outlier_thresholds. simpl fst. simpl snd.
  set (q1 := quantile col (1 # 100)) in *.
  set (q3 := quantile col (99 # 100)) in *.
  split; lra.
Qed.

Lemma loc_set_nth_error {A : Type} (p : A -> bool) (upd : A -> A)
    (df : list A) (i : nat) (r : A) :
  nth_error df i = Some r ->
  nth_error (loc_set (map p df) upd df) i
  = Some (if p r then upd r else r).
Proof.
  intros Hr. rewrite loc_set_map, nth_error_map, Hr. reflexivity.
Qed.

(** X10: both clippers leave a value between the 1st and the 99th percentile
    of its column as it is, row and all; the lower limit is at most the
    1st percentile and the upper limit at least the 99th. *)
Theorem clippers_keep_central_values {A : Type} (get : A -> Q)
    (set : Q -> A -> A) (df : list A) (i : nat) (r : A) :
  nth_error df i = Some r ->
  quantile (map get df) (1 # 100) <= get r ->
  get r <= quantile (map get df) (99 # 100) ->
  nth_error (ClvPrediction.replace_with_thresholds get set df) i = Some r
  /\ nth_error (FloClv.replace_with_thresholds get set df) i = Some r
  /\ fst (FloClv.outlier_thresholds (map get df))
     <= quantile (map get df) (1 # 100)
  /\ quantile (map get df) (99 # 100)
     <= snd (ClvPrediction.outlier_thresholds (map get df)).
Proof.
  intros Hr Hlo Hhi.
  assert (Hne : map get df <> []).
  { destruct df; [destruct i; discriminate | discriminate]. }
  destruct (thresholds_bracket _ Hne) as [Hlow Hup].
  unfold ClvPrediction.replace_with_thresholds,
    FloClv.replace_with_thresholds.
  change (FloClv.outlier_thresholds (map get df))
    with (ClvPrediction.outlier_thresholds (map get df)) in *.
  destruct (ClvPrediction.outlier_thresholds (map get df)) as [low up] eqn:Ht.
  simpl fst in *. simpl snd in *.
  assert (Hnot_high : Qlt_bool up (get r) = false).
  { apply Qlt_bool_false_iff. apply (Qle_trans _ _ _ Hhi Hup). }
  assert (Hnot_low : Qlt_bool (get r) low = false).
  { apply Qlt_bool_false_iff. apply (Qle_trans _ _ _ Hlow Hlo). }
  split; [| split; [| split; assumption]].
  - rewrite (loc_set_nth_error _ _ _ _ _ Hr), Hnot_high. reflexivity.
  - erewrite loc_set_nth_error.
    + rewrite Hnot_high. reflexivity.
    + rewrite (loc_set_nth_error _ _ _ _ _ Hr), Hnot_low. reflexivity.
Qed.

Lemma clippers_keep_central_values_witness :
  nth_error
    (ClvPrediction.replace_with_thresholds column_get column_set
       Examples.one_outlier) 0 = Some (1 # 4)
  /\ nth_error
       (FloClv.replace_with_thresholds column_get column_set
          Examples.one_outlier) 0 = Some (1 # 4)
  /\ fst (FloClv.outlier_thresholds (map column_get Examples.one_outlier))
     <= quantile (map column_get Examples.one_outlier) (1 # 100)
  /\ quantile (map column_get Examples.one_outlier) (99 # 100)
     <= snd (ClvPrediction.outlier_thresholds
               (map column_get Examples.one_outlier)).
Proof.
  apply (clippers_keep_central_values column_get column_set
           Examples.one_outlier 0 (1 # 4)).
  - reflexivity.
  - vm_compute. discriminate.
  - vm_compute. discriminate.
Defined.

(** *** Positive columns stay positive *)

Lemma upper_limit_positive (col : list Q) :
  col <> [] -> (forall v, In v col -> 0 < v) ->
  0 < snd (ClvPrediction.outlier_thresholds col).
Proof.
  intros Hne Hpos.
  destruct (thresholds_bracket col Hne) as [_ Hup].
  destruct (quantile_between col (99 # 100) Hne) as [lo [hi [Hlo [_ [Hle _]]]]];
    try (unfold Qle; simpl; lia).
  specialize (Hpos lo Hlo).
  apply (Qlt_le_trans _ (quantile col (99 # 100))); [| exact Hup].
  apply (Qlt_le_trans _ lo); assumption.
Qed.

Lemma clip_keeps_positive {A : Type} (get : A -> Q) (set : Q -> A -> A)
    (df : list A) (r : A) :
  (forall v a, get (set v a) = v) ->
  (forall a, In a df -> 0 < get a) ->
  In r (ClvPrediction.replace_with_thresholds get set df) -> 0 < get r.
Proof.
  intros Hget Hpos Hr.
  destruct df as [| a0 df0] eqn:Hdf; [destruct Hr |]. rewrite <- Hdf in *.
  assert (Hne : map get df <> []) by (rewrite Hdf; discriminate).
  assert (Hup : 0 < snd (ClvPrediction.outlier_thresholds (map get df))).
  { apply upper_limit_positive; [exact Hne |].
    intros v Hv. apply in_map_iff in Hv. destruct Hv as [a [<- Ha]].
    apply Hpos, Ha. }
  unfold ClvPrediction.replace_with_thresholds in Hr.
  destruct (ClvPrediction.outlier_thresholds (map get df)) as [low up].
  simpl snd in Hup. rewrite loc_set_map in Hr.
  apply in_map_iff in Hr. destruct Hr as [a [<- Ha]].
  destruct (Qlt_bool up (get a)); [rewrite Hget; exact Hup | apply Hpos, Ha].
Qed.

Lemma In_map_same {A B : Type} (f : A -> B) (l l' : list A) (r : A) :
  map f l = map f l' -> In r l -> exists r', In r' l' /\ f r' = f r.
Proof.
  intros Hmap Hr. apply (in_map f) in Hr. rewrite Hmap in Hr.
  apply in_map_iff in Hr. destruct Hr as [r' [Heq Hr']]. eauto.
Qed.

(** After the preparation of [clv_prediction.py] every line has a
    positive quantity and a positive price. *)
Lemma data_preparation_positive (df : list OnlineRetail.row)
    (r : OnlineRetail.row) :
  In r (ClvPrediction.data_preparation df) ->
  0 < OnlineRetail.Quantity r /\ 0 < OnlineRetail.Price r.
Proof.
  unfold ClvPrediction.data_preparation.
  set (rows := filter (fun r => Qlt_bool 0 (OnlineRetail.Price r))
                 (filter (fun r => Qlt_bool 0 (OnlineRetail.Quantity r))
                    (OnlineRetail.drop_cancellations
                       (OnlineRetail.dropna df)))).
  assert (Hrows : forall a, In a rows ->
            0 < OnlineRetail.Quantity a /\ 0 < OnlineRetail.Price a).
  { intros a Ha. unfold rows in Ha.
    apply filter_In in Ha. destruct Ha as [Ha Hp].
    apply filter_In in Ha. destruct Ha as [_ Hq].
    split; apply Qlt_bool_iff; assumption. }
  set (clipped := ClvPrediction.replace_with_thresholds OnlineRetail.Quantity
                    OnlineRetail.set_Quantity rows).
  assert (Hq : forall a, In a clipped -> 0 < OnlineRetail.Quantity a).
  { intros a Ha.
    apply (clip_keeps_positive OnlineRetail.Quantity
             OnlineRetail.set_Quantity rows a); [reflexivity | | exact Ha].
    intros b Hb. apply Hrows, Hb. }
  assert (Hp : forall a, In a clipped -> 0 < OnlineRetail.Price a).
  { intros a Ha.
    destruct (In_map_same OnlineRetail.Price clipped rows a) as [b [Hb Heq]];
      [apply clv_thresholds_keep; reflexivity | exact Ha |].
    rewrite <- Heq. apply Hrows, Hb. }
  intros Hr. split.
  - destruct (In_map_same OnlineRetail.Quantity _ clipped r
                (clv_thresholds_keep OnlineRetail.Quantity OnlineRetail.Price
                   OnlineRetail.set_Price clipped (fun _ _ => eq_refl)) Hr)
      as [b [Hb Heq]].
    rewrite <- Heq. apply Hq, Hb.
  - apply (clip_keeps_positive OnlineRetail.Price OnlineRetail.set_Price
             clipped r); [reflexivity | exact Hp | exact Hr].
Qed.

Lemma series_sum_positive (l : list Q) :
  l <> [] -> (forall v, In v l -> 0 < v) -> 0 < series_sum l.
Proof.
  intros Hne Hpos. unfold series_sum. rewrite fold_left_Qplus.
  assert (H : 0 < fold_right Qplus 0 l).
  { induction l as [| x l IH]; [congruence |]. simpl.
    assert (Hx : 0 < x) by (apply Hpos; left; reflexivity).
    destruct l as [| y l].
    - simpl. lra.
    - assert (0 < fold_right Qplus 0 (y :: l)).
      { apply IH; [discriminate |]. intros v Hv. apply Hpos. right. exact Hv. }
      lra. }
  lra.
Qed.

Lemma Qdiv_positive (a : Q) (n : Z) : 0 < a -> (1 <= n)%Z -> 0 < a / inject_Z n.
Proof.
  intros Ha Hn. apply Qlt_shift_div_l.
  - change 0 with (inject_Z 0). rewrite <- Zlt_Qlt. lia.
  - lra.
Qed.

(** X11: every record that [clv_prediction.py] hands to the estimators has
    a strictly positive average order value and a recency that is not
    negative. *)
Theorem clv_df_monetary_positive (today : Z) (df : list OnlineRetail.row)
    (rec : ClvPrediction.clv_row) :
  In rec (ClvPrediction.clv_df_at today df) ->
  0 < ClvPrediction.monetary rec /\ 0 <= ClvPrediction.recency rec.
Proof.
  unfold ClvPrediction.clv_df_at, ClvPrediction.clv_df_of_rows.
  intros Hin. apply in_map_iff in Hin. destruct Hin as [a [<- Ha]].
  unfold ClvPrediction.repeat_customers in Ha.
  apply filter_In in Ha. destruct Ha as [Ha _].
  apply in_map_iff in Ha. destruct Ha as [a0 [<- Ha0]].
  unfold ClvPrediction.aggregate in Ha0.
  apply in_map_iff in Ha0. destruct Ha0 as [[k g] [<- Hg]].
  apply groupby_In in Hg. destruct Hg as [Hg Hne]. simpl.
  assert (Hrows : forall r, In r g -> In r (ClvPrediction.data_preparation df)).
  { intros r Hr. rewrite Hg in Hr. unfold rows_of in Hr.
    apply filter_In in Hr. tauto. }
  split.
  - apply Qdiv_positive.
    + apply series_sum_positive.
      * destruct g; [congruence | discriminate].
      * intros v Hv. apply in_map_iff in Hv. destruct Hv as [r [<- Hr]].
        destruct (data_preparation_positive df r (Hrows r Hr)) as [Hq Hp].
        unfold OnlineRetail.TotalPrice. nra.
    + apply nunique_positive. destruct g; [congruence | discriminate].
  - assert (Hdates : map OnlineRetail.InvoiceDate g <> [])
      by (destruct g; [congruence | discriminate]).
    destruct (series_max_spec _ Hdates) as [_ Hmax].
    destruct (series_min_spec _ Hdates) as [Hmin _].
    specialize (Hmax _ Hmin).
    assert (Hd : (0 <= days (series_max (map OnlineRetail.InvoiceDate g))
                       (series_min (map OnlineRetail.InvoiceDate g)))%Z).
    { unfold days, seconds_per_day. apply Z.div_pos; lia. }
    apply Qle_shift_div_l; [reflexivity |].
    rewrite Qmult_0_l. change 0 with (inject_Z 0). rewrite <- Zle_Qle.
    exact Hd.
Qed.

Lemma clv_df_monetary_positive_witness :
  0 < ClvPrediction.monetary
        (ClvPrediction.mkClv 42 (40 # 7) (42 # 7) 3 (46 # 6))
  /\ 0 <= ClvPrediction.recency
            (ClvPrediction.mkClv 42 (40 # 7) (42 # 7) 3 (46 # 6)).
Proof.
  apply (clv_df_monetary_positive Examples.retail_today Examples.retail).
  vm_compute. left. reflexivity.
Defined.

End Thresholds.

(** ** Columns without repeated values *)

Section Distinct.

Import Pandas.

Lemma pairwise_distinct_nth (l : list Q) :
  (forall i j a b, (i < j)%nat -> nth_error l i = Some a ->
     nth_error l j = Some b -> ~ a == b) ->
  pairwise_distinct l.
Proof.
  induction l as [| x l IH]; intros H; [constructor |].
  constructor.
  - apply Forall_forall. intros b Hb.
    apply In_nth_error in Hb. destruct Hb as [j Hj].
    apply (H 0%nat (S j)); [lia | reflexivity | exact Hj].
  - apply IH. intros i j a b Hij Ha Hb.
    apply (H (S i) (S j)); [lia | exact Ha | exact Hb].
Qed.

Lemma pairwise_distinct_cons (x : Q) (l : list Q) :
  pairwise_distinct (x :: l) ->
  (forall b, In b l -> ~ x == b) /\ pairwise_distinct l.
Proof.
  intros H. inversion H as [| ? ? Hall Hl]; subst.
  rewrite Forall_forall in Hall. split; assumption.
Qed.

Lemma insert_sorted_strict (x : Q) (l : list Q) :
  StronglySorted Qlt l -> (forall b, In b l -> ~ x == b) ->
  StronglySorted Qlt (insert_sorted x l).
Proof.
  induction l as [| z l IH]; simpl; intros Hs Hx.
  - constructor; constructor.
  - inversion Hs as [| ? ? Hs' Hall]; subst.
    assert (Hxz : ~ x == z) by (apply Hx; left; reflexivity).
    destruct (Qle_bool x z) eqn:Hle.
    + apply Qle_bool_iff in Hle.
      assert (Hlt : x < z).
      { apply Qle_lteq in Hle. destruct Hle as [Hlt | Heq]; [exact Hlt |].
        contradiction. }
      constructor; [exact Hs |].
      constructor; [exact Hlt |].
      eapply Forall_impl; [| exact Hall].
      intros w Hw. apply (Qlt_trans _ _ _ Hlt Hw).
    + assert (Hzx : z < x).
      { apply Qnot_le_lt. intros Hc. apply Qle_bool_iff in Hc. congruence. }
      constructor.
      * apply IH; [exact Hs' |]. intros b Hb. apply Hx. right. exact Hb.
      * apply Forall_forall. intros w Hw.
        apply insert_sorted_In in Hw. destruct Hw as [-> | Hw]; [exact Hzx |].
        rewrite Forall_forall in Hall. apply Hall, Hw.
Qed.

(** Sorting a column without repeated values gives strictly growing
    values. *)
Lemma sort_values_strict (l : list Q) :
  pairwise_distinct l -> StronglySorted Qlt (sort_values l).
Proof.
  induction l as [| x l IH]; intros Hd; simpl; [constructor |].
  apply pairwise_distinct_cons in Hd. destruct Hd as [Hx Hl].
  apply insert_sorted_strict; [apply IH, Hl |].
  intros b Hb. apply Hx. apply sort_values_In, Hb.
Qed.

Lemma strictly_sorted_nth (l : list Q) :
  (forall i j, (i < j)%nat -> (j < List.length l)%nat ->
     nth i l 0 < nth j l 0) ->
  StronglySorted Qlt l.
Proof.
  induction l as [| x l IH]; intros H; constructor.
  - apply IH. intros i j Hij Hj. apply (H (S i) (S j)); simpl; lia.
  - apply Forall_forall. intros w Hw.
    destruct (In_nth _ _ 0 Hw) as [j [Hj <-]].
    apply (H 0%nat (S j)); simpl; lia.
Qed.

Lemma filter_all {A : Type} (p : A -> bool) (l : list A) :
  (forall a, In a l -> p a = true) -> filter p l = l.
Proof.
  induction l as [| x l IH]; intros H; simpl; [reflexivity |].
  rewrite (H x) by (left; reflexivity).
  rewrite IH; [reflexivity |]. intros a Ha. apply H. right. exact Ha.
Qed.

Lemma filter_full_length {A : Type} (p : A -> bool) (l : list A) :
  List.length (filter p l) = List.length l ->
  forall a, In a l -> p a = true.
Proof.
  induction l as [| x l IH]; simpl; intros Hlen a Ha; [destruct Ha |].
  pose proof (filter_length_le p l) as Hle.
  destruct (p x) eqn:Hpx; simpl in Hlen; [| lia].
  destruct Ha as [<- | Ha]; [exact Hpx |]. apply IH; [lia | exact Ha].
Qed.

Lemma unique_In (l : list Q) (y : Q) : In y (unique l) -> In y l.
Proof.
  revert y. induction l as [| x l IH]; simpl; intros y Hy; [exact Hy |].
  destruct Hy as [-> | Hy]; [left; reflexivity |].
  apply filter_In in Hy. right. apply IH. tauto.
Qed.

(** [algos.unique] removes nothing from strictly growing edges ... *)
Lemma unique_strictly_sorted (l : list Q) :
  StronglySorted Qlt l -> unique l = l.
Proof.
  induction 1 as [| x l Hs IH Hall]; simpl; [reflexivity |].
  rewrite IH. rewrite filter_all; [reflexivity |].
  intros a Ha. rewrite Forall_forall in Hall.
  apply negb_true_iff. apply not_true_iff_false. intros Heq.
  apply Qeq_bool_iff in Heq. specialize (Hall a Ha).
  rewrite Heq in Hall. apply (Qlt_irrefl _ Hall).
Qed.

(** ... and when it removes nothing, no two edges are equal. *)
Lemma unique_full_distinct (l : list Q) :
  List.length (unique l) = List.length l -> pairwise_distinct l.
Proof.
  induction l as [| x l IH]; simpl; intros Hlen; [constructor |].
  pose proof (unique_length_le l) as Hle.
  pose proof (filter_length_le (fun y => negb (Qeq_bool x y)) (unique l))
    as Hfl.
  assert (Hu : List.length (unique l) = List.length l) by lia.
  assert (Hf : List.length (filter (fun y => negb (Qeq_bool x y)) (unique l))
               = List.length (unique l)) by lia.
  pose proof (filter_full_length _ _ Hf) as Hall.
  assert (Hsame : forall b, In b l -> exists b', In b' (unique l) /\ b' == b).
  { clear. induction l as [| z l IHl]; intros b Hb; [destruct Hb |].
    simpl. destruct Hb as [<- | Hb].
    - exists z. split; [left; reflexivity | reflexivity].
    - destruct (IHl b Hb) as [b' [Hb' Heq]].
      destruct (Qeq_bool z b') eqn:Hz.
      + apply Qeq_bool_iff in Hz. exists z.
        split; [left; reflexivity | rewrite Hz; exact Heq].
      + exists b'. split; [| exact Heq]. right. apply filter_In.
        split; [exact Hb' | rewrite Hz; reflexivity]. }
  constructor; [| apply IH, Hu].
  apply Forall_forall. intros b Hb Hxb.
  destruct (Hsame b Hb) as [b' [Hb' Heq]].
  specialize (Hall b' Hb'). apply negb_true_iff in Hall.
  apply Qeq_bool_neq in Hall. apply Hall. rewrite Heq. exact Hxb.
Qed.

Lemma pairwise_distinct_nth_neq (l : list Q) (i j : nat) :
  pairwise_distinct l -> (i < j)%nat -> (j < List.length l)%nat ->
  ~ nth i l 0 == nth j l 0.
Proof.
  intros Hd. revert i j.
  induction Hd as [| x l Hall Hd IH]; intros i j Hij Hj; [simpl in Hj; lia |].
  destruct j as [| j]; [lia |]. simpl in Hj.
  destruct i as [| i]; simpl.
  - rewrite Forall_forall in Hall. apply Hall, nth_In. lia.
  - apply IH; lia.
Qed.

(** The edges of [pd.qcut] on a column of at least two values, all
    different, grow strictly. *)
Lemma qcut_bins_strict (x : list Q) (q : nat) :
  (2 <= List.length x)%nat -> pairwise_distinct x -> (1 <= q)%nat ->
  StronglySorted Qlt (qcut_bins x q).
Proof.
  intros Hlen Hd Hq. apply strictly_sorted_nth.
  rewrite qcut_bins_length. intros i j Hij Hj.
  rewrite !qcut_bins_nth by lia. rewrite !quantile_interpolate.
  rewrite sort_values_length.
  assert (Hm : 1 <= inject_Z (Z.of_nat (List.length x) - 1)).
  { change 1 with (inject_Z 1). rewrite <- Zle_Qle. lia. }
  set (m := inject_Z (Z.of_nat (List.length x) - 1)) in *.
  assert (Hqpos : 0 < inject_Z (Z.of_nat q)).
  { change 0 with (inject_Z 0). rewrite <- Zlt_Qlt. lia. }
  assert (Hi0 : 0 <= inject_Z (Z.of_nat i) / inject_Z (Z.of_nat q)).
  { apply Qle_shift_div_l; [exact Hqpos |]. rewrite Qmult_0_l.
    change 0 with (inject_Z 0). rewrite <- Zle_Qle. lia. }
  assert (Hij' : inject_Z (Z.of_nat i) / inject_Z (Z.of_nat q)
                 < inject_Z (Z.of_nat j) / inject_Z (Z.of_nat q)).
  { apply Qlt_shift_div_l; [exact Hqpos |].
    unfold Qdiv. rewrite <- Qmult_assoc.
    rewrite (Qmult_comm (/ _)), Qmult_inv_r, Qmult_1_r
      by (intros Hz; rewrite Hz in Hqpos; apply (Qlt_irrefl _ Hqpos)).
    rewrite <- Zlt_Qlt. lia. }
  assert (Hj1 : inject_Z (Z.of_nat j) / inject_Z (Z.of_nat q) <= 1).
  { apply Qle_shift_div_r; [exact Hqpos |]. rewrite Qmult_1_l.
    rewrite <- Zle_Qle. lia. }
  set (a := inject_Z (Z.of_nat i) / inject_Z (Z.of_nat q)) in *.
  set (b := inject_Z (Z.of_nat j) / inject_Z (Z.of_nat q)) in *.
  apply interpolate_strict.
  - apply sort_values_strict, Hd.
  - nra.
  - nra.
  - rewrite sort_values_length. fold m. nra.
Qed.

(** [pd.qcut] returns on such a column, whatever the number of bins. *)
Lemma qcut_distinct_returns {L : Type} (x : list Q) (q : nat)
    (labels : list L) :
  (2 <= List.length x)%nat -> pairwise_distinct x -> (1 <= q)%nat ->
  List.length labels = q ->
  qcut x q labels = inr (map (cut_label (qcut_bins x q) labels) x).
Proof.
  intros Hlen Hd Hq Hlab. unfold qcut, bins_to_cuts, ret.
  rewrite (unique_strictly_sorted _ (qcut_bins_strict x q Hlen Hd Hq)).
  rewrite Nat.ltb_irrefl. cbn [andb].
  assert (Hone : (List.length labels =? List.length (qcut_bins x q) - 1)%nat
                 = true)
    by (rewrite qcut_bins_length, Hlab; apply Nat.eqb_eq; lia).
  rewrite Hone. reflexivity.
Qed.

End Distinct.

(** ** The ranks of [rank(method="first")] *)

Section RankValues.

Import Pandas.

Lemma filter_firstn_lt {A : Type} (p : A -> bool) (l : list A) (i j : nat)
    (a : A) :
  nth_error l i = Some a -> p a = true -> (i < j)%nat ->
  (List.length (filter p (firstn i l)) < List.length (filter p (firstn j l)))%nat.
Proof.
  revert i j. induction l as [| x l IH]; intros i j Ha Hp Hij.
  - destruct i; discriminate.
  - destruct j as [| j]; [lia |].
    destruct i as [| i].
    + injection Ha as ->. simpl. rewrite Hp. simpl. lia.
    + simpl in Ha. simpl.
      specialize (IH i j Ha Hp ltac:(lia)).
      destruct (p x); simpl; lia.
Qed.

Lemma filter_firstn_lt_all {A : Type} (p : A -> bool) (l : list A) (i : nat)
    (a : A) :
  nth_error l i = Some a -> p a = true ->
  (List.length (filter p (firstn i l)) < List.length (filter p l))%nat.
Proof.
  intros Ha Hp.
  assert (Hi : (i < List.length l)%nat) by (apply nth_error_Some; congruence).
  rewrite <- (firstn_all l) at 2.
  apply (filter_firstn_lt p l i (List.length l) a); assumption.
Qed.

Lemma Qeq_bool_refl (a : Q) : Qeq_bool a a = true.
Proof. apply Qeq_bool_iff. reflexivity. Qed.

(** A smaller value has a strictly smaller rank, and so has the earlier
    of two equal values. *)
Lemma first_rank_lt (col : list Q) (i j : nat) (a b : Q) :
  nth_error col i = Some a ->
  a < b \/ (a == b /\ (i < j)%nat) ->
  first_rank col i a < first_rank col j b.
Proof.
  intros Ha Hab. unfold first_rank. rewrite <- Zlt_Qlt.
  apply inj_lt, Nat.succ_lt_mono.
  destruct Hab as [Hlt | [Heq Hij]].
  - pose proof (filter_firstn_lt_all (Qeq_bool a) col i a Ha (Qeq_bool_refl a))
      as Hfirst.
    assert (Hsum :
      (List.length (filter (fun w => Qlt_bool w a) col)
       + List.length (filter (Qeq_bool a) col)
       <= List.length (filter (fun w => Qlt_bool w b) col))%nat).
    { apply filter_disjoint_length.
      - intros w Hw. apply Qlt_bool_iff in Hw. apply Qlt_bool_iff.
        apply (Qlt_trans _ _ _ Hw Hlt).
      - intros w Hw. apply Qeq_bool_iff in Hw. apply Qlt_bool_iff.
        rewrite <- Hw. exact Hlt.
      - intros w Hw He. apply Qlt_bool_iff in Hw. apply Qeq_bool_iff in He.
        rewrite He in Hw. apply (Qlt_irrefl _ Hw). }
    lia.
  - assert (Hlt :
      filter (fun w => Qlt_bool w a) col = filter (fun w => Qlt_bool w b) col).
    { apply filter_ext. intros w. unfold Qlt_bool. rewrite Heq. reflexivity. }
    assert (Hsame : filter (Qeq_bool b) (firstn j col)
                    = filter (Qeq_bool a) (firstn j col)).
    { apply filter_ext. intros w. rewrite Heq. reflexivity. }
    rewrite Hlt, Hsame.
    pose proof (filter_firstn_lt (Qeq_bool a) col i j a Ha (Qeq_bool_refl a)
                  Hij).
    lia.
Qed.

Lemma first_rank_bounds (col : list Q) (i : nat) (a : Q) :
  nth_error col i = Some a ->
  exists k : Z, first_rank col i a = inject_Z k
                /\ (1 <= k <= Z.of_nat (List.length col))%Z.
Proof.
  intros Ha. unfold first_rank. eexists. split; [reflexivity |].
  pose proof (filter_firstn_lt_all (Qeq_bool a) col i a Ha (Qeq_bool_refl a))
    as Hfirst.
  assert (Hsum :
    (List.length (filter (fun w => Qlt_bool w a) col)
     + List.length (filter (Qeq_bool a) col)
     <= List.length (filter (fun _ => true) col))%nat).
  { apply filter_disjoint_length; try reflexivity.
    intros w Hw He. apply Qlt_bool_iff in Hw. apply Qeq_bool_iff in He.
    rewrite He in Hw. apply (Qlt_irrefl _ Hw). }
  rewrite (filter_all (fun _ : Q => true)) in Hsum by reflexivity. lia.
Qed.

Lemma rank_first_nth_inv (col : list Q) (i : nat) (x : Q) :
  nth_error (rank_first col) i = Some x ->
  exists v, nth_error col i = Some v /\ x = first_rank col i v.
Proof.
  intros Hx.
  assert (Hi : (i < List.length col)%nat).
  { rewrite <- rank_first_length. apply nth_error_Some. congruence. }
  destruct (nth_error col i) as [v |] eqn:Hv;
    [| apply nth_error_None in Hv; lia].
  exists v. split; [reflexivity |].
  rewrite (rank_first_nth col i v Hv) in Hx. congruence.
Qed.

Lemma rank_first_distinct (col : list Q) : pairwise_distinct (rank_first col).
Proof.
  apply pairwise_distinct_nth. intros i j x y Hij Hx Hy Heq.
  destruct (rank_first_nth_inv _ _ _ Hx) as [a [Ha ->]].
  destruct (rank_first_nth_inv _ _ _ Hy) as [b [Hb ->]].
  destruct (Q_dec a b) as [[Hlt | Hgt] | Hab].
  - pose proof (first_rank_lt col i j a b Ha (or_introl Hlt)) as H.
    rewrite Heq in H. apply (Qlt_irrefl _ H).
  - pose proof (first_rank_lt col j i b a Hb (or_introl Hgt)) as H.
    rewrite Heq in H. apply (Qlt_irrefl _ H).
  - pose proof (first_rank_lt col i j a b Ha (or_intror (conj Hab Hij))) as H.
    rewrite Heq in H. apply (Qlt_irrefl _ H).
Qed.

(** X3: [rank(method="first")] numbers the rows of a column: the ranks are
    whole numbers between 1 and the number of rows, one per row, and no
    two rows share a rank, whatever ties the column holds. *)
Theorem rank_first_numbers_rows (col : list Q) :
  List.length (rank_first col) = List.length col
  /\ pairwise_distinct (rank_first col)
  /\ forall x, In x (rank_first col) ->
       exists k : Z, x = inject_Z k
                     /\ (1 <= k <= Z.of_nat (List.length col))%Z.
Proof.
  split; [apply rank_first_length |].
  split; [apply rank_first_distinct |].
  intros x Hx. apply In_nth_error in Hx. destruct Hx as [i Hi].
  destruct (rank_first_nth_inv _ _ _ Hi) as [a [Ha ->]].
  apply first_rank_bounds, Ha.
Qed.

(** X4: with two customers or more, the frequency scoring of the RFM
    pipelines never raises: the ranks it cuts are all different, so the
    six edges are. *)
Theorem frequency_scores_never_raise (col : list Q) :
  (2 <= List.length col)%nat ->
  exists fs,
    qcut (rank_first col) 5 RfmAnalytics.value_labels = inr fs
    /\ qcut (rank_first col) 5 FloRfm.value_labels = inr fs
    /\ List.length fs = List.length col
    /\ Forall (fun s => exists k, s = Some k /\ is_score k) fs.
Proof.
  intros Hlen.
  assert (Hr : (2 <= List.length (rank_first col))%nat)
    by (rewrite rank_first_length; exact Hlen).
  pose proof (qcut_distinct_returns (rank_first col) 5
                RfmAnalytics.value_labels Hr (rank_first_distinct col)
                ltac:(lia) eq_refl) as Hq.
  eexists. split; [exact Hq |]. split; [exact Hq |].
  split; [rewrite length_map; apply rank_first_length |].
  apply Forall_forall. intros s Hs.
  apply in_map_iff in Hs. destruct Hs as [v [<- Hv]].
  rewrite cut_label_in_range by (lia || exact Hv).
  pose proof (qcut_bin_in_range (rank_first col) 5 v ltac:(lia) Hv) as Hid.
  unfold RfmAnalytics.value_labels. rewrite value_label_nth by exact Hid.
  eexists. split; [reflexivity |]. unfold is_score. lia.
Qed.

Lemma frequency_scores_never_raise_witness :
  exists fs,
    qcut (rank_first [1; 1]) 5 RfmAnalytics.value_labels = inr fs
    /\ qcut (rank_first [1; 1]) 5 FloRfm.value_labels = inr fs
    /\ List.length fs = List.length [1; 1]
    /\ Forall (fun s => exists k, s = Some k /\ is_score k) fs.
Proof.
  apply (frequency_scores_never_raise [1; 1]). simpl. lia.
Defined.

End RankValues.

(** ** The labels of the extreme values *)

Section Extremes.

Import Pandas.

Lemma searchsorted_left_ge (bins : list Q) (v : Q) (k : nat) :
  (k <= List.length bins)%nat ->
  (forall j, (j < k)%nat -> nth j bins 0 < v) ->
  (k <= searchsorted_left bins v)%nat.
Proof.
  revert k. induction bins as [| b bins IH]; intros k Hk H; simpl in *;
    [lia |].
  destruct k as [| k]; [lia |].
  destruct (Qle_bool v b) eqn:Hb.
  - apply Qle_bool_iff in Hb. specialize (H 0%nat ltac:(lia)). simpl in H.
    exfalso. apply (Qlt_not_le _ _ H Hb).
  - apply le_n_S, IH; [lia |]. intros j Hj. apply (H (S j)). lia.
Qed.

Lemma level_in_unit (j q : nat) :
  (1 <= q)%nat -> (j <= q)%nat ->
  0 <= inject_Z (Z.of_nat j) / inject_Z (Z.of_nat q)
  /\ inject_Z (Z.of_nat j) / inject_Z (Z.of_nat q) <= 1.
Proof.
  intros Hq Hj.
  assert (Hqpos : 0 < inject_Z (Z.of_nat q)).
  { change 0 with (inject_Z 0). rewrite <- Zlt_Qlt. lia. }
  split.
  - apply Qle_shift_div_l; [exact Hqpos |]. rewrite Qmult_0_l.
    change 0 with (inject_Z 0). rewrite <- Zle_Qle. lia.
  - apply Qle_shift_div_r; [exact Hqpos |]. rewrite Qmult_1_l.
    rewrite <- Zle_Qle. lia.
Qed.

Lemma level_monotone (i j q : nat) :
  (1 <= q)%nat -> (i <= j)%nat ->
  inject_Z (Z.of_nat i) / inject_Z (Z.of_nat q)
  <= inject_Z (Z.of_nat j) / inject_Z (Z.of_nat q).
Proof.
  intros Hq Hij.
  assert (Hqpos : 0 < inject_Z (Z.of_nat q)).
  { change 0 with (inject_Z 0). rewrite <- Zlt_Qlt. lia. }
  apply Qle_shift_div_l; [exact Hqpos |].
  unfold Qdiv. rewrite <- Qmult_assoc.
  rewrite (Qmult_comm (/ _)), Qmult_inv_r, Qmult_1_r
    by (intros Hz; rewrite Hz in Hqpos; apply (Qlt_irrefl _ Hqpos)).
  rewrite <- Zle_Qle. lia.
Qed.

(** The edges of [pd.qcut] never decrease. *)
Lemma qcut_bins_monotone (x : list Q) (q i j : nat) :
  x <> [] -> (1 <= q)%nat -> (i <= j)%nat -> (j <= q)%nat ->
  nth i (qcut_bins x q) 0 <= nth j (qcut_bins x q) 0.
Proof.
  intros Hne Hq Hij Hj. rewrite !qcut_bins_nth by lia.
  apply quantile_monotone; [exact Hne | | |].
  - apply level_in_unit; lia.
  - apply level_monotone; assumption.
  - apply level_in_unit; lia.
Qed.

Lemma qcut_bins_last_greatest (x : list Q) (q : nat) (v : Q) :
  (1 <= q)%nat -> In v x -> (forall w, In w x -> w <= v) ->
  nth q (qcut_bins x q) 0 == v.
Proof.
  intros Hq Hv Hmax. apply Qle_antisym; [| apply qcut_bins_last; assumption].
  rewrite qcut_bins_nth by lia.
  assert (Hne : x <> []) by (intros ->; destruct Hv).
  destruct (level_in_unit q q Hq (Nat.le_refl q)) as [H0 H1].
  destruct (quantile_between x _ Hne H0 H1) as [lo [hi [_ [Hhi [_ Hle]]]]].
  apply (Qle_trans _ hi); [exact Hle | apply Hmax, Hhi].
Qed.

Lemma qcut_bins_first_least (x : list Q) (q : nat) (v : Q) :
  (1 <= q)%nat -> In v x -> (forall w, In w x -> v <= w) ->
  nth 0 (qcut_bins x q) 0 == v.
Proof.
  intros Hq Hv Hmin. apply Qle_antisym; [apply qcut_bins_first; assumption |].
  rewrite qcut_bins_nth by lia.
  assert (Hne : x <> []) by (intros ->; destruct Hv).
  destruct (level_in_unit 0 q Hq (Nat.le_0_l q)) as [H0 H1].
  destruct (quantile_between x _ Hne H0 H1) as [lo [hi [Hlo [_ [Hle _]]]]].
  apply (Qle_trans _ lo); [apply Hmin, Hlo | exact Hle].
Qed.

(** When [pd.qcut] returns, a greatest value of the column has the last
    label and a least value the first one. *)
Lemma qcut_extremes {L : Type} (x : list Q) (q : nat) (labels : list L)
    (out : list (option L)) (i : nat) (v : Q) :
  qcut x q labels = inr out -> (2 <= q)%nat -> nth_error x i = Some v ->
  ((forall w, In w x -> w <= v) ->
   nth_error out i = Some (nth_error labels (q - 1)))
  /\ ((forall w, In w x -> v <= w) ->
      nth_error out i = Some (nth_error labels 0)).
Proof.
  intros Hout Hq Hv.
  assert (Hin : In v x) by (eapply nth_error_In; exact Hv).
  assert (Hne : x <> []) by (intros ->; destruct Hin).
  destruct (qcut_inr _ _ _ _ Hout) as [Hu [Hlab ->]].
  rewrite nth_error_map, Hv. simpl.
  rewrite cut_label_in_range by (lia || exact Hin).
  split; intros Hext; do 2 f_equal.
  - assert (Hlast : nth q (qcut_bins x q) 0 == v)
      by (apply qcut_bins_last_greatest; (lia || assumption)).
    assert (Hd : pairwise_distinct (qcut_bins x q)).
    { apply unique_full_distinct. rewrite qcut_bins_length. apply Hu. lia. }
    assert (Hbelow : forall j, (j < q)%nat -> nth j (qcut_bins x q) 0 < v).
    { intros j Hj. rewrite <- Hlast.
      pose proof (qcut_bins_monotone x q j q Hne ltac:(lia) ltac:(lia)
                    (Nat.le_refl q)) as Hle.
      apply Qle_lteq in Hle. destruct Hle as [Hlt | Heq]; [exact Hlt |].
      exfalso.
      apply (pairwise_distinct_nth_neq _ j q Hd Hj); [| exact Heq].
      rewrite qcut_bins_length. lia. }
    unfold bin_id.
    destruct (Qeq_bool v (nth 0 (qcut_bins x q) 0)) eqn:Hfirst.
    + apply Qeq_bool_iff in Hfirst. specialize (Hbelow 0%nat ltac:(lia)).
      rewrite <- Hfirst in Hbelow. exfalso. apply (Qlt_irrefl _ Hbelow).
    + pose proof (searchsorted_left_ge (qcut_bins x q) v q) as Hge.
      rewrite qcut_bins_length in Hge.
      specialize (Hge ltac:(lia) Hbelow).
      pose proof (searchsorted_left_le_index (qcut_bins x q) v q) as Hle.
      rewrite qcut_bins_length in Hle.
      specialize (Hle ltac:(lia)).
      assert (Hvq : v <= nth q (qcut_bins x q) 0)
        by (rewrite Hlast; apply Qle_refl).
      specialize (Hle Hvq). lia.
  - assert (Hfirst : nth 0 (qcut_bins x q) 0 == v)
      by (apply qcut_bins_first_least; (lia || assumption)).
    unfold bin_id.
    assert (Hb : Qeq_bool v (nth 0 (qcut_bins x q) 0) = true)
      by (apply Qeq_bool_iff; rewrite Hfirst; reflexivity).
    rewrite Hb. reflexivity.
Qed.

End Extremes.

(** ** The scored tables of the RFM pipelines *)

Section ScoredTables.

Import Pandas.

Lemma rfm_scores_inv (rfm : list RfmAnalytics.rfm_row)
    (scored : list RfmAnalytics.scored_row) :
  RfmAnalytics.rfm_scores rfm = inr scored ->
  exists rs fs ms,
    qcut (map (fun r => inject_Z (RfmAnalytics.recency r)) rfm) 5
      RfmAnalytics.recency_labels = inr rs
    /\ qcut (rank_first (map (fun r => inject_Z (RfmAnalytics.frequency r)) rfm))
         5 RfmAnalytics.value_labels = inr fs
    /\ qcut (map RfmAnalytics.monetary rfm) 5 RfmAnalytics.value_labels
       = inr ms
    /\ scored = RfmAnalytics.zip_scores rfm rs fs ms.
Proof.
  unfold RfmAnalytics.rfm_scores, bind, ret.
  destruct (qcut (map (fun r => inject_Z (RfmAnalytics.recency r)) rfm) 5
              RfmAnalytics.recency_labels) as [e | rs]; [discriminate |].
  destruct (qcut
              (rank_first
                 (map (fun r => inject_Z (RfmAnalytics.frequency r)) rfm))
              5 RfmAnalytics.value_labels) as [e | fs]; [discriminate |].
  destruct (qcut (map RfmAnalytics.monetary rfm) 5 RfmAnalytics.value_labels)
    as [e | ms]; [discriminate |].
  intros H. injection H as <-. exists rs, fs, ms. auto.
Qed.

Lemma flo_scores_inv (rfm : list FloRfm.rfm_row)
    (scored : list FloRfm.scored_row) :
  FloRfm.rfm_scores rfm = inr scored ->
  exists rs fs ms,
    qcut (map (fun r => inject_Z (FloRfm.recency r)) rfm) 5
      FloRfm.recency_labels = inr rs
    /\ qcut (rank_first (map FloRfm.frequency rfm)) 5 FloRfm.value_labels
       = inr fs
    /\ qcut (map FloRfm.monetary rfm) 5 FloRfm.value_labels = inr ms
    /\ scored = FloRfm.zip_scores rfm rs fs ms.
Proof.
  unfold FloRfm.rfm_scores, bind, ret.
  destruct (qcut (map (fun r => inject_Z (FloRfm.recency r)) rfm) 5
              FloRfm.recency_labels) as [e | rs]; [discriminate |].
  destruct (qcut (rank_first (map FloRfm.frequency rfm)) 5
              FloRfm.value_labels) as [e | fs]; [discriminate |].
  destruct (qcut (map FloRfm.monetary rfm) 5 FloRfm.value_labels)
    as [e | ms]; [discriminate |].
  intros H. injection H as <-. exists rs, fs, ms. auto.
Qed.

(** A label written by [pd.qcut] with five labels is one of them. *)
Lemma qcut_value_score (x : list Q) (out : list (option Z)) (i : nat)
    (s : option Z) :
  qcut x 5 [1; 2; 3; 4; 5]%Z = inr out -> nth_error out i = Some s ->
  exists k, s = Some k /\ is_score k.
Proof.
  intros Hout Hs.
  assert (Hi : (i < List.length x)%nat).
  { rewrite <- (qcut_length _ _ _ _ Hout). apply nth_error_Some. congruence. }
  destruct (nth_error x i) as [a |] eqn:Ha;
    [| apply nth_error_None in Ha; lia].
  destruct (qcut_nth _ _ _ _ _ Hout Ha) as [Hid Hnth].
  rewrite Hnth in Hs. injection Hs as <-.
  rewrite value_label_nth by exact Hid.
  eexists. split; [reflexivity |]. unfold is_score. lia.
Qed.

Lemma qcut_recency_score (x : list Q) (out : list (option Z)) (i : nat)
    (s : option Z) :
  qcut x 5 [5; 4; 3; 2; 1]%Z = inr out -> nth_error out i = Some s ->
  exists k, s = Some k /\ is_score k.
Proof.
  intros Hout Hs.
  assert (Hi : (i < List.length x)%nat).
  { rewrite <- (qcut_length _ _ _ _ Hout). apply nth_error_Some. congruence. }
  destruct (nth_error x i) as [a |] eqn:Ha;
    [| apply nth_error_None in Ha; lia].
  destruct (qcut_nth _ _ _ _ _ Hout Ha) as [Hid Hnth].
  rewrite Hnth in Hs. injection Hs as <-.
  rewrite recency_label_nth by exact Hid.
  eexists. split; [reflexivity |]. unfold is_score. lia.
Qed.

(** Every row of a scored table carries three scores between 1 and 5. *)
Lemma rfm_scored_row (rfm : list RfmAnalytics.rfm_row)
    (scored : list RfmAnalytics.scored_row) (s : RfmAnalytics.scored_row) :
  RfmAnalytics.rfm_scores rfm = inr scored -> In s scored ->
  exists r f m,
    RfmAnalytics.recency_score s = Some r
    /\ RfmAnalytics.frequency_score s = Some f
    /\ RfmAnalytics.monetary_score s = Some m
    /\ is_score r /\ is_score f /\ is_score m.
Proof.
  intros Hscored Hs.
  destruct (rfm_scores_inv _ _ Hscored) as [rs [fs [ms [Hrs [Hfs [Hms ->]]]]]].
  apply In_nth_error in Hs. destruct Hs as [i Hi].
  destruct (rfm_zip_scores_nth _ _ _ _ _ _ Hi) as [_ [Hr [Hf Hm]]].
  destruct (qcut_recency_score _ _ _ _ Hrs Hr) as [r [Her Hsr]].
  destruct (qcut_value_score _ _ _ _ Hfs Hf) as [f [Hef Hsf]].
  destruct (qcut_value_score _ _ _ _ Hms Hm) as [m [Hem Hsm]].
  exists r, f, m. auto 10.
Qed.

Lemma flo_scored_row (rfm : list FloRfm.rfm_row)
    (scored : list FloRfm.scored_row) (s : FloRfm.scored_row) :
  FloRfm.rfm_scores rfm = inr scored -> In s scored ->
  exists r f m,
    FloRfm.recency_score s = Some r
    /\ FloRfm.frequency_score s = Some f
    /\ FloRfm.monetary_score s = Some m
    /\ is_score r /\ is_score f /\ is_score m.
Proof.
  intros Hscored Hs.
  destruct (flo_scores_inv _ _ Hscored) as [rs [fs [ms [Hrs [Hfs [Hms ->]]]]]].
  apply In_nth_error in Hs. destruct Hs as [i Hi].
  destruct (flo_zip_scores_nth _ _ _ _ _ _ Hi) as [_ [Hr [Hf Hm]]].
  destruct (qcut_recency_score _ _ _ _ Hrs Hr) as [r [Her Hsr]].
  destruct (qcut_value_score _ _ _ _ Hfs Hf) as [f [Hef Hsf]].
  destruct (qcut_value_score _ _ _ _ Hms Hm) as [m [Hem Hsm]].
  exists r, f, m. auto 10.
Qed.

(** X5: in a table scored by [rfm_analytics.py], a customer whose
    monetary value is the greatest of the table has monetary score 5 and
    one whose value is the least has score 1; the customer with the
    fewest days since the last purchase has recency score 5 and the one
    with the most has recency score 1. *)
Theorem extreme_customers_scores (rfm : list RfmAnalytics.rfm_row)
    (scored : list RfmAnalytics.scored_row) (i : nat)
    (x : RfmAnalytics.scored_row) :
  RfmAnalytics.rfm_scores rfm = inr scored ->
  nth_error scored i = Some x ->
  ((forall y, In y rfm ->
      RfmAnalytics.monetary y
      <= RfmAnalytics.monetary (RfmAnalytics.metrics x)) ->
   RfmAnalytics.monetary_score x = Some 5%Z)
  /\ ((forall y, In y rfm ->
         RfmAnalytics.monetary (RfmAnalytics.metrics x)
         <= RfmAnalytics.monetary y) ->
      RfmAnalytics.monetary_score x = Some 1%Z)
  /\ ((forall y, In y rfm ->
         (RfmAnalytics.recency (RfmAnalytics.metrics x)
          <= RfmAnalytics.recency y)%Z) ->
      RfmAnalytics.recency_score x = Some 5%Z)
  /\ ((forall y, In y rfm ->
         (RfmAnalytics.recency y
          <= RfmAnalytics.recency (RfmAnalytics.metrics x))%Z) ->
      RfmAnalytics.recency_score x = Some 1%Z).
Proof.
  intros Hscored Hx.
  destruct (rfm_scores_inv _ _ Hscored) as [rs [fs [ms [Hrs [Hfs [Hms ->]]]]]].
  destruct (rfm_zip_scores_nth _ _ _ _ _ _ Hx) as [Hmx [Hr [_ Hm]]].
  assert (Hmon : nth_error (map RfmAnalytics.monetary rfm) i
                 = Some (RfmAnalytics.monetary (RfmAnalytics.metrics x)))
    by (rewrite nth_error_map, Hmx; reflexivity).
  assert (Hrec : nth_error
                   (map (fun r => inject_Z (RfmAnalytics.recency r)) rfm) i
                 = Some (inject_Z
                           (RfmAnalytics.recency (RfmAnalytics.metrics x))))
    by (rewrite nth_error_map, Hmx; reflexivity).
  destruct (qcut_extremes _ _ _ _ _ _ Hms ltac:(lia) Hmon) as [Hmax Hmin].
  destruct (qcut_extremes _ _ _ _ _ _ Hrs ltac:(lia) Hrec) as [Hold Hnew].
  repeat split; intros Hall.
  - assert (H : nth_error ms i = Some (Some 5%Z)).
    { apply Hmax. intros w Hw. apply in_map_iff in Hw.
      destruct Hw as [y [<- Hy]]. apply Hall, Hy. }
    congruence.
  - assert (H : nth_error ms i = Some (Some 1%Z)).
    { apply Hmin. intros w Hw. apply in_map_iff in Hw.
      destruct Hw as [y [<- Hy]]. apply Hall, Hy. }
    congruence.
  - assert (H : nth_error rs i = Some (Some 5%Z)).
    { apply Hnew. intros w Hw. apply in_map_iff in Hw.
      destruct Hw as [y [<- Hy]]. rewrite <- Zle_Qle. apply Hall, Hy. }
    congruence.
  - assert (H : nth_error rs i = Some (Some 1%Z)).
    { apply Hold. intros w Hw. apply in_map_iff in Hw.
      destruct Hw as [y [<- Hy]]. rewrite <- Zle_Qle. apply Hall, Hy. }
    congruence.
Qed.

Lemma extreme_customers_scores_witness :
  RfmAnalytics.monetary_score
    (RfmAnalytics.mkScored (RfmAnalytics.mkRfm 5 50 1 25)
       (Some 1%Z) (Some 5%Z) (Some 5%Z)) = Some 5%Z
  /\ RfmAnalytics.recency_score
       (RfmAnalytics.mkScored (RfmAnalytics.mkRfm 5 50 1 25)
          (Some 1%Z) (Some 5%Z) (Some 5%Z)) = Some 1%Z.
Proof.
  destruct (extreme_customers_scores Examples.equal_frequency
           [ RfmAnalytics.mkScored (RfmAnalytics.mkRfm 1 10 1 5)
               (Some 5%Z) (Some 1%Z) (Some 1%Z);
             RfmAnalytics.mkScored (RfmAnalytics.mkRfm 2 20 1 10)
               (Some 4%Z) (Some 2%Z) (Some 2%Z);
             RfmAnalytics.mkScored (RfmAnalytics.mkRfm 3 30 1 15)
               (Some 3%Z) (Some 3%Z) (Some 3%Z);
             RfmAnalytics.mkScored (RfmAnalytics.mkRfm 4 40 1 20)
               (Some 2%Z) (Some 4%Z) (Some 4%Z);
             RfmAnalytics.mkScored (RfmAnalytics.mkRfm 5 50 1 25)
               (Some 1%Z) (Some 5%Z) (Some 5%Z) ]
           4
           (RfmAnalytics.mkScored (RfmAnalytics.mkRfm 5 50 1 25)
              (Some 1%Z) (Some 5%Z) (Some 5%Z)))
    as [Htop [_ [_ Hold]]].
  - vm_compute. reflexivity.
  - reflexivity.
  - split; [apply Htop | apply Hold];
      intros y [<- | [<- | [<- | [<- | [<- | []]]]]]; vm_compute;
      discriminate.
Defined.

End ScoredTables.

(** ** The segment column of the returned tables *)

Section Segments.

Import Pandas.

Ltac in_list := repeat first [left; reflexivity | right].

Ltac score_cases H :=
  destruct (is_score_cases _ H) as [-> | [-> | [-> | [-> | ->]]]].

(** The label written for a two-digit score is a label of the map. *)
Lemma score_label_in_map (r f : Z) :
  is_score r -> is_score f ->
  forall d, In d [RfmAnalytics.seg_map; RfmAnalytics.create_rfm_seg_map;
                  FloRfm.seg_map] ->
  In (replace_regex d (score_string r f)) (map snd d).
Proof.
  intros Hr Hf d Hd.
  score_cases Hr; score_cases Hf; destruct Hd as [<- | [<- | [<- | []]]];
    vm_compute; in_list.
Qed.

Lemma rfm_score_text (s : RfmAnalytics.scored_row) (r f : Z) :
  RfmAnalytics.recency_score s = Some r ->
  RfmAnalytics.frequency_score s = Some f ->
  RfmAnalytics.RFM_SCORE s = score_string r f.
Proof.
  intros Hr Hf. unfold RfmAnalytics.RFM_SCORE. rewrite Hr, Hf. reflexivity.
Qed.

Lemma flo_score_text (s : FloRfm.scored_row) (r f : Z) :
  FloRfm.recency_score s = Some r ->
  FloRfm.frequency_score s = Some f ->
  FloRfm.rf_score s = score_string r f.
Proof.
  intros Hr Hf. unfold FloRfm.rf_score. rewrite Hr, Hf. reflexivity.
Qed.

Lemma rfm_segmentation_label (d : list (string * string))
    (rfm : list RfmAnalytics.rfm_row) (scored : list RfmAnalytics.scored_row)
    (r : RfmAnalytics.segment_row) :
  In d [RfmAnalytics.seg_map; RfmAnalytics.create_rfm_seg_map;
        FloRfm.seg_map] ->
  RfmAnalytics.rfm_scores rfm = inr scored ->
  In r (RfmAnalytics.segmentation d scored) ->
  In (RfmAnalytics.segment r) (map snd d).
Proof.
  intros Hd Hscored Hr. unfold RfmAnalytics.segmentation in Hr.
  apply in_map_iff in Hr. destruct Hr as [s [<- Hs]]. simpl.
  destruct (rfm_scored_row _ _ _ Hscored Hs)
    as [a [b [_ [Ha [Hb [_ [Hsa [Hsb _]]]]]]]].
  rewrite (rfm_score_text s a b Ha Hb).
  apply score_label_in_map; assumption.
Qed.

(** X6: whenever one of the three RFM pipelines returns its table, the
    segment of every row is one of the ten labels of its map: no row keeps
    a bare score or a missing score as its segment. *)
Theorem segments_are_map_labels (today analysis : Z)
    (df : list OnlineRetail.row) (customers : list Flo.row) :
  (forall out r,
     RfmAnalytics.create_rfm_at today df = inr out -> In r out ->
     In (RfmAnalytics.segment r) (map snd RfmAnalytics.create_rfm_seg_map))
  /\ (forall out r,
        RfmAnalytics.script_rfm df = inr out -> In r out ->
        In (RfmAnalytics.segment r) (map snd RfmAnalytics.seg_map))
  /\ (forall out r,
        FloRfm.create_rfm_at analysis customers = inr out -> In r out ->
        In (FloRfm.segment r) (map snd FloRfm.seg_map)).
Proof.
  split; [| split]; intros out r Hout Hr.
  - unfold RfmAnalytics.create_rfm_at, bind, ret in Hout.
    destruct (RfmAnalytics.rfm_scores _) as [e | scored] eqn:Hs;
      [discriminate |].
    injection Hout as <-.
    apply (rfm_segmentation_label RfmAnalytics.create_rfm_seg_map _ _ _
             ltac:(in_list) Hs Hr).
  - unfold RfmAnalytics.script_rfm, bind, ret in Hout.
    destruct (RfmAnalytics.rfm_scores _) as [e | scored] eqn:Hs;
      [discriminate |].
    injection Hout as <-.
    apply (rfm_segmentation_label RfmAnalytics.seg_map _ _ _
             ltac:(in_list) Hs Hr).
  - unfold FloRfm.create_rfm_at, bind, ret in Hout.
    destruct (FloRfm.rfm_scores _) as [e | scored] eqn:Hs; [discriminate |].
    injection Hout as <-.
    apply in_map_iff in Hr. destruct Hr as [s [<- Hin]].
    cbn [FloRfm.segment].
    destruct (flo_scored_row _ _ _ Hs Hin)
      as [a [b [_ [Ha [Hb [_ [Hsa [Hsb _]]]]]]]].
    rewrite (flo_score_text s a b Ha Hb).
    apply score_label_in_map; [assumption | assumption | in_list].
Qed.

Lemma segments_are_map_labels_witness :
  In (RfmAnalytics.segment
        (RfmAnalytics.mkSegment (RfmAnalytics.mkRfm 42 2 3 (46 # 2))
           "champions"))
    (map snd RfmAnalytics.create_rfm_seg_map)
  /\ (forall r, In r Scenarios.flo_rfm ->
        In (FloRfm.segment r) (map snd FloRfm.seg_map)).
Proof.
  destruct (segments_are_map_labels Examples.retail_today Flo.analysis_date
              Examples.retail Examples.flo) as [Hrfm [_ Hflo]].
  split.
  - apply (Hrfm [ RfmAnalytics.mkSegment (RfmAnalytics.mkRfm 7 12 1 (20 # 2))
                    "hibernating";
                  RfmAnalytics.mkSegment (RfmAnalytics.mkRfm 42 2 3 (46 # 2))
                    "champions" ]).
    + vm_compute. reflexivity.
    + right. left. reflexivity.
  - intros r Hr. apply (Hflo Scenarios.flo_rfm r); [| exact Hr].
    vm_compute. reflexivity.
Defined.

(** *** The export of the new customers *)

Lemma new_customers_rule (r f : Z) :
  is_score r -> is_score f ->
  replace_regex RfmAnalytics.seg_map (score_string r f)
  = "new_customers"%string
  <-> r = 5%Z /\ f = 1%Z.
Proof.
  intros Hr Hf.
  score_cases Hr; score_cases Hf; vm_compute;
    (split; [intros H; first [discriminate H | split; reflexivity]
            | intros [H1 H2]; first [reflexivity | discriminate]]).
Qed.

(** X7: the list exported to [new_customers.csv] holds exactly the
    customers with recency score 5 and frequency score 1. *)
Theorem new_customers_are_score_51 (rfm : list RfmAnalytics.rfm_row)
    (scored : list RfmAnalytics.scored_row) (c : Z) :
  RfmAnalytics.rfm_scores rfm = inr scored ->
  In c (RfmExport.new_customer_id
          (RfmAnalytics.segmentation RfmAnalytics.seg_map scored))
  <-> exists s,
        In s scored
        /\ RfmAnalytics.customer_id (RfmAnalytics.metrics s) = c
        /\ RfmAnalytics.recency_score s = Some 5%Z
        /\ RfmAnalytics.frequency_score s = Some 1%Z.
Proof.
  intros Hscored. unfold RfmExport.new_customer_id, RfmAnalytics.segmentation.
  split.
  - intros Hc. apply in_map_iff in Hc. destruct Hc as [r [<- Hr]].
    apply filter_In in Hr. destruct Hr as [Hr Hseg].
    apply String.eqb_eq in Hseg.
    apply in_map_iff in Hr. destruct Hr as [s [<- Hs]]. simpl in *.
    destruct (rfm_scored_row _ _ _ Hscored Hs)
      as [a [b [_ [Ha [Hb [_ [Hsa [Hsb _]]]]]]]].
    rewrite (rfm_score_text s a b Ha Hb) in Hseg.
    apply new_customers_rule in Hseg; [| assumption | assumption].
    destruct Hseg as [-> ->]. exists s. auto.
  - intros [s [Hs [<- [Hr Hf]]]].
    apply in_map_iff.
    exists (RfmAnalytics.mkSegment (RfmAnalytics.metrics s)
              (replace_regex RfmAnalytics.seg_map (RfmAnalytics.RFM_SCORE s))).
    split; [reflexivity |]. apply filter_In. split.
    + apply in_map_iff. exists s. auto.
    + simpl. rewrite (rfm_score_text s 5 1 Hr Hf). reflexivity.
Qed.

Lemma new_customers_are_score_51_witness :
  In 1%Z
    (RfmExport.new_customer_id
       (RfmAnalytics.segmentation RfmAnalytics.seg_map
          [ RfmAnalytics.mkScored (RfmAnalytics.mkRfm 1 10 1 5)
              (Some 5%Z) (Some 1%Z) (Some 1%Z);
            RfmAnalytics.mkScored (RfmAnalytics.mkRfm 2 20 1 10)
              (Some 4%Z) (Some 2%Z) (Some 2%Z);
            RfmAnalytics.mkScored (RfmAnalytics.mkRfm 3 30 1 15)
              (Some 3%Z) (Some 3%Z) (Some 3%Z);
            RfmAnalytics.mkScored (RfmAnalytics.mkRfm 4 40 1 20)
              (Some 2%Z) (Some 4%Z) (Some 4%Z);
            RfmAnalytics.mkScored (RfmAnalytics.mkRfm 5 50 1 25)
              (Some 1%Z) (Some 5%Z) (Some 5%Z) ]))
  <-> exists s,
        In s
          [ RfmAnalytics.mkScored (RfmAnalytics.mkRfm 1 10 1 5)
              (Some 5%Z) (Some 1%Z) (Some 1%Z);
            RfmAnalytics.mkScored (RfmAnalytics.mkRfm 2 20 1 10)
              (Some 4%Z) (Some 2%Z) (Some 2%Z);
            RfmAnalytics.mkScored (RfmAnalytics.mkRfm 3 30 1 15)
              (Some 3%Z) (Some 3%Z) (Some 3%Z);
            RfmAnalytics.mkScored (RfmAnalytics.mkRfm 4 40 1 20)
              (Some 2%Z) (Some 4%Z) (Some 4%Z);
            RfmAnalytics.mkScored (RfmAnalytics.mkRfm 5 50 1 25)
              (Some 1%Z) (Some 5%Z) (Some 5%Z) ]
        /\ RfmAnalytics.customer_id (RfmAnalytics.metrics s) = 1%Z
        /\ RfmAnalytics.recency_score s = Some 5%Z
        /\ RfmAnalytics.frequency_score s = Some 1%Z.
Proof.
  apply (new_customers_are_score_51 Examples.equal_frequency).
  vm_compute. reflexivity.
Defined.

End Segments.

(** ** The table of [flo_rfm.py] and its two target lists *)

Section FloTable.

Import Pandas.

Lemma flo_zip_scores_metrics (rfm : list FloRfm.rfm_row)
    (rs fs ms : list (option Z)) :
  List.length rs = List.length rfm ->
  List.length fs = List.length rfm ->
  List.length ms = List.length rfm ->
  map FloRfm.metrics (FloRfm.zip_scores rfm rs fs ms) = rfm.
Proof.
  revert rs fs ms.
  induction rfm as [| x rfm IH]; intros [| r rs] [| f fs] [| m ms];
    simpl; try discriminate; auto.
  intros Hr Hf Hm. f_equal. apply IH; lia.
Qed.

Lemma flo_scores_metrics (rfm : list FloRfm.rfm_row)
    (scored : list FloRfm.scored_row) :
  FloRfm.rfm_scores rfm = inr scored -> map FloRfm.metrics scored = rfm.
Proof.
  intros Hscored.
  destruct (flo_scores_inv _ _ Hscored) as [rs [fs [ms [Hrs [Hfs [Hms ->]]]]]].
  apply qcut_length in Hrs, Hfs, Hms.
  rewrite rank_first_length in Hfs. rewrite length_map in *.
  apply flo_zip_scores_metrics; assumption.
Qed.

Lemma flo_create_rfm_metrics (analysis : Z) (df : list Flo.row)
    (out : list FloRfm.segment_row) :
  FloRfm.create_rfm_at analysis df = inr out ->
  map FloRfm.seg_metrics out = FloRfm.rfm_metrics analysis df.
Proof.
  unfold FloRfm.create_rfm_at, bind, ret.
  destruct (FloRfm.rfm_scores _) as [e | scored] eqn:Hs; [discriminate |].
  intros H. injection H as <-. rewrite map_map. simpl.
  apply flo_scores_metrics, Hs.
Qed.

Lemma flo_create_rfm_ids (analysis : Z) (df : list Flo.row)
    (out : list FloRfm.segment_row) :
  FloRfm.create_rfm_at analysis df = inr out ->
  map (fun r => FloRfm.customer_id (FloRfm.seg_metrics r)) out
  = map Flo.master_id df.
Proof.
  intros Hout.
  rewrite <- (map_map FloRfm.seg_metrics FloRfm.customer_id).
  rewrite (flo_create_rfm_metrics _ _ _ Hout).
  unfold FloRfm.rfm_metrics. rewrite map_map. reflexivity.
Qed.

(** X8: when [create_rfm] of [flo_rfm.py] returns, its table has one row
    per row of the customer table, in the same order and under the same
    id: recency is the whole days from the last order to the analysis
    date, frequency and monetary the two totals.  No customer is
    filtered out. *)
Theorem flo_create_rfm_keeps_every_customer (analysis : Z)
    (df : list Flo.row) (out : list FloRfm.segment_row) :
  FloRfm.create_rfm_at analysis df = inr out ->
  List.length out = List.length df
  /\ map (fun r => FloRfm.customer_id (FloRfm.seg_metrics r)) out
     = map Flo.master_id df
  /\ forall i r c,
       nth_error out i = Some r -> nth_error df i = Some c ->
       whole_days (FloRfm.recency (FloRfm.seg_metrics r))
         (Flo.last_order_date c) analysis
       /\ FloRfm.frequency (FloRfm.seg_metrics r) = Flo.order_num_total c
       /\ FloRfm.monetary (FloRfm.seg_metrics r) = Flo.customer_value_total c.
Proof.
  intros Hout.
  pose proof (flo_create_rfm_metrics _ _ _ Hout) as Hm.
  split; [| split].
  - apply (f_equal (@List.length _)) in Hm.
    unfold FloRfm.rfm_metrics in Hm. rewrite !length_map in Hm. exact Hm.
  - apply flo_create_rfm_ids with (analysis := analysis), Hout.
  - intros i r c Hr Hc.
    assert (H : nth_error (map FloRfm.seg_metrics out) i
                = Some (FloRfm.seg_metrics r))
      by (rewrite nth_error_map, Hr; reflexivity).
    rewrite Hm in H. unfold FloRfm.rfm_metrics in H.
    rewrite nth_error_map, Hc in H. injection H as H. rewrite <- H. simpl.
    split; [apply days_whole | split; reflexivity].
Qed.

Lemma flo_create_rfm_keeps_every_customer_witness :
  List.length Scenarios.flo_rfm = List.length Examples.flo
  /\ map (fun r => FloRfm.customer_id (FloRfm.seg_metrics r))
       Scenarios.flo_rfm
     = map Flo.master_id Examples.flo
  /\ forall i r c,
       nth_error Scenarios.flo_rfm i = Some r ->
       nth_error Examples.flo i = Some c ->
       whole_days (FloRfm.recency (FloRfm.seg_metrics r))
         (Flo.last_order_date c) Flo.analysis_date
       /\ FloRfm.frequency (FloRfm.seg_metrics r) = Flo.order_num_total c
       /\ FloRfm.monetary (FloRfm.seg_metrics r) = Flo.customer_value_total c.
Proof.
  apply (flo_create_rfm_keeps_every_customer Flo.analysis_date Examples.flo
           Scenarios.flo_rfm).
  vm_compute. reflexivity.
Defined.

Lemma isin_In (values : list string) (cell : string) :
  FloTargets.isin values cell = true <-> In cell values.
Proof.
  unfold FloTargets.isin. rewrite existsb_exists. split.
  - intros [x [Hx Heq]]. apply String.eqb_eq in Heq. subst. exact Hx.
  - intros Hin. exists cell. split; [exact Hin | apply String.eqb_refl].
Qed.

Lemma target_segment_In (segments : list string)
    (rfm : list FloRfm.segment_row) (id : string) :
  In id (FloTargets.target_segment_customer_ids segments rfm)
  <-> exists r, In r rfm
                /\ FloRfm.customer_id (FloRfm.seg_metrics r) = id
                /\ In (FloRfm.segment r) segments.
Proof.
  unfold FloTargets.target_segment_customer_ids.
  rewrite in_map_iff. split.
  - intros [r [Hid Hr]]. apply filter_In in Hr. destruct Hr as [Hr Hs].
    apply isin_In in Hs. eauto.
  - intros [r [Hr [Hid Hs]]]. exists r. split; [exact Hid |].
    apply filter_In. split; [exact Hr | apply isin_In, Hs].
Qed.

(** X9: with one row per customer id, the two target lists of
    [flo_rfm.py] never share a customer: the new-brand list is drawn from
    champions and loyal customers, the discount list from three other
    segments. *)
Theorem target_lists_are_disjoint (analysis : Z)
    (df : list FloTargets.customer) (rfm : list FloRfm.segment_row)
    (id : string) :
  FloRfm.create_rfm_at analysis (map FloTargets.profile df) = inr rfm ->
  NoDup (map (fun c => Flo.master_id (FloTargets.profile c)) df) ->
  In id (FloTargets.customer_ids rfm df) ->
  ~ In id (FloTargets.cust_ids rfm df).
Proof.
  intros Hrfm Hnd Ha Hb.
  assert (Hids : NoDup (map (fun r => FloRfm.customer_id (FloRfm.seg_metrics r))
                          rfm)).
  { rewrite (flo_create_rfm_ids _ _ _ Hrfm), map_map. exact Hnd. }
  unfold FloTargets.customer_ids in Ha. unfold FloTargets.cust_ids in Hb.
  apply in_map_iff in Ha. destruct Ha as [ca [Hida Hca]].
  apply in_map_iff in Hb. destruct Hb as [cb [Hidb Hcb]].
  apply filter_In in Hca. destruct Hca as [_ Hca].
  apply filter_In in Hcb. destruct Hcb as [_ Hcb].
  apply andb_true_iff in Hca. destruct Hca as [Hca _].
  apply andb_true_iff in Hcb. destruct Hcb as [Hcb _].
  apply isin_In, target_segment_In in Hca.
  apply isin_In, target_segment_In in Hcb.
  destruct Hca as [ra [Hra [Hia Hsa]]].
  destruct Hcb as [rb [Hrb [Hib Hsb]]].
  assert (Heq : ra = rb).
  { apply (NoDup_map_injective
             (fun r => FloRfm.customer_id (FloRfm.seg_metrics r)) rfm);
      try assumption.
    congruence. }
  subst rb.
  simpl in Hsa, Hsb.
  destruct Hsa as [Hsa | [Hsa | []]];
    destruct Hsb as [Hsb | [Hsb | [Hsb | []]]];
    rewrite <- Hsa in Hsb; discriminate Hsb.
Qed.

Lemma target_lists_are_disjoint_witness :
  ~ In "e5"%string (FloTargets.cust_ids Scenarios.flo_rfm Scenarios.flo_profiles).
Proof.
  apply (target_lists_are_disjoint Flo.analysis_date Scenarios.flo_profiles
           Scenarios.flo_rfm "e5").
  - vm_compute. reflexivity.
  - vm_compute. repeat constructor; simpl; intuition discriminate.
  - vm_compute. left. reflexivity.
Defined.

End FloTable.

(** ** clv.py: the table of [create_clv_segment] *)

Section ClvTable.

Import Pandas ClvSegment.

Lemma shape0_positive {A : Type} (table : list A) :
  table <> [] -> 0 < shape0 table.
Proof.
  intros Hne. unfold shape0. change 0 with (inject_Z 0).
  rewrite <- Zlt_Qlt. destruct table; [congruence | simpl; lia].
Qed.



(** The churn rate is zero exactly when every customer has more than one
    invoice. *)
Lemma churn_rate_zero (cltv_c : list agg_row) :
  cltv_c <> [] ->
  churn_rate cltv_c == 0
  <-> forall a, In a cltv_c -> (1 < agg_transaction a)%Z.
Proof.
  intros Hne. unfold churn_rate, repeat_rate.
  pose proof (shape0_positive cltv_c Hne) as Hn.
  set (p := fun a => (1 <? agg_transaction a)%Z).
  assert (Hiff : shape0 (filter p cltv_c) / shape0 cltv_c == 1
                 <-> List.length (filter p cltv_c) = List.length cltv_c).
  { split.
    - intros H.
      assert (Heq : shape0 (filter p cltv_c) == shape0 cltv_c).
      { rewrite <- (Qmult_div_r (shape0 (filter p cltv_c)) (shape0 cltv_c))
          at 1 by lra.
        rewrite H. ring. }
      unfold shape0 in Heq.
      apply (proj1 (inject_Z_injective _ _)) in Heq. lia.
    - intros H. unfold shape0. rewrite H.
      apply Qmult_inv_r. fold (shape0 cltv_c). lra. }
  split.
  - intros H a Ha. apply Z.ltb_lt.
    apply (filter_full_length p cltv_c); [| exact Ha].
    apply Hiff. lra.
  - intros H.
    assert (Hall : filter p cltv_c = cltv_c).
    { apply filter_all. intros a Ha. apply Z.ltb_lt, H, Ha. }
    assert (H1 : shape0 (filter p cltv_c) / shape0 cltv_c == 1)
      by (apply Hiff; rewrite Hall; reflexivity).
    lra.
Qed.


Lemma clv_prepared_customer (df : list OnlineRetail.row)
    (r : OnlineRetail.row) :
  In r (Clv.data_preparation df) -> OnlineRetail.CustomerID r <> None.
Proof.
  unfold Clv.data_preparation, OnlineRetail.dropna. intros H.
  apply filter_In in H. destruct H as [_ H].
  destruct (OnlineRetail.Description r); [| discriminate].
  destruct (OnlineRetail.CustomerID r); [discriminate | discriminate].
Qed.














(** X18: [create_clv_segment] stops on a division by zero exactly when no
    line survives the preparation, and it divides by a churn rate of zero
    exactly when there are customers and each of them has more than one
    invoice. *)
Theorem create_clv_segment_divisions (profit : Q)
    (df : list OnlineRetail.row) :
  (create_clv_segment profit df = inl ZeroDivisionError
   <-> Clv.data_preparation df = [])
  /\ (create_clv_segment profit df = inl Infinite_cltv
      <-> Clv.data_preparation df <> []
          /\ forall a, In a (aggregate (Clv.data_preparation df)) ->
                       (1 < agg_transaction a)%Z).
Proof.
  assert (Hempty : aggregate (Clv.data_preparation df) = []
                   <-> Clv.data_preparation df = []).
  { split.
    - intros Hagg.
      destruct (Clv.data_preparation df) as [| r rows] eqn:Hrows;
        [reflexivity |].
      exfalso.
      assert (Hr : In r (Clv.data_preparation df))
        by (rewrite Hrows; left; reflexivity).
      pose proof (clv_prepared_customer df r Hr) as Hc.
      destruct (OnlineRetail.CustomerID r) as [c |] eqn:Hid; [| congruence].
      assert (Hg : In (c, rows_of OnlineRetail.CustomerID c (r :: rows))
                     (groupby OnlineRetail.CustomerID (r :: rows))).
      { apply groupby_In. split; [reflexivity |].
        unfold rows_of. simpl. rewrite Hid, Z.eqb_refl. discriminate. }
      unfold aggregate in Hagg. apply map_eq_nil in Hagg.
      rewrite Hagg in Hg. destruct Hg.
    - intros ->. reflexivity. }
  unfold create_clv_segment.
  set (cltv_c := aggregate (Clv.data_preparation df)) in *.
  split.
  - rewrite <- Hempty.
    destruct cltv_c as [| a cltv_c'] eqn:Hc; simpl.
    + split; reflexivity.
    + rewrite <- Hc.
      destruct (Qeq_bool (churn_rate cltv_c) 0);
        [split; [discriminate | rewrite Hc; discriminate] |].
      destruct (qcut _ 4 segment_labels);
        split; try discriminate; rewrite Hc; discriminate.
  - destruct (List.length cltv_c =? 0)%nat eqn:Hlen.
    + apply Nat.eqb_eq in Hlen. apply length_zero_iff_nil in Hlen.
      split; [discriminate |]. intros [Hne _]. apply Hempty in Hlen.
      contradiction.
    + assert (Hne : cltv_c <> []).
      { intros Hnil. rewrite Hnil in Hlen. discriminate. }
      assert (Hrows : Clv.data_preparation df <> []).
      { intros Hnil. apply Hne, Hempty, Hnil. }
      pose proof (churn_rate_zero cltv_c Hne) as Hz.
      destruct (Qeq_bool (churn_rate cltv_c) 0) eqn:Hchurn.
      * apply Qeq_bool_iff in Hchurn. split; [| reflexivity].
        intros _. split; [exact Hrows | apply Hz, Hchurn].
      * apply Qeq_bool_neq in Hchurn.
        split.
        -- destruct (qcut _ 4 segment_labels); discriminate.
        -- intros [_ Hall]. exfalso. apply Hchurn, Hz, Hall.
Qed.

End ClvTable.

(** *** The rows and the segments of the table *)

Section ClvRows.

Import Pandas ClvSegment.









End ClvRows.

(** ** The filter on the invoice id *)

Section InvoiceFilter.

Import Pandas OnlineRetail.

(** A one-character pattern is found in a text exactly when the character
    occurs in it. *)
Lemma search_literal (c : ascii) (l : list ascii) :
  Re.search_from [Re.Lit c] l = true <-> In c l.
Proof.
  induction l as [| x l IH]; simpl.
  - split; [discriminate | tauto].
  - rewrite orb_true_iff, andb_true_iff, IH. unfold Re.is_char.
    rewrite Ascii.eqb_eq. intuition.
Qed.

(** X1: the filter [~Invoice.str.contains("C", na=False)] drops a line
    exactly when its invoice id holds a capital C, wherever it stands;
    every other line is kept. *)
Theorem cancellation_filter_drops_any_C (df : list row) (r : row) :
  In r (drop_cancellations df) <-> In r df /\ ~ has_char "C" (Invoice r).
Proof.
  unfold drop_cancellations, has_char. rewrite filter_In.
  assert (H : str_contains "C" (Invoice r) = true
              <-> In "C"%char (list_ascii_of_string (Invoice r))).
  { unfold str_contains. change (Re.compile "C") with (Some [Re.Lit "C"%char]).
    unfold Re.search. apply search_literal. }
  rewrite negb_true_iff. rewrite <- H.
  destruct (str_contains "C" (Invoice r)); intuition congruence.
Qed.

End InvoiceFilter.

(** ** The index of the table of [create_rfm] *)

Section RfmIndex.

Import Pandas OnlineRetail RfmAnalytics.







End RfmIndex.

(** ** flo_clv.py: what [create_clv_df] hands to the estimators *)

Section FloRecords.

Import Pandas Flo FloClv.

(** X13: every record that [create_clv_df] hands to the estimators has
    more than one order and an average order value different from zero:
    a customer whose total value is zero passes the exclusion filter only
    with an order count of zero, and falls at [frequency > 1]. *)
Theorem create_clv_df_monetary_nonzero (analysis : Z) (df : list row)
    (rec : clv_row) :
  In rec (create_clv_df_at analysis df) ->
  1 < frequency rec /\ ~ monetary_clv_avg rec == 0.
Proof.
  unfold create_clv_df_at. intros Hin.
  apply filter_In in Hin. destruct Hin as [Hin Hfreq].
  apply Qlt_bool_iff in Hfreq. split; [exact Hfreq |].
  unfold clv_parameters in Hin. apply in_map_iff in Hin.
  destruct Hin as [r [<- Hr]]. simpl in *.
  unfold exclusion_filter in Hr. apply filter_In in Hr.
  destruct Hr as [_ Hkeep]. apply orb_true_iff in Hkeep.
  assert (Hnum : ~ order_num_total r == 0) by lra.
  destruct Hkeep as [Hval | Hzero].
  - apply negb_true_iff, Qeq_bool_neq in Hval.
    intros Hq. apply Hval.
    rewrite <- (Qmult_div_r (customer_value_total r) (order_num_total r))
      by exact Hnum.
    rewrite Hq. ring.
  - apply Qeq_bool_iff in Hzero. contradiction.
Qed.

Lemma create_clv_df_monetary_nonzero_witness :
  1 < frequency (mkClv "e5" (369 # 7) (379 # 7) 7 (920 # 7))
  /\ ~ monetary_clv_avg (mkClv "e5" (369 # 7) (379 # 7) 7 (920 # 7)) == 0.
Proof.
  apply (create_clv_df_monetary_nonzero analysis_date Examples.flo).
  vm_compute. tauto.
Defined.

(** [round(x, 0)] is a whole number within one half of [x]. *)
Lemma round0_near (x : Q) :
  is_whole (round0 x)
  /\ - (1 # 2) <= round0 x - x /\ round0 x - x <= 1 # 2.
Proof.
  unfold round0, is_whole.
  pose proof (Qfloor_le x) as Hfl.
  pose proof (Qlt_floor x) as Hlf.
  rewrite inject_Z_plus in Hlf. change (inject_Z 1) with 1 in Hlf.
  destruct (Qcompare (x - inject_Z (Qfloor x)) (1 # 2)) eqn:Hc.
  - apply Qeq_alt in Hc.
    destruct (Z.even (Qfloor x)).
    + split; [eexists; reflexivity | split; lra].
    + split; [eexists; reflexivity |].
      rewrite inject_Z_plus. change (inject_Z 1) with 1. split; lra.
  - apply Qlt_alt in Hc. split; [eexists; reflexivity | split; lra].
  - apply Qgt_alt in Hc. split; [eexists; reflexivity |].
    rewrite inject_Z_plus. change (inject_Z 1) with 1. split; lra.
Qed.

(** X12: the clipper of [flo_clv.py] either leaves a value as it is or
    writes a whole number over it, the lower or the upper limit rounded:
    it differs from that limit by one half at most. *)
Theorem flo_clipper_writes_whole_numbers {A : Type} (get : A -> Q)
    (set : Q -> A -> A) (df : list A) (i : nat) (r r' : A) :
  (forall v a, get (set v a) = v) ->
  nth_error df i = Some r ->
  nth_error (replace_with_thresholds get set df) i = Some r' ->
  r' = r
  \/ (is_whole (get r')
      /\ exists limit,
           (limit = fst (outlier_thresholds (map get df))
            \/ limit = snd (outlier_thresholds (map get df)))
           /\ - (1 # 2) <= get r' - limit /\ get r' - limit <= 1 # 2).
Proof.
  intros Hget Hr Hr'. unfold replace_with_thresholds in Hr'.
  destruct (outlier_thresholds (map get df)) as [low up].
  simpl fst. simpl snd.
  erewrite loc_set_nth_error in Hr'
    by (rewrite (loc_set_nth_error _ _ _ _ _ Hr); reflexivity).
  injection Hr' as <-.
  destruct (round0_near low) as [Hwl [Hl1 Hl2]].
  destruct (round0_near up) as [Hwu [Hu1 Hu2]].
  destruct (Qlt_bool (get r) low) eqn:Hlow.
  - destruct (Qlt_bool up (get (set (round0 low) r))) eqn:Hup.
    + right. rewrite Hget. split; [exact Hwu |]. exists up. auto.
    + right. rewrite Hget. split; [exact Hwl |]. exists low. auto.
  - destruct (Qlt_bool up (get r)) eqn:Hup.
    + right. rewrite Hget. split; [exact Hwu |]. exists up. auto.
    + left. reflexivity.
Qed.

Lemma flo_clipper_writes_whole_numbers_witness :
  is_whole (column_get 0)
  /\ exists limit,
       (limit = fst (outlier_thresholds (map column_get Examples.one_outlier))
        \/ limit = snd (outlier_thresholds
                          (map column_get Examples.one_outlier)))
       /\ - (1 # 2) <= column_get 0 - limit
       /\ column_get 0 - limit <= 1 # 2.
Proof.
  destruct (flo_clipper_writes_whole_numbers column_get column_set
              Examples.one_outlier 200 100 0) as [Hsame | Hwhole].
  - reflexivity.
  - reflexivity.
  - vm_compute. reflexivity.
  - discriminate Hsame.
  - exact Hwhole.
Defined.

End FloRecords.

(** ** flo_clv.py: the sub-segments of segment A *)

Section SubSegments.

Import Pandas FloSegments.

Lemma map_fst_combine {A B : Type} (xs : list A) (ys : list B) :
  List.length ys = List.length xs -> map fst (combine xs ys) = xs.
Proof.
  revert ys. induction xs as [| x xs IH]; intros [| y ys]; simpl;
    try discriminate; auto.
  intros Hlen. f_equal. apply IH. lia.
Qed.

Lemma combine_map_In {A B : Type} (f : A -> B) (xs : list A) (m : A * B) :
  In m (combine xs (map f xs)) -> In (fst m) xs /\ snd m = f (fst m).
Proof.
  induction xs as [| x xs IH]; simpl; [tauto |].
  intros [<- | Hm]; [simpl; auto |].
  destruct (IH Hm) as [Hin Heq]. auto.
Qed.

Lemma combine_map_intro {A B : Type} (f : A -> B) (xs : list A) (v : A) :
  In v xs -> In (v, f v) (combine xs (map f xs)).
Proof.
  induction xs as [| x xs IH]; simpl; [tauto |].
  intros [-> | Hin]; [left; reflexivity | right; auto].
Qed.

(** Among keys that are all different, at most one equals a given key. *)
Lemma matches_at_most_one {B : Type} (right : list (Q * B)) (v : Q) :
  pairwise_distinct (map fst right) ->
  (List.length (filter (fun m => Qeq_bool (fst m) v) right) <= 1)%nat.
Proof.
  induction right as [| m right IH]; simpl; intros Hd; [lia |].
  apply pairwise_distinct_cons in Hd. destruct Hd as [Hm Hd].
  specialize (IH Hd).
  destruct (Qeq_bool (fst m) v) eqn:Hmv; [| exact IH].
  apply Qeq_bool_iff in Hmv. simpl.
  assert (Hnone : filter (fun m' => Qeq_bool (fst m') v) right = []).
  { destruct (filter (fun m' => Qeq_bool (fst m') v) right) as [| m' l] eqn:Hf;
      [reflexivity |].
    assert (Hin : In m' (filter (fun m' => Qeq_bool (fst m') v) right))
      by (rewrite Hf; left; reflexivity).
    apply filter_In in Hin. destruct Hin as [Hin Heq].
    apply Qeq_bool_iff in Heq. exfalso.
    apply (Hm (fst m')); [apply in_map, Hin |].
    rewrite Hmv, Heq. reflexivity. }
  rewrite Hnone. simpl. lia.
Qed.

Lemma merge_left_cons (l : row) (clv_df : list row)
    (right : list (Q * option string)) :
  merge_left (l :: clv_df) right
  = match filter (fun m => Qeq_bool (fst m) (clv l)) right with
    | [] => [(l, None)]
    | m :: ms => map (fun m => (l, snd m)) (m :: ms)
    end ++ merge_left clv_df right.
Proof. reflexivity. Qed.

(** The sub-segment that the merge attaches to a row when no key of the
    right table is repeated. *)
Lemma merge_left_single (clv_df : list row)
    (right : list (Q * option string)) :
  (forall v, (List.length (filter (fun m => Qeq_bool (fst m) v) right) <= 1)%nat) ->
  merge_left clv_df right
  = map
      (fun l =>
         (l,
          match filter (fun m => Qeq_bool (fst m) (clv l)) right with
          | [] => None
          | m :: _ => snd m
          end))
      clv_df.
Proof.
  intros Hone.
  induction clv_df as [| l clv_df IH]; [reflexivity |].
  rewrite merge_left_cons, IH. specialize (Hone (clv l)).
  cbn [map].
  destruct (filter (fun m => Qeq_bool (fst m) (clv l)) right)
    as [| m [| m' ms]]; simpl in *; try reflexivity; lia.
Qed.

Lemma update_segment_keeps (l : row) (s : option string) :
  customer_id (update_segment (l, s)) = customer_id l
  /\ clv (update_segment (l, s)) = clv l
  /\ (is_A l = false -> update_segment (l, s) = l)
  /\ (is_A l = true -> clv_segment (update_segment (l, s)) = s).
Proof.
  unfold update_segment. simpl.
  destruct (is_A l); simpl; repeat split; congruence.
Qed.

Lemma sub_label_cases (x : list Q) (v : Q) :
  In v x ->
  cut_label (qcut_bins x 2) ["A2"; "A1"]%string v = Some "A1"%string
  \/ cut_label (qcut_bins x 2) ["A2"; "A1"]%string v = Some "A2"%string.
Proof.
  intros Hv. rewrite cut_label_in_range by (lia || exact Hv).
  pose proof (qcut_bin_in_range x 2 v ltac:(lia) Hv) as Hid.
  destruct (bin_id (qcut_bins x 2) v) as [| [| [| id]]]; try lia; simpl; auto.
Qed.

(** X14: when segment A holds two customers or more and no two of them
    share a predicted value, the sub-segmentation of [flo_clv.py] returns
    the table row for row: same customers, same values, the rows outside
    segment A untouched and every row of segment A relabelled A1 or A2. *)
Theorem sub_segmentation_without_ties (clv_df : list row) :
  (2 <= List.length (segment_A clv_df))%nat ->
  pairwise_distinct (map clv (segment_A clv_df)) ->
  exists out,
    sub_segmentation clv_df = inr out
    /\ List.length out = List.length clv_df
    /\ forall i r,
         nth_error clv_df i = Some r ->
         exists r',
           nth_error out i = Some r'
           /\ customer_id r' = customer_id r
           /\ clv r' = clv r
           /\ (is_A r = false -> r' = r)
           /\ (is_A r = true ->
               clv_segment r' = Some "A1"%string
               \/ clv_segment r' = Some "A2"%string).
Proof.
  intros Hlen Hd.
  set (xs := map clv (segment_A clv_df)) in *.
  assert (Hxs : (2 <= List.length xs)%nat)
    by (unfold xs; rewrite length_map; exact Hlen).
  pose proof (qcut_distinct_returns xs 2 ["A2"; "A1"]%string Hxs Hd
                ltac:(lia) eq_refl) as Hq.
  set (cl := cut_label (qcut_bins xs 2) ["A2"; "A1"]%string) in *.
  set (right := combine xs (map cl xs)).
  assert (Hsub : sub_segmentation clv_df
                 = inr (map update_segment (merge_left clv_df right))).
  { unfold sub_segmentation, sub_segments, bind, ret. fold xs.
    rewrite Hq. reflexivity. }
  assert (Hone : forall v,
            (List.length (filter (fun m => Qeq_bool (fst m) v) right) <= 1)%nat).
  { intros v. apply matches_at_most_one. unfold right.
    rewrite map_fst_combine by (rewrite length_map; reflexivity). exact Hd. }
  rewrite (merge_left_single clv_df right Hone), map_map in Hsub.
  eexists. split; [exact Hsub |]. split; [apply length_map |].
  intros i r Hr. eexists. split; [rewrite nth_error_map, Hr; reflexivity |].
  set (s := match filter (fun m => Qeq_bool (fst m) (clv r)) right with
            | [] => None
            | m :: _ => snd m
            end).
  destruct (update_segment_keeps r s) as [Hid [Hclv [Hout HA]]].
  split; [exact Hid | split; [exact Hclv | split; [exact Hout |]]].
  intros HrA. rewrite (HA HrA). unfold s.
  assert (Hin : In (clv r) xs).
  { unfold xs. apply in_map. unfold segment_A. apply filter_In.
    split; [eapply nth_error_In; exact Hr | exact HrA]. }
  destruct (filter (fun m => Qeq_bool (fst m) (clv r)) right) as [| m ms] eqn:Hf.
  - exfalso.
    assert (Hm : In (clv r, cl (clv r))
                   (filter (fun m => Qeq_bool (fst m) (clv r)) right)).
    { apply filter_In. split; [| apply Qeq_bool_refl].
      apply combine_map_intro, Hin. }
    rewrite Hf in Hm. destruct Hm.
  - assert (Hm : In m (filter (fun m => Qeq_bool (fst m) (clv r)) right))
      by (rewrite Hf; left; reflexivity).
    apply filter_In in Hm. destruct Hm as [Hm _].
    apply combine_map_In in Hm. destruct Hm as [Hmx ->].
    apply sub_label_cases, Hmx.
Qed.

Lemma sub_segmentation_without_ties_witness :
  exists out,
    sub_segmentation Scenarios.segmented = inr out
    /\ List.length out = List.length Scenarios.segmented
    /\ forall i r,
         nth_error Scenarios.segmented i = Some r ->
         exists r',
           nth_error out i = Some r'
           /\ customer_id r' = customer_id r
           /\ clv r' = clv r
           /\ (is_A r = false -> r' = r)
           /\ (is_A r = true ->
               clv_segment r' = Some "A1"%string
               \/ clv_segment r' = Some "A2"%string).
Proof.
  apply (sub_segmentation_without_ties Scenarios.segmented).
  - vm_compute. lia.
  - vm_compute. constructor; [| constructor; [| constructor]];
      constructor; [| constructor].
    intros H. vm_compute in H. discriminate H.
Defined.

(** *** Ties in segment A *)

Lemma flat_map_length_ge {A B : Type} (f : A -> list B) (l : list A) :
  (forall a, (1 <= List.length (f a))%nat) ->
  (List.length l <= List.length (flat_map f l))%nat.
Proof.
  intros Hf. induction l as [| a l IH]; simpl; [lia |].
  rewrite length_app. specialize (Hf a). lia.
Qed.

Lemma flat_map_length_gt {A B : Type} (f : A -> list B) (l : list A) (a : A) :
  (forall a, (1 <= List.length (f a))%nat) ->
  In a l -> (2 <= List.length (f a))%nat ->
  (List.length l < List.length (flat_map f l))%nat.
Proof.
  intros Hf Ha H2. induction l as [| b l IH]; simpl; [destruct Ha |].
  rewrite length_app.
  pose proof (flat_map_length_ge f l Hf) as Hge.
  destruct Ha as [-> | Ha]; [lia |].
  specialize (IH Ha). specialize (Hf b). lia.
Qed.

Lemma filter_one {A : Type} (p : A -> bool) (l : list A) (x : A) :
  In x l -> p x = true -> (1 <= List.length (filter p l))%nat.
Proof.
  intros Hx Hp.
  assert (Hin : In x (filter p l)) by (apply filter_In; auto).
  destruct (filter p l); [destruct Hin | simpl; lia].
Qed.

Lemma filter_two {A : Type} (p : A -> bool) (l : list A) (i j : nat)
    (x y : A) :
  (i < j)%nat -> nth_error l i = Some x -> nth_error l j = Some y ->
  p x = true -> p y = true -> (2 <= List.length (filter p l))%nat.
Proof.
  revert i j. induction l as [| a l IH]; intros i j Hij Hx Hy Hpx Hpy.
  - destruct i; discriminate.
  - destruct j as [| j]; [lia |]. simpl in Hy.
    destruct i as [| i].
    + injection Hx as ->. simpl. rewrite Hpx. simpl.
      pose proof (filter_one p l y (nth_error_In _ _ Hy) Hpy). lia.
    + simpl in Hx. specialize (IH i j ltac:(lia) Hx Hy Hpx Hpy).
      simpl. destruct (p a); simpl; lia.
Qed.

Lemma matches_count {B : Type} (xs : list Q) (ys : list B) (v : Q) :
  List.length ys = List.length xs ->
  List.length (filter (fun m => Qeq_bool (fst m) v) (combine xs ys))
  = List.length (filter (fun u => Qeq_bool u v) xs).
Proof.
  revert ys. induction xs as [| x xs IH]; intros [| y ys]; simpl;
    try discriminate; auto.
  intros Hlen. destruct (Qeq_bool x v); simpl; rewrite IH by lia; reflexivity.
Qed.

Lemma filter_map_filter_length (p : row -> bool) (q : Q -> bool)
    (l : list row) :
  List.length (filter q (map clv (filter p l)))
  = List.length (filter (fun r => p r && q (clv r)) l).
Proof.
  induction l as [| r l IH]; simpl; [reflexivity |].
  destruct (p r); simpl; [| exact IH].
  destruct (q (clv r)); simpl; rewrite IH; reflexivity.
Qed.

(** X15: the merge on the predicted value never loses a row, and it
    repeats rows as soon as two customers of segment A share a predicted
    value: the table that comes back is then longer than the customer
    table. *)
Theorem sub_segmentation_repeats_ties (clv_df out : list row) (i j : nat)
    (x y : row) :
  sub_segmentation clv_df = inr out ->
  (i < j)%nat ->
  nth_error clv_df i = Some x -> nth_error clv_df j = Some y ->
  is_A x = true -> is_A y = true -> clv x == clv y ->
  (List.length clv_df < List.length out)%nat.
Proof.
  intros Hout Hij Hx Hy HxA HyA Heq.
  unfold sub_segmentation, sub_segments, bind, ret in Hout.
  destruct (qcut (map clv (segment_A clv_df)) 2 ["A2"; "A1"]%string)
    as [e | subs] eqn:Hq; [discriminate |].
  injection Hout as <-. rewrite length_map.
  pose proof (qcut_length _ _ _ _ Hq) as Hlen.
  unfold merge_left.
  apply (flat_map_length_gt _ clv_df x).
  - intros a.
    destruct (filter _ (combine (map clv (segment_A clv_df)) subs))
      as [| m ms]; simpl; lia.
  - eapply nth_error_In. exact Hx.
  - assert (Hcount :
      (2 <= List.length
              (filter (fun m => Qeq_bool (fst m) (clv x))
                 (combine (map clv (segment_A clv_df)) subs)))%nat).
    { rewrite matches_count by exact Hlen.
      unfold segment_A. rewrite filter_map_filter_length.
      apply (filter_two _ clv_df i j x y Hij Hx Hy).
      - rewrite HxA. apply Qeq_bool_refl.
      - rewrite HyA. apply Qeq_bool_iff. symmetry. exact Heq. }
    destruct (filter _ (combine (map clv (segment_A clv_df)) subs))
      as [| m ms]; [simpl in Hcount; lia |].
    rewrite length_map. exact Hcount.
Qed.

Lemma sub_segmentation_repeats_ties_witness :
  (List.length Scenarios.tied
   < List.length
       [ mkRow "f" (210 # 1) (Some "B"); mkRow "g" (300 # 1) (Some "A2");
         mkRow "g" (300 # 1) (Some "A2"); mkRow "h" (300 # 1) (Some "A2");
         mkRow "h" (300 # 1) (Some "A2"); mkRow "i" (400 # 1) (Some "A1");
         mkRow "j" (500 # 1) (Some "A1") ]%string)%nat.
Proof.
  apply (sub_segmentation_repeats_ties Scenarios.tied _ 1 2
           (mkRow "g" (300 # 1) (Some "A"%string))
           (mkRow "h" (300 # 1) (Some "A"%string))).
  - vm_compute. reflexivity.
  - lia.
  - reflexivity.
  - reflexivity.
  - reflexivity.
  - reflexivity.
  - reflexivity.
Defined.

End SubSegments.
